(** * Titanic dashboard: data preparation and the insight callback

    A shallow embedding of [main.py]: the pandas operations the program
    calls, [load_and_prepare_data], and the Dash callback
    [update_visualization], followed by the properties of the design
    document that concern them.

    Conventions of the embedding.
    - A [float64] is an exact rational ([Fin q]) or one of the IEEE values
      [PInf], [NInf], [NaN]; rounding is not modelled, the special values and
      the division by zero that produces them are.  Accordingly, what is
      stated of a computed float is the operation and the data that produce
      it, its special value, or an order fact that rounding to nearest
      preserves; no statement is an arithmetic identity between floats.
    - A cell of a column is [NA] (pandas' missing value), an integer, a
      finite float or a string; a categorical column carries its categories
      in its dtype.
    - A frame is the ordered list of its named columns; names are distinct,
      as pandas addresses a column by its name.
    - A Python exception is a value of [exn]; a pandas expression that may
      raise returns [result A].
    - The callback runs against the module's global [df]: it is a
      computation [M A] over the globals, in which every occurrence of the
      name [df] is a read of the global. *)

From Stdlib Require Import String Ascii List ZArith QArith Qreduction Bool.
From Stdlib Require Import DecimalString.
From Stdlib Require Import Lia Lqa Sorted.
Import ListNotations.
Local Close Scope Q_scope.
#[local] Set Warnings "-register-all".
Local Open Scope string_scope.
Local Open Scope list_scope.

(** ** Exceptions and the error monad *)

Inductive exn : Type :=
| KeyError (key : string)
| ZeroDivisionError
| ValueError (msg : string)
| UnboundLocalError (name : string)
| Exception (msg : string).

Definition result (A : Type) : Type := (exn + A)%type.

Definition ret {A} (a : A) : result A := inr a.
Definition raise {A} (e : exn) : result A := inl e.

Definition bind {A B} (m : result A) (k : A -> result B) : result B :=
  match m with
  | inl e => inl e
  | inr a => k a
  end.

Declare Scope result_scope.
Delimit Scope result_scope with res.

Notation "x <- m ;; k" := (bind m%res (fun x => k%res))
  (at level 61, m at next level, right associativity) : result_scope.
Notation "' pat <- m ;; k" :=
  (bind m%res (fun x => match x with pat => k%res end))
  (at level 61, pat pattern, m at next level, right associativity)
  : result_scope.

Local Open Scope result_scope.

(** ** Scalars *)

Inductive float : Type :=
| Fin (q : Q)
| PInf
| NInf
| NaN.

Inductive value : Type :=
| NA
| VInt (z : Z)
| VFloat (q : Q)
| VStr (s : string).

Definition Qltb (a b : Q) : bool :=
  match Qcompare a b with Lt => true | _ => false end.

Definition Qleb (a b : Q) : bool :=
  match Qcompare a b with Gt => false | _ => true end.

Definition Qeqb (a b : Q) : bool :=
  match Qcompare a b with Eq => true | _ => false end.

(** numpy's [float64 / float64]: no exception, a zero divisor gives an
    infinity or NaN. *)
Definition np_div (a b : float) : float :=
  match a, b with
  | NaN, _ | _, NaN => NaN
  | Fin x, Fin y =>
      if Qeqb y 0 then
        match Qcompare x 0 with Eq => NaN | Gt => PInf | Lt => NInf end
      else Fin (Qred (x / y))
  | Fin _, (PInf | NInf) => Fin 0
  | (PInf | NInf), (PInf | NInf) => NaN
  | PInf, Fin y => if Qltb y 0 then NInf else PInf
  | NInf, Fin y => if Qltb y 0 then PInf else NInf
  end.

Definition np_sub (a b : float) : float :=
  match a, b with
  | NaN, _ | _, NaN => NaN
  | Fin x, Fin y => Fin (Qred (x - y))
  | Fin _, PInf => NInf
  | Fin _, NInf => PInf
  | PInf, PInf | NInf, NInf => NaN
  | PInf, _ => PInf
  | NInf, _ => NInf
  end.

Definition np_mul (a b : float) : float :=
  match a, b with
  | NaN, _ | _, NaN => NaN
  | Fin x, Fin y => Fin (Qred (x * y))
  | Fin x, PInf | PInf, Fin x =>
      match Qcompare x 0 with Eq => NaN | Gt => PInf | Lt => NInf end
  | Fin x, NInf | NInf, Fin x =>
      match Qcompare x 0 with Eq => NaN | Gt => NInf | Lt => PInf end
  | PInf, PInf | NInf, NInf => PInf
  | PInf, NInf | NInf, PInf => NInf
  end.

(** Python's [int / int]: true division, raising on a zero divisor. *)
Definition py_div (a b : Z) : result float :=
  if Z.eqb b 0 then raise ZeroDivisionError
  else ret (Fin (Qred (inject_Z a / inject_Z b))).

Definition of_nat (n : nat) : float := Fin (inject_Z (Z.of_nat n)).

(** ** Series *)

Inductive dtype : Type :=
| int64
| float64
| object
| category (categories : list string).

Record Series : Type := mkSeries { s_dtype : dtype; s_values : list value }.

Definition isna (v : value) : bool :=
  match v with NA => true | _ => false end.

Definition to_Q (v : value) : option Q :=
  match v with
  | VInt z => Some (inject_Z z)
  | VFloat q => Some q
  | _ => None
  end.

Fixpoint numeric (vs : list value) : list Q :=
  match vs with
  | [] => []
  | v :: vs' =>
      match to_Q v with
      | Some q => q :: numeric vs'
      | None => numeric vs'
      end
  end.

Definition Qsum (xs : list Q) : Q := fold_right Qplus 0%Q xs.

(** [Series.mean()], skipping missing values; NaN on an all-missing or
    empty series. *)
Definition mean_of (xs : list Q) : float :=
  match xs with
  | [] => NaN
  | _ => Fin (Qred (Qsum xs / inject_Z (Z.of_nat (length xs))))
  end.

Definition mean (s : Series) : float := mean_of (numeric (s_values s)).

(** [Series.fillna(x)]: a NaN fill value leaves the series as it is. *)
Definition fillna (s : Series) (x : float) : Series :=
  match x with
  | Fin q =>
      mkSeries (s_dtype s)
        (map (fun v => if isna v then VFloat q else v) (s_values s))
  | _ => s
  end.

(** ** pd.cut

    [pd.cut(x, bins, labels)] with the defaults [right=True] and
    [include_lowest=False]: the bins are the intervals (b_i, b_i+1].
    pandas locates a value with [bins.searchsorted(x, side='left')], the
    number of boundaries strictly below it, and marks as missing a value
    whose position is 0 or [len(bins)]. *)

Definition searchsorted_left (bins : list Q) (x : Q) : nat :=
  length (filter (fun b => Qltb b x) bins).

Definition cut_value (bins : list Q) (labels : list string) (v : value) : value :=
  match to_Q v with
  | None => NA
  | Some x =>
      let ids := searchsorted_left bins x in
      if Nat.eqb ids 0 || Nat.eqb ids (length bins) then NA
      else match nth_error labels (ids - 1) with
           | Some l => VStr l
           | None => NA
           end
  end.

Definition cut (s : Series) (bins : list Q) (labels : list string) : Series :=
  mkSeries (category labels) (map (cut_value bins labels) (s_values s)).

(** ** Frames *)

Definition DataFrame : Type := list (string * Series).

(** [df[name]] *)
Fixpoint lookup (df : DataFrame) (name : string) : option Series :=
  match df with
  | [] => None
  | (n, s) :: df' => if String.eqb n name then Some s else lookup df' name
  end.

Definition getitem (df : DataFrame) (name : string) : result Series :=
  match lookup df name with
  | Some s => ret s
  | None => raise (KeyError name)
  end.

(** [df[name] = s]: overwrite the column in place, or append a new one. *)
Fixpoint setitem (df : DataFrame) (name : string) (s : Series) : DataFrame :=
  match df with
  | [] => [(name, s)]
  | (n, s') :: df' =>
      if String.eqb n name then (n, s) :: df'
      else (n, s') :: setitem df' name s
  end.

(** [df.drop(names, axis=1, errors='ignore')] *)
Definition drop (names : list string) (df : DataFrame) : DataFrame :=
  filter (fun c => negb (existsb (String.eqb (fst c)) names)) df.

(** [len(df)] *)
Definition len (df : DataFrame) : nat :=
  match df with
  | [] => 0
  | (_, s) :: _ => length (s_values s)
  end.

(** ** load_and_prepare_data

    [sns.load_dataset('titanic')] is the external data source; its result
    is the argument [raw]. *)

Definition age_bins : list Q := [0; 12; 20; 40; 60; 80]%Q.
Definition age_labels : list string :=
  ["Child"; "Teen"; "Adult"; "Middle-Aged"; "Senior"].

Definition fare_bins : list Q := [0; 10; 30; 50; 100; 200; 500]%Q.
Definition fare_labels : list string :=
  ["Very Low"; "Low"; "Medium"; "High"; "Very High"; "Extremely High"].

Definition load_and_prepare_data (raw : DataFrame) : result DataFrame :=
  let df := raw in
  let df := drop ["deck"] df in
  age <- getitem df "age" ;;
  let df := setitem df "age" (fillna age (mean age)) in
  let df := drop ["embark_town"; "embarked"] df in
  age <- getitem df "age" ;;
  let df := setitem df "age_grouped" (cut age age_bins age_labels) in
  fare <- getitem df "fare" ;;
  let df := setitem df "fare_grouped" (cut fare fare_bins fare_labels) in
  ret df.

(** ** Reductions of a series *)

Fixpoint insert_sorted {A} (leb : A -> A -> bool) (x : A) (l : list A) : list A :=
  match l with
  | [] => [x]
  | y :: l' => if leb x y then x :: l else y :: insert_sorted leb x l'
  end.

(** A stable sort: elements that compare equal keep their order. *)
Definition sort_by {A} (leb : A -> A -> bool) (l : list A) : list A :=
  fold_right (insert_sorted leb) [] l.

Definition median_of (xs : list Q) : float :=
  let s := sort_by Qleb xs in
  let n := length s in
  match n with
  | O => NaN
  | _ =>
      if Nat.even n
      then Fin (Qred ((nth (n / 2 - 1) s 0%Q + nth (n / 2) s 0%Q) / 2)%Q)
      else Fin (nth (n / 2) s 0%Q)
  end.

Definition min_of (xs : list Q) : float :=
  match xs with
  | [] => NaN
  | x :: xs' => Fin (fold_left (fun m y => if Qltb y m then y else m) xs' x)
  end.

Definition max_of (xs : list Q) : float :=
  match xs with
  | [] => NaN
  | x :: xs' => Fin (fold_left (fun m y => if Qltb m y then y else m) xs' x)
  end.

(** An irrational result is kept exact: [Sqrt v] is the square root of [v]. *)
Inductive root : Type := Sqrt (radicand : float).

(** The sample variance ([ddof=1]); NaN below two observations. *)
Definition var_of (xs : list Q) : float :=
  match xs with
  | [] | [_] => NaN
  | _ =>
      let n := inject_Z (Z.of_nat (length xs)) in
      let m := (Qsum xs / n)%Q in
      Fin (Qred (Qsum (map (fun x => (x - m) * (x - m))%Q xs) / (n - 1))%Q)
  end.

Definition std_of (xs : list Q) : root := Sqrt (var_of xs).

Definition median (s : Series) : float := median_of (numeric (s_values s)).
Definition smin (s : Series) : float := min_of (numeric (s_values s)).
Definition smax (s : Series) : float := max_of (numeric (s_values s)).

Definition to_Z (v : value) : Z :=
  match v with VInt z => z | _ => 0 end.

(** Pearson's coefficient over the rows where both columns are present,
    kept as its exact ingredients: the value is
    [cov / sqrt (var_x * var_y)]; NaN when a variance vanishes or fewer
    than two rows are complete. *)
Inductive pearson : Type :=
| Pearson (cov var_x var_y : Q)
| PearsonNaN.

Fixpoint complete_pairs (xs ys : list value) : list (Q * Q) :=
  match xs, ys with
  | x :: xs', y :: ys' =>
      match to_Q x, to_Q y with
      | Some a, Some b => (a, b) :: complete_pairs xs' ys'
      | _, _ => complete_pairs xs' ys'
      end
  | _, _ => []
  end.

Definition corr (a b : Series) : pearson :=
  let ps := complete_pairs (s_values a) (s_values b) in
  let xs := map fst ps in
  let ys := map snd ps in
  match ps with
  | [] | [_] => PearsonNaN
  | _ =>
      let n := inject_Z (Z.of_nat (length ps)) in
      let mx := (Qsum xs / n)%Q in
      let my := (Qsum ys / n)%Q in
      let cov := Qred (Qsum (map (fun p => (fst p - mx) * (snd p - my))%Q ps)) in
      let vx := Qred (Qsum (map (fun x => (x - mx) * (x - mx))%Q xs)) in
      let vy := Qred (Qsum (map (fun y => (y - my) * (y - my))%Q ys)) in
      if Qeqb vx 0 || Qeqb vy 0 then PearsonNaN else Pearson cov vx vy
  end.

(** ** Boolean masks and row selection *)

Definition mask : Type := list bool.

Definition cmp (test : Q -> bool) (s : Series) : mask :=
  map (fun v => match to_Q v with Some x => test x | None => false end)
      (s_values s).

Definition lt (s : Series) (c : Q) : mask := cmp (fun x => Qltb x c) s.
Definition le (s : Series) (c : Q) : mask := cmp (fun x => Qleb x c) s.
Definition gt (s : Series) (c : Q) : mask := cmp (fun x => Qltb c x) s.
Definition ge (s : Series) (c : Q) : mask := cmp (fun x => Qleb c x) s.

(** A comparison against NaN is false on every row. *)
Definition gt_f (s : Series) (c : float) : mask :=
  match c with
  | Fin q => gt s q
  | NInf => cmp (fun _ => true) s
  | _ => map (fun _ => false) (s_values s)
  end.

Definition le_f (s : Series) (c : float) : mask :=
  match c with
  | Fin q => le s q
  | PInf => cmp (fun _ => true) s
  | _ => map (fun _ => false) (s_values s)
  end.

Definition value_eqb (a b : value) : bool :=
  match a, b with
  | VInt x, VInt y => Z.eqb x y
  | VFloat x, VFloat y => Qeqb x y
  | VInt x, VFloat y | VFloat y, VInt x => Qeqb (inject_Z x) y
  | VStr x, VStr y => String.eqb x y
  | _, _ => false
  end.

(** [s == c] *)
Definition eq (s : Series) (c : value) : mask :=
  map (fun v => value_eqb v c) (s_values s).

Fixpoint mand (a b : mask) : mask :=
  match a, b with
  | x :: a', y :: b' => (x && y) :: mand a' b'
  | _, _ => []
  end.

Fixpoint select {A} (m : mask) (l : list A) : list A :=
  match m, l with
  | b :: m', x :: l' => if b then x :: select m' l' else select m' l'
  | _, _ => []
  end.

Definition sselect (m : mask) (s : Series) : Series :=
  mkSeries (s_dtype s) (select m (s_values s)).

(** [df[mask]]: the selected rows of every column. *)
Definition rows (df : DataFrame) (m : mask) : DataFrame :=
  map (fun c => (fst c, sselect m (snd c))) df.

(** [df.isnull().sum().sum()] *)
Definition isnull_sum_sum (df : DataFrame) : nat :=
  fold_right Nat.add 0
    (map (fun c => length (filter isna (s_values (snd c)))) df).

(** ** Labelled results

    The result of a group-by or of [value_counts] is a series indexed by
    labels: the list of its (label, value) pairs in index order.
    [s[k]] raises [KeyError] when the label is absent. *)

Definition index {K V} (s : list (K * V)) : list K := map fst s.
Definition values {K V} (s : list (K * V)) : list V := map snd s.

Fixpoint loc {V} (s : list (string * V)) (k : string) : result V :=
  match s with
  | [] => raise (KeyError k)
  | (k', v) :: s' => if String.eqb k' k then ret v else loc s' k
  end.

(** The same for an integer-labelled index, as that of
    [df['survived'].value_counts()]. *)
Fixpoint iloc {V} (s : list (value * V)) (k : Z) (name : string) : result V :=
  match s with
  | [] => raise (KeyError name)
  | (k', v) :: s' => if value_eqb k' (VInt k) then ret v else iloc s' k name
  end.

Fixpoint uniques (vs : list value) : list value :=
  match vs with
  | [] => []
  | v :: vs' =>
      let r := uniques vs' in
      if isna v then r
      else v :: filter (fun w => negb (value_eqb w v)) r
  end.

Definition count_of (v : value) (vs : list value) : nat :=
  length (filter (value_eqb v) vs).

(** [Series.value_counts()]: one entry per distinct value in order of first
    appearance (per category, in category order, for a categorical), then
    sorted by decreasing count. *)
Definition value_counts (s : Series) : list (value * nat) :=
  let keys :=
    match s_dtype s with
    | category cats => map VStr cats
    | _ => uniques (s_values s)
    end in
  sort_by (fun a b => Nat.leb (snd b) (snd a))
          (map (fun k => (k, count_of k (s_values s))) keys).

Definition value_leb (a b : value) : bool :=
  match a, b with
  | VStr x, VStr y => String.leb x y
  | _, _ =>
      match to_Q a, to_Q b with
      | Some x, Some y => Qleb x y
      | _, _ => true
      end
  end.

Definition str_of (v : value) : string :=
  match v with VStr s => s | _ => "" end.

(** ** Group-by

    The group keys of a grouping column: every category, in category order,
    for a categorical (only those that occur when [observed]); the sorted
    distinct values otherwise.  Rows with a missing key belong to no
    group. *)

Definition occurs (k : string) (s : Series) : bool :=
  existsb (value_eqb (VStr k)) (s_values s).

Definition group_keys (observed : bool) (s : Series) : list string :=
  match s_dtype s with
  | category cats =>
      if observed then filter (fun c => occurs c s) cats else cats
  | _ => map str_of (sort_by value_leb (uniques (s_values s)))
  end.

(** [groupby] is called without [observed]; pandas before 3.0 takes False. *)
Definition observed_default : bool := false.

Definition group (by_ : Series) (k : string) (target : Series) : list value :=
  select (eq by_ (VStr k)) (s_values target).

Definition groupby_apply {V} (f : list value -> V) (df : DataFrame)
    (by_ target : string) : result (list (string * V)) :=
  b <- getitem df by_ ;;
  t <- getitem df target ;;
  ret (map (fun k => (k, f (group b k t))) (group_keys observed_default b)).

(** The aggregations [.mean()] and [.sum()] of a group. *)
Definition agg_mean (vs : list value) : float := mean_of (numeric vs).
Definition agg_sum (vs : list value) : Z :=
  fold_right Z.add 0%Z (map to_Z vs).

(** [df.groupby(by)[target].mean()] *)
Definition groupby_mean := groupby_apply agg_mean.

(** [df.groupby(by).size()] *)
Definition groupby_size (df : DataFrame) (by_ : string)
    : result (list (string * nat)) :=
  b <- getitem df by_ ;;
  ret (map (fun k => (k, length (filter id (eq b (VStr k)))))
           (group_keys observed_default b)).

(** [.agg(['mean', 'median', 'min', 'max', 'std'])] and the dictionary
    [age_stats] hold the same five statistics. *)
Record Stats5 : Type := mkStats5 {
  st_mean : float; st_median : float; st_min : float; st_max : float;
  st_std : root }.

Definition stats5 (vs : list value) : Stats5 :=
  let xs := numeric vs in
  mkStats5 (mean_of xs) (median_of xs) (min_of xs) (max_of xs) (std_of xs).

(** [.agg(['mean', 'median', 'std'])] *)
Record Stats3 : Type := mkStats3 {
  s3_mean : float; s3_median : float; s3_std : root }.

Definition stats3 (vs : list value) : Stats3 :=
  let xs := numeric vs in
  mkStats3 (mean_of xs) (median_of xs) (std_of xs).

(** ** Pivot: [groupby([r, c])[t].mean().unstack()] *)

Record Pivot : Type := mkPivot {
  p_index : list string;
  p_columns : list string;
  p_data : list (list float) }.

Definition pair_mask (r c : Series) (a b : string) : mask :=
  mand (eq r (VStr a)) (eq c (VStr b)).

Definition pair_occurs (r c : Series) (a b : string) : bool :=
  existsb id (pair_mask r c a b).

Definition pivot_mean_obs (observed : bool) (r c t : Series) : Pivot :=
  let rk := group_keys observed r in
  let ck := group_keys observed c in
  let rk := if observed
            then filter (fun a => existsb (pair_occurs r c a) ck) rk else rk in
  let ck := if observed
            then filter (fun b => existsb (fun a => pair_occurs r c a b) rk) ck
            else ck in
  mkPivot rk ck
    (map (fun a =>
            map (fun b => mean_of (numeric (select (pair_mask r c a b)
                                                   (s_values t)))) ck) rk).

Definition pivot_mean (df : DataFrame) (r c t : string) : result Pivot :=
  rs <- getitem df r ;;
  cs <- getitem df c ;;
  ts <- getitem df t ;;
  ret (pivot_mean_obs observed_default rs cs ts).

Fixpoint finite (xs : list float) : list Q :=
  match xs with
  | [] => []
  | Fin q :: xs' => q :: finite xs'
  | _ :: xs' => finite xs'
  end.

(** [pivot.max().max()] and [pivot.min().min()]: NaN cells are skipped. *)
Definition pivot_max (p : Pivot) : float := max_of (finite (concat (p_data p))).
Definition pivot_min (p : Pivot) : float := min_of (finite (concat (p_data p))).

(** [pivot.stack()]: the non-NaN cells, row by row, under their
    (row, column) labels. *)
Definition stack (p : Pivot) : list ((string * string) * Q) :=
  concat
    (map (fun rd =>
            concat
              (map (fun cd =>
                      match snd cd with
                      | Fin q => [((fst rd, fst cd), q)]
                      | _ => []
                      end)
                   (combine (p_columns p) (snd rd))))
         (combine (p_index p) (p_data p))).

(** [idxmax()] / [idxmin()]: the label of the first extremum; pandas raises
    [ValueError] on an empty series. *)
Definition idx_first {K} (better : Q -> Q -> bool) (s : list (K * Q))
    (msg : string) : result K :=
  match s with
  | [] => raise (ValueError msg)
  | x :: s' =>
      ret (fst (fold_left (fun m y => if better (snd y) (snd m) then y else m)
                          s' x))
  end.

Definition idxmax {K} (s : list (K * Q)) : result K :=
  idx_first (fun y m => Qltb m y) s "attempt to get argmax of an empty sequence".

Definition idxmin {K} (s : list (K * Q)) : result K :=
  idx_first (fun y m => Qltb y m) s "attempt to get argmin of an empty sequence".

(** ** pd.crosstab([a, b], c, normalize='index')

    One row per pair of values of [a] and [b] that occurs, one column per
    value of [c] that occurs, both sorted; a cell is the share of the row's
    records that have the column's value. *)

Record Crosstab : Type := mkCrosstab {
  ct_index : list (string * string);
  ct_columns : list value;
  ct_data : list (list float) }.

Definition crosstab_norm_index (a b c : Series) : Crosstab :=
  let ak := group_keys true a in
  let bk := group_keys true b in
  let idx := filter (fun k => pair_occurs a b (fst k) (snd k))
                    (list_prod ak bk) in
  let cols := sort_by value_leb (uniques (s_values c)) in
  mkCrosstab idx cols
    (map (fun k =>
            let cs := select (pair_mask a b (fst k) (snd k)) (s_values c) in
            let total := length (filter (fun v => negb (isna v)) cs) in
            map (fun v => np_div (of_nat (count_of v cs)) (of_nat total)) cols)
         idx).

(** [cross_tab.loc[(g, c), col]]: the row of the pair, then the cell of
    the column; [KeyError] when either label is absent. *)
Fixpoint ct_row (idx : list (string * string)) (data : list (list float))
    (k : string * string) : result (list float) :=
  match idx, data with
  | k' :: idx', d :: data' =>
      if String.eqb (fst k') (fst k) && String.eqb (snd k') (snd k)
      then ret d else ct_row idx' data' k
  | _, _ => raise (KeyError (fst k ++ ", " ++ snd k)%string)
  end.

Fixpoint ct_cell (cols : list value) (d : list float) (col : Z)
    (name : string) : result float :=
  match cols, d with
  | c :: cols', x :: d' =>
      if value_eqb c (VInt col) then ret x else ct_cell cols' d' col name
  | _, _ => raise (KeyError name)
  end.

Definition ct_loc (t : Crosstab) (k : string * string) (col : Z)
    (name : string) : result float :=
  d <- ct_row (ct_index t) (ct_data t) k ;;
  ct_cell (ct_columns t) d col name.

(** [str.title()] *)
Definition is_lower (c : ascii) : bool :=
  (97 <=? nat_of_ascii c)%nat && (nat_of_ascii c <=? 122)%nat.
Definition is_upper (c : ascii) : bool :=
  (65 <=? nat_of_ascii c)%nat && (nat_of_ascii c <=? 90)%nat.
Definition upper (c : ascii) : ascii :=
  if is_lower c then ascii_of_nat (nat_of_ascii c - 32) else c.
Definition lower (c : ascii) : ascii :=
  if is_upper c then ascii_of_nat (nat_of_ascii c + 32) else c.

Fixpoint title_from (in_word : bool) (s : string) : string :=
  match s with
  | EmptyString => EmptyString
  | String c s' =>
      let letter := is_lower c || is_upper c in
      String (if in_word then lower c else upper c) (title_from letter s')
  end.

Definition title (s : string) : string := title_from false s.

(** ** The response: figure, description, statistics

    An f-string is the list of its fragments: literal text and values with
    their format specification.  The constant [style] dictionaries of the
    HTML components are not part of the model. *)

Inductive frag : Type :=
| Lit (s : string)
| FStr (s : string)
| FInt (spec : string) (n : Z)
| FFloat (spec : string) (x : float)
| FPearson (spec : string) (r : pearson).

Definition text : Type := list frag.

Inductive Html : Type :=
| H4 (t : text)
| H5 (t : text)
| P (t : text)
| Br
| Div (children : list Html)
| Table (head : list string) (body : list (list text)).

Inductive Trace : Type :=
| Bar (name : option string) (x : list string) (y : list float)
      (text_ : list text) (marker_color : list string)
| Histogram (x : Series) (name : string) (marker_color : string)
| Scatter (x y : Series) (name : string) (marker_color : string)
| Pie (values_ : list nat) (labels : list value)
| PxHistogram (x : Series) (nbins : nat) (colors : list string)
| PxBox (x y color : Series) (colors : list string)
| PxViolin (x y color : Series) (colors : list string)
| PxScatter (x y color : Series) (color_map : list (Z * string))
            (hover_data : list Series)
| PxImshow (z : Pivot) (text_auto : string).

(** A figure: its traces, each with its subplot cell if any, and the layout
    entries the callback sets. *)
Record Figure : Type := mkFigure {
  data : list (Trace * option (nat * nat));
  title_text : string;
  xaxis_title : option string;
  yaxis_title : option string;
  vline : option (float * text);
  subplot_titles : list string }.

Definition Triple : Type := (Figure * Html * Html)%type.

(** plotly express reads its columns from the frame by name and rejects a
    name that is not a column. *)
Definition px_col (df : DataFrame) (name : string) : result Series :=
  match lookup df name with
  | Some s => ret s
  | None => raise (ValueError name)
  end.

(** [x / n * 100] on Python integers *)
Definition percent_of (x n : nat) : result float :=
  r <- py_div (Z.of_nat x) (Z.of_nat n) ;;
  ret (np_mul r (Fin 100)).

Definition pct (x : float) : text := [FFloat ".1%" x].

(** ** The process state and the callback monad

    The module keeps one global, the frame [df], assigned once at import
    time.  The callback is code that may raise and that runs against the
    globals: a computation takes the globals and returns its outcome with
    the globals it leaves behind.  [global_df] is a read of the name [df];
    [assign_df] is the assignment [df = ...]. *)

Record Globals : Type := mkGlobals { g_df : DataFrame }.

Definition M (A : Type) : Type := Globals -> result A * Globals.

Definition mret {A} (a : A) : M A := fun g => (inr a, g).

Definition lift {A} (r : result A) : M A := fun g => (r, g).

Definition mbind {A B} (m : M A) (k : A -> M B) : M B :=
  fun g =>
    match m g with
    | (inr a, g') => k a g'
    | (inl e, g') => (inl e, g')
    end.

Definition global_df : M DataFrame := fun g => (inr (g_df g), g).

Definition assign_df (df : DataFrame) : M unit :=
  fun _ => (inr tt, mkGlobals df).

Declare Scope py_scope.
Delimit Scope py_scope with py.

Notation "x <- m ;; k" := (mbind m%py (fun x => k%py))
  (at level 61, m at next level, right associativity) : py_scope.
Notation "' pat <- m ;; k" :=
  (mbind m%py (fun x => match x with pat => k%py end))
  (at level 61, pat pattern, m at next level, right associativity) : py_scope.

Fixpoint mapM {A B} (f : A -> M B) (l : list A) : M (list B) :=
  match l with
  | [] => mret []
  | a :: l' =>
      (b <- f a ;;
       bs <- mapM f l' ;;
       mret (b :: bs))%py
  end.

(** [df = load_and_prepare_data()], the statement that runs at import. *)
Definition startup (raw : DataFrame) : M unit :=
  (df <- lift (load_and_prepare_data raw) ;;
   assign_df df)%py.

(** The expressions over the global frame that the callback is made of. *)

(** [df[name]] *)
Definition df_col (name : string) : M Series :=
  (df <- global_df ;; lift (getitem df name))%py.

(** [len(df)] *)
Definition len_df : M nat :=
  (df <- global_df ;; mret (len df))%py.

(** [df[mask]] *)
Definition df_where (m : mask) : M DataFrame :=
  (df <- global_df ;; mret (rows df m))%py.

(** [df[mask][name]] *)
Definition df_where_col (m : mask) (name : string) : M Series :=
  (sel <- df_where m ;; lift (getitem sel name))%py.

(** [df[mask][name].mean()] *)
Definition mean_where (m : mask) (name : string) : M float :=
  (s <- df_where_col m name ;; mret (mean s))%py.

(** [len(df[mask])] *)
Definition len_where (m : mask) : M nat :=
  (sel <- df_where m ;; mret (len sel))%py.

(** [df.groupby(by)[target]] followed by an aggregation *)
Definition df_groupby {V} (f : list value -> V) (by_ target : string)
    : M (list (string * V)) :=
  (df <- global_df ;; lift (groupby_apply f df by_ target))%py.

(** [df.groupby(by).size()] *)
Definition df_groupby_size (by_ : string) : M (list (string * nat)) :=
  (df <- global_df ;; lift (groupby_size df by_))%py.

(** ** The ten insights *)

Definition insight_options : list (string * string) :=
  [ ("1. Overall Survival Pattern - 549 Died vs 342 Survived", "survival_counts");
    ("2. Age Demographics - Most Passengers Were Young Adults", "age_distribution");
    ("3. Economic Class Structure - Fare Distribution by Class", "fare_by_class");
    ("4. Age vs Fare Relationship - Survivors Had Higher Fares", "age_vs_fare");
    ("5. Class-Based Survival Inequality - First Class 62.9%, Third Class 24.2%", "survival_by_class");
    ("6. Age Distribution by Class - First Class Passengers Were Older", "age_by_class");
    ("7. Age Group & Class Intersection - Combined Effect on Survival", "age_class_heatmap");
    ("8. Gender Survival Disparity - Women 74.2%, Men 18.9%", "gender_survival");
    ("9. Multi-Factor Analysis - All Factors Combined", "multi_factor");
    ("10. Data Overview - Summary Statistics", "data_overview") ].

(** Insight 1: Overall Survival Pattern *)
Definition survival_counts_insight : M Triple :=
  (survived <- df_col "survived" ;;
   let survival_counts := value_counts survived in
   let fig :=
     mkFigure
       [(Bar None ["Died"; "Survived"]
             (map of_nat (values survival_counts))
             (map (fun n => [FInt "" (Z.of_nat n)]) (values survival_counts))
             ["#e74c3c"; "#27ae60"], None)]
       "Overall Survival Counts" (Some "Outcome") (Some "Number of Passengers")
       None [] in
   n <- len_df ;;
   died <- lift (iloc survival_counts 0 "0") ;;
   lived <- lift (iloc survival_counts 1 "1") ;;
   n' <- len_df ;;
   let description :=
     Div [ H4 [Lit "The Devastating Reality"];
           P [Lit "Out of "; FInt "" (Z.of_nat n); Lit " passengers aboard the Titanic, "; FInt "" (Z.of_nat died); Lit " perished while only "; FInt "" (Z.of_nat lived); Lit " survived, representing a devastating "; FFloat ".1f" (np_mul (np_div (of_nat died) (of_nat n')) (Fin 100)); Lit "% mortality rate. This stark visualization reveals the catastrophic nature of one of history's most tragic maritime disasters."] ] in
   n1 <- len_df ;;
   let mortality_rate := np_mul (np_div (of_nat died) (of_nat n1)) (Fin 100) in
   n2 <- len_df ;;
   let survival_rate := np_mul (np_div (of_nat lived) (of_nat n2)) (Fin 100) in
   n3 <- len_df ;;
   n4 <- len_df ;;
   let stats :=
     Div [ P [Lit "üìä Total Passengers: "; FInt "," (Z.of_nat n3)];
           P [Lit "üíÄ Deaths: "; FInt "," (Z.of_nat died); Lit " ("; FFloat ".1f" (mortality_rate); Lit "%)"];
           P [Lit "‚úÖ Survivors: "; FInt "," (Z.of_nat lived); Lit " ("; FFloat ".1f" (survival_rate); Lit "%)"];
           P [Lit "üìà Odds of Survival: 1 in "; FFloat ".1f" (np_div (of_nat n4) (of_nat lived))] ] in
   mret (fig, description, stats))%py.

(** Insight 2: Age Demographics *)
Definition age_distribution_insight : M Triple :=
  (df <- global_df ;;
   x <- lift (px_col df "age") ;;
   line_x <- df_col "age" ;;
   line_text <- df_col "age" ;;
   let fig :=
     mkFigure [(PxHistogram x 25 ["#3498db"], None)]
       "Age Distribution of Titanic Passengers"
       (Some "Age (years)") (Some "Number of Passengers")
       (Some (mean line_x, [Lit "Mean: "; FFloat ".1f" (mean line_text); Lit " years"])) [] in
   let description := Div [ H4 [Lit "Young Adult Majority"]; P [Lit "The age distribution reveals that the majority of Titanic passengers were young adults in their 20s and 30s. This demographic likely consisted of immigrants seeking new opportunities in America, young professionals on business trips, and newlyweds on their honeymoon voyages. The relatively few elderly passengers reflects the physical demands and costs of transatlantic travel in 1912."] ] in
   a1 <- df_col "age" ;;
   a2 <- df_col "age" ;;
   a3 <- df_col "age" ;;
   a4 <- df_col "age" ;;
   a5 <- df_col "age" ;;
   let age_stats :=
     mkStats5 (mean a1) (median a2) (smin a3) (smax a4)
              (std_of (numeric (s_values a5))) in
   lo <- df_col "age" ;;
   hi <- df_col "age" ;;
   young_adults <- len_where (mand (ge lo 20) (lt hi 40)) ;;
   age <- df_col "age" ;;
   children <- len_where (lt age 18) ;;
   n <- len_df ;;
   children_pct <- lift (percent_of children n) ;;
   n' <- len_df ;;
   young_pct <- lift (percent_of young_adults n') ;;
   let stats :=
     Div [ P [Lit "üìä Average Age: "; FFloat ".1f" (st_mean age_stats); Lit " years"];
           P [Lit "üìä Median Age: "; FFloat ".1f" (st_median age_stats); Lit " years"];
           P [Lit "üë∂ Children (<18): "; FInt "" (Z.of_nat children); Lit " ("; FFloat ".1f" (children_pct); Lit "%)"];
           P [Lit "üë®‚Äçüíº Young Adults (20-40): "; FInt "" (Z.of_nat young_adults); Lit " ("; FFloat ".1f" (young_pct); Lit "%)"];
           P [Lit "üìà Age Range: "; FFloat ".0f" (st_min age_stats); Lit " - "; FFloat ".0f" (st_max age_stats); Lit " years"] ] in
   mret (fig, description, stats))%py.

(** Insight 3: Economic Class Structure *)
Definition fare_by_class_insight : M Triple :=
  (df <- global_df ;;
   x <- lift (px_col df "class") ;;
   y <- lift (px_col df "fare") ;;
   let fig :=
     mkFigure [(PxBox x y x ["#8b4513"; "#ff8c00"; "#32cd32"], None)]
       "Fare Distribution by Passenger Class" None None None [] in
   let description := Div [ H4 [Lit "Economic Stratification"]; P [Lit "The fare distribution reveals extreme economic inequality aboard the Titanic. First-class passengers paid premium prices for luxury accommodations, with some paying over $500 (equivalent to $13,000+ today). Meanwhile, third-class passengers paid modest fares under $50 for basic accommodations. This economic divide would prove tragically consequential for survival outcomes."] ] in
   class_fare_stats <- df_groupby stats5 "class" "fare" ;;
   first <- lift (loc class_fare_stats "First") ;;
   second <- lift (loc class_fare_stats "Second") ;;
   third <- lift (loc class_fare_stats "Third") ;;
   let stats :=
     Div [ P [Lit "üí∞ First Class:"];
           P [Lit "  Average: $"; FFloat ".2f" (st_mean first)];
           P [Lit "  Max: $"; FFloat ".2f" (st_max first)];
           P [Lit "üí∞ Second Class:"];
           P [Lit "  Average: $"; FFloat ".2f" (st_mean second)];
           P [Lit "üí∞ Third Class:"];
           P [Lit "  Average: $"; FFloat ".2f" (st_mean third)];
           P [Lit "üìä Price Ratio (1st:3rd): "; FFloat ".1f" (np_div (st_mean first) (st_mean third)); Lit ":1"] ] in
   mret (fig, description, stats))%py.

(** Insight 4: Age vs Fare Relationship *)
Definition age_vs_fare_insight : M Triple :=
  (let color_map := [(0%Z, "#e74c3c"); (1%Z, "#27ae60")] in
   df <- global_df ;;
   x <- lift (px_col df "age") ;;
   y <- lift (px_col df "fare") ;;
   color <- lift (px_col df "survived") ;;
   h1 <- lift (px_col df "class") ;;
   h2 <- lift (px_col df "sex") ;;
   let fig :=
     mkFigure [(PxScatter x y color color_map [h1; h2], None)]
       "Age vs Fare by Survival Status" None None None [] in
   let description := Div [ H4 [Lit "Wealth and Survival Connection"]; P [Lit "This scatter plot reveals a crucial pattern: green dots (survivors) are more concentrated in higher fare regions, demonstrating that wealth significantly increased survival chances. Young passengers who paid higher fares had particularly favorable survival odds, suggesting that both economic status and age influenced access to lifeboats during the disaster."] ] in
   fare <- df_col "fare" ;;
   let fare_median := median fare in
   f1 <- df_col "fare" ;;
   high_fare_survival <- mean_where (gt_f f1 fare_median) "survived" ;;
   f2 <- df_col "fare" ;;
   low_fare_survival <- mean_where (le_f f2 fare_median) "survived" ;;
   a3 <- df_col "age" ;;
   f3 <- df_col "fare" ;;
   young_high_fare <-
     mean_where (mand (lt a3 40) (gt_f f3 fare_median)) "survived" ;;
   a4 <- df_col "age" ;;
   f4 <- df_col "fare" ;;
   old_low_fare <-
     mean_where (mand (ge a4 40) (le_f f4 fare_median)) "survived" ;;
   let stats :=
     Div [ P [Lit "üí∞ High Fare (>$"; FFloat ".2f" (fare_median); Lit "+): "; FFloat ".1%" (high_fare_survival); Lit " survived"];
           P [Lit "üí∏ Low Fare (‚â§$"; FFloat ".2f" (fare_median); Lit "): "; FFloat ".1%" (low_fare_survival); Lit " survived"];
           P [Lit "üìä Wealth Advantage: "; FFloat ".1%" (np_sub high_fare_survival low_fare_survival); Lit " better survival"];
           P [Lit "üéØ Young + Wealthy: "; FFloat ".1%" (young_high_fare); Lit " survived"];
           P [Lit "‚ö†Ô∏è Old + Poor: "; FFloat ".1%" (old_low_fare); Lit " survived"] ] in
   mret (fig, description, stats))%py.

(** Insight 5: Class-Based Survival Inequality *)
Definition survival_by_class_insight : M Triple :=
  (class_survival <- df_groupby agg_mean "class" "survived" ;;
   let fig :=
     mkFigure
       [(Bar None (index class_survival) (values class_survival)
             (map pct (values class_survival))
             ["#8b4513"; "#ff8c00"; "#32cd32"], None)]
       "Survival Rate by Passenger Class"
       (Some "Passenger Class") (Some "Survival Rate") None [] in
   let description := Div [ H4 [Lit "Class-Based Life and Death"]; P [Lit "This chart exposes the stark inequality in survival outcomes. First-class passengers enjoyed 2.6 times better survival odds than third-class passengers. The 'women and children first' protocol was applied differently across classes - proximity to lifeboats, crew assistance, and knowledge of the ship's layout all favored the wealthy. Social hierarchy literally determined who lived or died during the disaster."] ] in
   class_counts <- df_groupby_size "class" ;;
   class_survivors <- df_groupby agg_sum "class" "survived" ;;
   let line (k : string) : result (Z * nat * float) :=
     (s <- loc class_survivors k ;;
      c <- loc class_counts k ;;
      r <- loc class_survival k ;;
      ret (s, c, r))%res in
   '(s1, c1, r1) <- lift (line "First") ;;
   '(s2, c2, r2) <- lift (line "Second") ;;
   '(s3, c3, r3) <- lift (line "Third") ;;
   let stats :=
     Div [ P [Lit "ü•á First Class:"];
           P [Lit "  "; FInt "" (s1); Lit "/"; FInt "" (Z.of_nat c1); Lit " survived ("; FFloat ".1%" (r1); Lit ")"];
           P [Lit "ü•à Second Class:"];
           P [Lit "  "; FInt "" (s2); Lit "/"; FInt "" (Z.of_nat c2); Lit " survived ("; FFloat ".1%" (r2); Lit ")"];
           P [Lit "ü•â Third Class:"];
           P [Lit "  "; FInt "" (s3); Lit "/"; FInt "" (Z.of_nat c3); Lit " survived ("; FFloat ".1%" (r3); Lit ")"];
           P [Lit "üìä Class Advantage: "; FFloat ".1%" (np_sub r1 r3); Lit " gap between 1st & 3rd"] ] in
   mret (fig, description, stats))%py.

(** Insight 6: Age Distribution by Class *)
Definition age_by_class_insight : M Triple :=
  (df <- global_df ;;
   x <- lift (px_col df "class") ;;
   y <- lift (px_col df "age") ;;
   let fig :=
     mkFigure [(PxViolin x y x ["#8b4513"; "#ff8c00"; "#32cd32"], None)]
       "Age Distribution by Passenger Class" None None None [] in
   let description := Div [ H4 [Lit "Age and Economic Status"]; P [Lit "The violin plots reveal distinct age patterns across passenger classes. First-class passengers were generally older, established individuals with accumulated wealth. Third-class passengers skewed younger, likely comprising immigrants, young workers, and families seeking new opportunities in America. This age-wealth correlation reflects the socioeconomic realities of early 20th-century society."] ] in
   age_by_class <- df_groupby stats3 "class" "age" ;;
   first <- lift (loc age_by_class "First") ;;
   second <- lift (loc age_by_class "Second") ;;
   third <- lift (loc age_by_class "Third") ;;
   let stats :=
     Div [ P [Lit "üëî First Class:"];
           P [Lit "  Average: "; FFloat ".1f" (s3_mean first); Lit " years"];
           P [Lit "üë®‚Äçüíº Second Class:"];
           P [Lit "  Average: "; FFloat ".1f" (s3_mean second); Lit " years"];
           P [Lit "üë∑ Third Class:"];
           P [Lit "  Average: "; FFloat ".1f" (s3_mean third); Lit " years"];
           P [Lit "üìä Age Gap: "; FFloat ".1f" (np_sub (s3_mean first) (s3_mean third)); Lit " years between 1st & 3rd class"] ] in
   mret (fig, description, stats))%py.

(** Insight 7: Age Group & Class Intersection *)
Definition age_class_heatmap_insight : M Triple :=
  (df <- global_df ;;
   pivot_table <- lift (pivot_mean df "age_grouped" "class" "survived") ;;
   let fig :=
     mkFigure [(PxImshow pivot_table ".2f", None)]
       "Survival Rate Heatmap: Age Group vs Class" None None None [] in
   let description := Div [ H4 [Lit "Double Advantage Effect"]; P [Lit "This heatmap reveals how age and class factors combined to determine survival outcomes. The brightest green cells show that being both young AND wealthy provided the ultimate advantage. First-class children had the highest survival rates, while third-class middle-aged adults faced the worst odds. The intersection of multiple demographic factors created a complex hierarchy of survival chances."] ] in
   let best_combo_rate := pivot_max pivot_table in
   let worst_combo_rate := pivot_min pivot_table in
   best_combo_idx <- lift (idxmax (stack pivot_table)) ;;
   worst_combo_idx <- lift (idxmin (stack pivot_table)) ;;
   let stats :=
     Div [ P [Lit "üèÜ Best Survival Rate: "; FFloat ".1%" (best_combo_rate)];
           P [Lit "   ("; FStr (fst best_combo_idx); Lit " in "; FStr (snd best_combo_idx); Lit " Class)"];
           P [Lit "üíÄ Worst Survival Rate: "; FFloat ".1%" (worst_combo_rate)];
           P [Lit "   ("; FStr (fst worst_combo_idx); Lit " in "; FStr (snd worst_combo_idx); Lit " Class)"];
           P [Lit "üìä Maximum Advantage Gap: "; FFloat ".1%" (np_sub best_combo_rate worst_combo_rate)] ] in
   mret (fig, description, stats))%py.

(** Insight 8: Gender Survival Disparity *)
Definition gender_survival_insight : M Triple :=
  (gender_survival <- df_groupby agg_mean "sex" "survived" ;;
   let fig :=
     mkFigure
       [(Bar None ["Female"; "Male"] (values gender_survival)
             (map pct (values gender_survival))
             ["#e91e63"; "#2196f3"], None)]
       "Survival Rate by Gender" (Some "Gender") (Some "Survival Rate")
       None [] in
   let description := Div [ H4 [Lit "Women and Children First"]; P [Lit "The maritime protocol 'women and children first' was dramatically evident in the Titanic's survival statistics. Women had nearly 4 times better survival odds than men, reflecting the social chivalric codes of 1912. This gender disparity was enforced by crew members and male passengers who prioritized saving women and children, often at the cost of their own lives."] ] in
   gender_counts <- df_groupby_size "sex" ;;
   gender_survivors <- df_groupby agg_sum "sex" "survived" ;;
   let line (k : string) : result (Z * nat * float) :=
     (s <- loc gender_survivors k ;;
      c <- loc gender_counts k ;;
      r <- loc gender_survival k ;;
      ret (s, c, r))%res in
   '(sf, cf, rf) <- lift (line "female") ;;
   '(sm, cm, rm) <- lift (line "male") ;;
   let stats :=
     Div [ P [Lit "üë© Women:"];
           P [Lit "  "; FInt "" (sf); Lit "/"; FInt "" (Z.of_nat cf); Lit " survived ("; FFloat ".1%" (rf); Lit ")"];
           P [Lit "üë® Men:"];
           P [Lit "  "; FInt "" (sm); Lit "/"; FInt "" (Z.of_nat cm); Lit " survived ("; FFloat ".1%" (rm); Lit ")"];
           P [Lit "üìä Gender Advantage: "; FFloat ".1f" (np_div rf rm); Lit "x more likely (women)"];
           P [Lit "üìà Absolute Difference: "; FFloat ".1%" (np_sub rf rm)] ] in
   mret (fig, description, stats))%py.

(** Insight 9: Multi-Factor Analysis.  The four sub-plots of the figure,
    in the order the callback builds them. *)

Definition subplot : Type := (Trace * option (nat * nat))%type.

(** The types of a cell of a subplot grid that matter here: an 'xy' cell
    holds the traces drawn against an x and a y axis, a 'domain' cell
    those that fill a rectangle. *)
Inductive subplot_type : Type := xy | domain.

Definition subplot_type_name (t : subplot_type) : string :=
  match t with xy => "xy" | domain => "domain" end.

(** [make_subplots(rows=2, cols=2, specs=[[{"secondary_y": False}, ...],
    ...])]: no entry of [specs] names a type, and the type of a cell
    defaults to 'xy'. *)
Definition multi_factor_specs : list (list subplot_type) :=
  [ [xy; xy]; [xy; xy] ].

(** The properties by which [add_trace] attaches a trace to a cell. *)
Definition trace_kwargs (t : subplot_type) : list string :=
  match t with
  | xy => ["xaxis"; "yaxis"]
  | domain => ["domain"]
  end.

Definition trace_type (t : Trace) : string :=
  match t with
  | Bar _ _ _ _ _ => "bar"
  | Histogram _ _ _ | PxHistogram _ _ _ => "histogram"
  | Scatter _ _ _ _ | PxScatter _ _ _ _ _ => "scatter"
  | Pie _ _ => "pie"
  | PxBox _ _ _ _ => "box"
  | PxViolin _ _ _ _ => "violin"
  | PxImshow _ _ => "heatmap"
  end.

(** Whether a trace has the property [k]: a pie has a [domain] and no
    axes, the other traces have the two axes. *)
Definition trace_has (t : Trace) (k : string) : bool :=
  match t with
  | Pie _ _ => String.eqb k "domain"
  | _ => String.eqb k "xaxis" || String.eqb k "yaxis"
  end.

Definition newline : string := String "010" EmptyString.

Definition str (n : nat) : string := NilEmpty.string_of_uint (Nat.to_uint n).

Definition incompatible_trace (typ subplot_type_ : string) (row col : nat)
    : string :=
  "Trace type '" ++ typ ++ "' is not compatible with subplot type '"
    ++ subplot_type_ ++ "'" ++ newline
    ++ "at grid position (" ++ str row ++ ", " ++ str col ++ ")" ++ newline
    ++ newline
    ++ "See the docstring for the specs argument to plotly.subplots.make_subplots"
    ++ newline
    ++ "for more information on subplot types".

(** [fig.add_trace(trace, row=row, col=col)] on a figure made by
    [make_subplots]: the cell is looked up in the grid, and a trace that
    lacks a property the cell sets is rejected. *)
Definition add_trace (specs : list (list subplot_type)) (t : Trace)
    (row col : nat) : result subplot :=
  match row, col with
  | S r, S c =>
      match nth_error specs r with
      | Some cells =>
          match nth_error cells c with
          | Some cell =>
              if forallb (trace_has t) (trace_kwargs cell)
              then ret (t, Some (row, col))
              else raise (ValueError (incompatible_trace
                            (trace_type t) (subplot_type_name cell) row col))
          | None =>
              raise (Exception "The (row, col) pair sent is out of range. Use Figure.print_grid to view the subplot grid. ")
          end
      | None =>
          raise (Exception "The (row, col) pair sent is out of range. Use Figure.print_grid to view the subplot grid. ")
      end
  | O, _ =>
      raise (Exception "Row value is out of range. Note: the starting cell is (1, 1)")
  | _, O =>
      raise (Exception "Col value is out of range. Note: the starting cell is (1, 1)")
  end.

(** Plot 1: Survival by gender and class *)
Definition multi_factor_plot1 : M (list subplot) :=
  (sex <- df_col "sex" ;;
   cls <- df_col "class" ;;
   survived <- df_col "survived" ;;
   let cross_tab := crosstab_norm_index sex cls survived in
   mapM (fun k =>
           let '(gender, class_name) := k in
           y <- lift (ct_loc cross_tab (gender, class_name) 1 "1") ;;
           let name := (title gender ++ " " ++ class_name)%string in
           lift (add_trace multi_factor_specs
                   (Bar (Some name) [name] [y] [] []) 1 1))
        (ct_index cross_tab))%py.

(** Plot 2: Age distribution by survival *)
Definition multi_factor_plot2 : M (list subplot) :=
  (s1 <- df_col "survived" ;;
   survivors <- df_where_col (eq s1 (VInt 1)) "age" ;;
   s0 <- df_col "survived" ;;
   non_survivors <- df_where_col (eq s0 (VInt 0)) "age" ;;
   t1 <- lift (add_trace multi_factor_specs
                 (Histogram survivors "Survived" "green") 1 2) ;;
   t2 <- lift (add_trace multi_factor_specs
                 (Histogram non_survivors "Died" "red") 1 2) ;;
   mret [t1; t2])%py.

(** Plot 3: Scatter of fare vs age *)
Definition multi_factor_plot3 : M (list subplot) :=
  (s1 <- df_col "survived" ;;
   x1 <- df_where_col (eq s1 (VInt 1)) "age" ;;
   s2 <- df_col "survived" ;;
   y1 <- df_where_col (eq s2 (VInt 1)) "fare" ;;
   t1 <- lift (add_trace multi_factor_specs
                 (Scatter x1 y1 "Survived" "green") 2 1) ;;
   s3 <- df_col "survived" ;;
   x0 <- df_where_col (eq s3 (VInt 0)) "age" ;;
   s4 <- df_col "survived" ;;
   y0 <- df_where_col (eq s4 (VInt 0)) "fare" ;;
   t2 <- lift (add_trace multi_factor_specs
                 (Scatter x0 y0 "Died" "red") 2 1) ;;
   mret [t1; t2])%py.

(** Plot 4: Class distribution.  The pie goes to the cell (2, 2), an
    'xy' cell as every cell of the grid. *)
Definition multi_factor_plot4 : M (list subplot) :=
  (cls <- df_col "class" ;;
   let class_counts := value_counts cls in
   t <- lift (add_trace multi_factor_specs
                (Pie (values class_counts) (index class_counts)) 2 2) ;;
   mret [t])%py.

Definition multi_factor_insight : M Triple :=
  (plot1 <- multi_factor_plot1 ;;
   plot2 <- multi_factor_plot2 ;;
   plot3 <- multi_factor_plot3 ;;
   plot4 <- multi_factor_plot4 ;;
   let fig :=
     mkFigure (plot1 ++ plot2 ++ plot3 ++ plot4)
       "Multi-Factor Survival Analysis" None None None
       [ "Survival by Gender & Class"; "Age Distribution by Survival";
         "Fare vs Age (by Survival)"; "Class Distribution" ] in
   let description := Div [ H4 [Lit "Comprehensive Analysis"]; P [Lit "This multi-panel view combines all major factors affecting Titanic survival. The interplay between gender, class, age, and fare created a complex hierarchy of survival chances. First-class women had the best odds, while third-class men faced the greatest peril. The disaster revealed how social stratification translated directly into life-or-death outcomes."] ] in
   (* Calculate some complex statistics *)
   c1 <- df_col "class" ;;
   g1 <- df_col "sex" ;;
   first_class_women <-
     df_where (mand (eq c1 (VStr "First")) (eq g1 (VStr "female"))) ;;
   c2 <- df_col "class" ;;
   g2 <- df_col "sex" ;;
   third_class_men <-
     df_where (mand (eq c2 (VStr "Third")) (eq g2 (VStr "male"))) ;;
   fw <- lift (getitem first_class_women "survived") ;;
   let best_group_survival := mean fw in
   tm <- lift (getitem third_class_men "survived") ;;
   let worst_group_survival := mean tm in
   (* Age impact within same class *)
   c3 <- df_col "class" ;;
   a3 <- df_col "age" ;;
   young_first_class <-
     mean_where (mand (eq c3 (VStr "First")) (lt a3 30)) "survived" ;;
   c4 <- df_col "class" ;;
   a4 <- df_col "age" ;;
   old_first_class <-
     mean_where (mand (eq c4 (VStr "First")) (ge a4 50)) "survived" ;;
   let stats :=
     Div [ P [Lit "üëë Best Group (1st Class Women): "; FFloat ".1%" (best_group_survival); Lit " survived"];
           P [Lit "üíÄ Worst Group (3rd Class Men): "; FFloat ".1%" (worst_group_survival); Lit " survived"];
           P [Lit "üìä Maximum Group Gap: "; FFloat ".1%" (np_sub best_group_survival worst_group_survival)];
           P [Lit "üéØ Young 1st Class: "; FFloat ".1%" (young_first_class); Lit " survived"];
           P [Lit "üë¥ Old 1st Class: "; FFloat ".1%" (old_first_class); Lit " survived"];
           P [Lit "üîÑ Age still mattered even in 1st class!"] ] in
   mret (fig, description, stats))%py.

(** Insight 10: Data Overview *)

(** One value of the summary table,
    [f"{len(df[m]):,} ({len(df[m])/len(df)*100:.1f}%)"], for the mask [m]
    computed from the column [name]. *)
Definition share (name : string) (test : Series -> mask) : M text :=
  (s1 <- df_col name ;;
   k <- len_where (test s1) ;;
   s2 <- df_col name ;;
   k' <- len_where (test s2) ;;
   n <- len_df ;;
   p <- lift (percent_of k' n) ;;
   mret [FInt "," (Z.of_nat k); Lit " ("; FFloat ".1f" p; Lit "%)"])%py.

(** [df[df[name] == v]['survived'].mean()] *)
Definition survival_of (name : string) (v : string) : M float :=
  (s <- df_col name ;;
   mean_where (eq s (VStr v)) "survived")%py.

(** [df.groupby(by)['survived'].mean().max() - ... .min()] *)
Definition survival_range (by_ : string) : M float :=
  (hi <- df_groupby agg_mean by_ "survived" ;;
   lo <- df_groupby agg_mean by_ "survived" ;;
   mret (np_sub (max_of (finite (values hi))) (min_of (finite (values lo)))))%py.

Definition data_overview_insight : M Triple :=
  (n <- len_df ;;
   survived <- df_col "survived" ;;
   age <- df_col "age" ;;
   fare <- df_col "fare" ;;
   male <- share "sex" (fun s => eq s (VStr "male")) ;;
   female <- share "sex" (fun s => eq s (VStr "female")) ;;
   first <- share "class" (fun s => eq s (VStr "First")) ;;
   second <- share "class" (fun s => eq s (VStr "Second")) ;;
   third <- share "class" (fun s => eq s (VStr "Third")) ;;
   children <- share "age" (fun s => lt s 18) ;;
   adults <- share "age" (fun s => mand (ge s 18) (lt s 65)) ;;
   seniors <- share "age" (fun s => ge s 65) ;;
   let summary_data : list (string * text) :=
     [ ("Total Passengers", [FInt "," (Z.of_nat n)]);
       ("Survival Rate", pct (mean survived));
       ("Average Age", [FFloat ".1f" (mean age); Lit " years"]);
       ("Average Fare", [Lit "$"; FFloat ".2f" (mean fare)]);
       ("Male Passengers", male);
       ("Female Passengers", female);
       ("First Class", first);
       ("Second Class", second);
       ("Third Class", third);
       ("Children (<18)", children);
       ("Adults (18-64)", adults);
       ("Seniors (65+)", seniors) ] in
   let summary_df := summary_data in
   (* Survival rates by different categories *)
   let categories :=
     ["Overall"; "Male"; "Female"; "First Class"; "Second Class"; "Third Class"] in
   overall <- df_col "survived" ;;
   r_male <- survival_of "sex" "male" ;;
   r_female <- survival_of "sex" "female" ;;
   r_first <- survival_of "class" "First" ;;
   r_second <- survival_of "class" "Second" ;;
   r_third <- survival_of "class" "Third" ;;
   let survival_rates :=
     [mean overall; r_male; r_female; r_first; r_second; r_third] in
   let colors :=
     ["#34495e"; "#2196f3"; "#e91e63"; "#8b4513"; "#ff8c00"; "#32cd32"] in
   let fig :=
     mkFigure
       [(Bar None categories
             (map (fun rate => np_mul rate (Fin 100)) survival_rates)
             (map pct survival_rates) colors, None)]
       "Survival Rates Across Different Categories"
       (Some "Category") (Some "Survival Rate (%)") None [] in
   let description :=
     Div [ H4 [Lit "Dataset Overview"];
           P [Lit "This comprehensive overview presents the key demographic and survival statistics from the Titanic dataset. The data reveals patterns of social inequality, demographic distributions, and survival outcomes that tell the story of one of history's most studied disasters. The stark differences in survival rates across gender, class, and age groups demonstrate how social hierarchies influenced life-and-death outcomes."];
           Br;
           H5 [Lit "Key Dataset Statistics:"];
           Div [ Table ["Metric"; "Value"]
                       (map (fun row => [[Lit (fst row)]; snd row]) summary_df) ] ] in
   (* Advanced insights *)
   cf <- df_col "fare" ;;
   ca <- df_col "age" ;;
   let fare_age_corr := corr cf ca in
   class_survival_range <- survival_range "class" ;;
   gender_survival_range <- survival_range "sex" ;;
   df <- global_df ;;
   let missing := isnull_sum_sum df in
   youngest <- df_col "age" ;;
   oldest <- df_col "age" ;;
   dearest <- df_col "fare" ;;
   f0 <- df_col "fare" ;;
   free <- len_where (eq f0 (VInt 0)) ;;
   let stats :=
     Div [ P [Lit "üîç Advanced Insights:"];
           P [Lit "üìà Age-Fare Correlation: "; FPearson ".3f" (fare_age_corr)];
           P [Lit "üéØ Class Survival Range: "; FFloat ".1%" (class_survival_range)];
           P [Lit "‚ö° Gender Survival Range: "; FFloat ".1%" (gender_survival_range)];
           P [Lit "üí° Missing Data: "; FInt "" (Z.of_nat missing); Lit " total missing values"];
           Br;
           P [Lit "üé™ Fun Facts:"];
           P [Lit "üë∂ Youngest: "; FFloat ".1f" (smin youngest); Lit " years old"];
           P [Lit "üë¥ Oldest: "; FFloat ".1f" (smax oldest); Lit " years old"];
           P [Lit "üí∞ Most Expensive Ticket: $"; FFloat ".2f" (smax dearest)];
           P [Lit "üé´ Free Tickets: "; FInt "" (Z.of_nat free); Lit " passengers"] ] in
   mret (fig, description, stats))%py.

(** ** The callback

    The value of the dropdown is a string, or Python's [None] once the
    selection is cleared.  No branch of the chain is taken for a value
    outside the ten keys, so [fig], [description] and [stats] are unbound
    when the final [return] reads them. *)

Definition pyeq (v : option string) (s : string) : bool :=
  match v with
  | Some k => String.eqb k s
  | None => false
  end.

Definition update_visualization (selected_insight : option string) : M Triple :=
  if pyeq selected_insight "survival_counts" then survival_counts_insight
  else if pyeq selected_insight "age_distribution" then age_distribution_insight
  else if pyeq selected_insight "fare_by_class" then fare_by_class_insight
  else if pyeq selected_insight "age_vs_fare" then age_vs_fare_insight
  else if pyeq selected_insight "survival_by_class" then survival_by_class_insight
  else if pyeq selected_insight "age_by_class" then age_by_class_insight
  else if pyeq selected_insight "age_class_heatmap" then age_class_heatmap_insight
  else if pyeq selected_insight "gender_survival" then gender_survival_insight
  else if pyeq selected_insight "multi_factor" then multi_factor_insight
  else if pyeq selected_insight "data_overview" then data_overview_insight
  else lift (raise (UnboundLocalError "fig")).

(** The server answers the requests it receives one after the other, each
    against the globals the one before has left. *)
Fixpoint serve (requests : list (option string)) (g : Globals)
    : list (result Triple) * Globals :=
  match requests with
  | [] => ([], g)
  | key :: requests' =>
      let '(r, g') := update_visualization key g in
      let '(rs, g'') := serve requests' g' in
      (r :: rs, g'')
  end.

(** ** calculate_survival_metrics

    The dictionary the function returns has a fixed set of keys; it is the
    record of its entries, a [to_dict()] being the list of its
    (label, value) pairs. *)

Record Metrics : Type := mkMetrics {
  m_total_passengers : nat;
  m_total_survivors : Z;
  m_survival_rate : float;
  m_class_survival : list (string * float);
  m_class_counts : list (string * nat);
  m_gender_survival : list (string * float);
  m_gender_counts : list (string * nat);
  m_age_group_survival : list (string * float) }.

Definition metrics_age_bins : list Q := [0; 18; 35; 50; 100]%Q.
Definition metrics_age_labels : list string :=
  ["Child"; "Young Adult"; "Middle-aged"; "Senior"].

Definition calculate_survival_metrics (df : DataFrame) : result Metrics :=
  (* Overall metrics *)
  let total_passengers := len df in
  s1 <- getitem df "survived" ;;
  let total_survivors := agg_sum (s_values s1) in
  s2 <- getitem df "survived" ;;
  let survival_rate := mean s2 in
  (* By class *)
  class_survival <- groupby_mean df "class" "survived" ;;
  class_counts <- groupby_size df "class" ;;
  (* By gender *)
  gender_survival <- groupby_mean df "sex" "survived" ;;
  gender_counts <- groupby_size df "sex" ;;
  (* By age groups *)
  age <- getitem df "age" ;;
  let age_groups := cut age metrics_age_bins metrics_age_labels in
  s3 <- getitem df "survived" ;;
  let age_group_survival :=
    map (fun k => (k, agg_mean (group age_groups k s3)))
        (group_keys observed_default age_groups) in
  ret (mkMetrics total_passengers total_survivors survival_rate
                 class_survival class_counts gender_survival gender_counts
                 age_group_survival).

(** The sum of the values of a labelled series of counts. *)
Definition total {K} (s : list (K * nat)) : nat :=
  fold_right Nat.add 0 (values s).

(** ** Reading a response *)

(** The integers a text or an HTML block displays, in reading order. *)
Definition text_ints (t : text) : list Z :=
  concat (map (fun f => match f with FInt _ n => [n] | _ => [] end) t).

(** The floats a text displays, in reading order. *)
Definition text_floats (t : text) : list float :=
  concat (map (fun f => match f with FFloat _ x => [x] | _ => [] end) t).

Fixpoint html_texts (h : Html) : list text :=
  match h with
  | H4 t | H5 t | P t => [t]
  | Br => []
  | Div children => concat (map html_texts children)
  | Table _ body => concat body
  end.

Definition html_ints (h : Html) : list Z := concat (map text_ints (html_texts h)).
Definition html_floats (h : Html) : list float :=
  concat (map text_floats (html_texts h)).

Definition registered_keys : list string := map snd insight_options.

(** ** Sample datasets *)

Definition class_dtype : dtype := category ["First"; "Second"; "Third"].

(** The three records of the design document's scenario, with the columns
    the loader drops. *)
Definition scenario : DataFrame :=
  [ ("survived", mkSeries int64 [VInt 0; VInt 1; VInt 0]);
    ("sex", mkSeries object [VStr "male"; VStr "female"; VStr "male"]);
    ("age", mkSeries float64 [VFloat 30; VFloat 8; VFloat 40]);
    ("fare", mkSeries float64 [VFloat 10; VFloat 50; NA]);
    ("embarked", mkSeries object [VStr "S"; VStr "C"; NA]);
    ("class", mkSeries class_dtype [VStr "Third"; VStr "First"; VStr "Second"]);
    ("deck", mkSeries (category ["A"; "B"; "C"]) [NA; VStr "B"; NA]);
    ("embark_town", mkSeries object [VStr "Southampton"; VStr "Cherbourg"; NA]) ].

(** The same records with the age of the second one unknown. *)
Definition scenario_missing_age : DataFrame :=
  setitem scenario "age" (mkSeries float64 [VFloat 30; NA; VFloat 40]).

(** Two records, nobody survived. *)
Definition no_survivors : DataFrame :=
  [ ("survived", mkSeries int64 [VInt 0; VInt 0]);
    ("sex", mkSeries object [VStr "male"; VStr "female"]);
    ("age", mkSeries float64 [VFloat 30; VFloat 25]);
    ("fare", mkSeries float64 [VFloat 10; VFloat 50]);
    ("class", mkSeries class_dtype [VStr "Third"; VStr "First"]) ].

(** Two records, both survived. *)
Definition all_survived : DataFrame :=
  setitem no_survivors "survived" (mkSeries int64 [VInt 1; VInt 1]).

(** Three records, more survivors than deaths. *)
Definition mostly_survived : DataFrame :=
  [ ("survived", mkSeries int64 [VInt 1; VInt 0; VInt 1]);
    ("sex", mkSeries object [VStr "male"; VStr "female"; VStr "female"]);
    ("age", mkSeries float64 [VFloat 30; VFloat 25; VFloat 61]);
    ("fare", mkSeries float64 [VFloat 10; VFloat 50; VFloat 80]);
    ("class", mkSeries class_dtype [VStr "Third"; VStr "First"; VStr "First"]) ].

(** Three records, none of them in first class. *)
Definition no_first_class : DataFrame :=
  [ ("survived", mkSeries int64 [VInt 1; VInt 0; VInt 1]);
    ("sex", mkSeries object [VStr "male"; VStr "female"; VStr "female"]);
    ("age", mkSeries float64 [VFloat 30; VFloat 25; VFloat 61]);
    ("fare", mkSeries float64 [VFloat 10; VFloat 50; VFloat 80]);
    ("class", mkSeries class_dtype [VStr "Third"; VStr "Second"; VStr "Second"]) ].

(** The result of a computation known to succeed. *)
Definition prepared (raw : DataFrame) : DataFrame :=
  match load_and_prepare_data raw with
  | inr df => df
  | inl _ => []
  end.

(** The bars of a figure: each label with the height drawn over it. *)
Definition bars (fig : Figure) : list (string * float) :=
  concat (map (fun t => match fst t with
                        | Bar _ x y _ _ => combine x y
                        | _ => []
                        end) (data fig)).

(** The two values of the [survived] column. *)
Definition survival_flag (v : value) : Prop := v = VInt 0 \/ v = VInt 1.

(** The interval of a bucket: label [i] stands for (b_i, b_i+1]. *)
Definition bucket (bins : list Q) (labels : list string) (x : Q) (l : string)
    : Prop :=
  exists i lo hi,
    nth_error labels i = Some l /\
    nth_error bins i = Some lo /\ nth_error bins (S i) = Some hi /\
    (lo < x <= hi)%Q.

(** The outcome of a computation started on a frame. *)
Definition run {A} (m : M A) (df : DataFrame) : result A :=
  fst (m (mkGlobals df)).

(** A computation that leaves the globals as it found them, whatever its
    outcome. *)
Definition read_only {A} (m : M A) : Prop := forall g, snd (m g) = g.

(** ** Which exceptions a computation may raise *)

(** The exceptions of a branch that runs: a missing label, a division by
    zero, an empty extremum, a rejected trace; not the unbound local of the
    final [return]. *)
Definition data_error (e : exn) : Prop :=
  match e with
  | UnboundLocalError _ => False
  | _ => True
  end.

Definition fails_on_data {A} (r : result A) : Prop :=
  forall e, r = inl e -> data_error e.

Definition raises_on_data {A} (m : M A) : Prop :=
  forall g, fails_on_data (fst (m g)).

(** A frame of [n] rows: every column has [n] cells. *)
Definition rectangular (n : nat) (df : DataFrame) : Prop :=
  Forall (fun c => length (s_values (snd c)) = n) df.

(** The position of a label among the labels of a categorical. *)
Fixpoint position (labels : list string) (l : string) : option nat :=
  match labels with
  | [] => None
  | l' :: labels' =>
      if String.eqb l' l then Some 0
      else option_map S (position labels' l)
  end.

(** The number of rows a mask selects. *)
Definition count_true (m : mask) : nat := length (filter id m).

(** The two values of the [sex] column. *)
Definition gender_value (v : value) : Prop :=
  v = VStr "female" \/ v = VStr "male".

(** The three values of the [class] column. *)
Definition class_value (v : value) : Prop :=
  v = VStr "First" \/ v = VStr "Second" \/ v = VStr "Third".

(** The interpolated strings a text or an HTML block displays. *)
Definition text_strs (t : text) : list string :=
  concat (map (fun f => match f with FStr s => [s] | _ => [] end) t).

Definition html_strs (h : Html) : list string :=
  concat (map text_strs (html_texts h)).

(** * Properties *)

(** ** Columns of a frame *)

Section Frames.

Implicit Types (df : DataFrame) (n m : string) (s : Series).

Lemma lookup_setitem_eq df n s : lookup (setitem df n s) n = Some s.
Proof.
  induction df as [|[k v] df IH]; simpl.
  - now rewrite String.eqb_refl.
  - destruct (String.eqb k n) eqn:E; simpl; rewrite E; auto.
Qed.

Lemma lookup_setitem_ne df n m s :
  n <> m -> lookup (setitem df n s) m = lookup df m.
Proof.
  intros Hne. induction df as [|[k v] df IH]; simpl.
  - apply String.eqb_neq in Hne. now rewrite Hne.
  - destruct (String.eqb k n) eqn:E; simpl.
    + apply String.eqb_eq in E. subst k.
      apply String.eqb_neq in Hne. now rewrite Hne.
    + now rewrite IH.
Qed.

Lemma setitem_same df n s : lookup df n = Some s -> setitem df n s = df.
Proof.
  induction df as [|[k v] df IH]; simpl; [discriminate|].
  destruct (String.eqb k n) eqn:E.
  - now intros [= ->].
  - intros H. now rewrite IH.
Qed.

Lemma lookup_drop_other names df m :
  existsb (String.eqb m) names = false ->
  lookup (drop names df) m = lookup df m.
Proof.
  intros Hm. induction df as [|[k v] df IH]; simpl; [reflexivity|].
  destruct (existsb (String.eqb k) names) eqn:Ek; simpl.
  - destruct (String.eqb k m) eqn:E; [|exact IH].
    apply String.eqb_eq in E. subst k. congruence.
  - now rewrite IH.
Qed.

Lemma lookup_drop_in names df m :
  existsb (String.eqb m) names = true -> lookup (drop names df) m = None.
Proof.
  intros Hm. induction df as [|[k v] df IH]; simpl; [reflexivity|].
  destruct (existsb (String.eqb k) names) eqn:Ek; simpl; [exact IH|].
  destruct (String.eqb k m) eqn:E; [|exact IH].
  apply String.eqb_eq in E. subst k. congruence.
Qed.

(** Dropping columns a frame does not have changes nothing. *)
Lemma drop_absent names df :
  (forall m, existsb (String.eqb m) names = true -> lookup df m = None) ->
  drop names df = df.
Proof.
  induction df as [|[k v] df IH]; intros H; simpl; [reflexivity|].
  destruct (existsb (String.eqb k) names) eqn:Ek; simpl.
  - specialize (H k Ek). simpl in H. now rewrite String.eqb_refl in H.
  - f_equal. apply IH. intros m Hm. specialize (H m Hm). simpl in H.
    destruct (String.eqb k m); [discriminate|exact H].
Qed.

End Frames.

(** ** Imputation *)

Lemma fillna_no_na s x :
  forallb (fun v => negb (isna v)) (s_values s) = true -> fillna s x = s.
Proof.
  destruct s as [dt vs]. unfold fillna. simpl. intros H.
  destruct x; try reflexivity. f_equal.
  induction vs as [|v vs IH]; simpl in *; [reflexivity|].
  apply andb_true_iff in H as [Hv Hvs]. rewrite IH by assumption.
  destruct v; simpl in *; congruence.
Qed.

Lemma fillna_fin_no_na s q :
  forallb (fun v => negb (isna v)) (s_values (fillna s (Fin q))) = true.
Proof.
  destruct s as [dt vs]. simpl.
  induction vs as [|v vs IH]; simpl; [reflexivity|].
  rewrite IH. now destruct v.
Qed.

(** Cell by cell: a missing cell takes the fill value, any other cell is
    kept. *)
Lemma fillna_cell s x i v :
  nth_error (s_values s) i = Some v ->
  nth_error (s_values (fillna s x)) i =
    Some (match v, x with
          | NA, Fin m => VFloat m
          | _, _ => v
          end).
Proof.
  intros H. destruct x as [m| | |]; simpl;
    try (rewrite H; now destruct v).
  rewrite nth_error_map, H. now destruct v.
Qed.

(** Imputing twice is imputing once, whatever the second fill value. *)
Lemma fillna_mean_idem s :
  let s' := fillna s (mean s) in fillna s' (mean s') = s'.
Proof.
  simpl. destruct (mean s) eqn:E.
  - apply fillna_no_na, fillna_fin_no_na.
  - simpl. now rewrite E.
  - simpl. now rewrite E.
  - simpl. now rewrite E.
Qed.

Lemma load_and_prepare_data_eq raw age fare :
  lookup raw "age" = Some age -> lookup raw "fare" = Some fare ->
  let age' := fillna age (mean age) in
  load_and_prepare_data raw =
  inr (setitem
         (setitem
            (drop ["embark_town"; "embarked"]
                  (setitem (drop ["deck"] raw) "age" age'))
            "age_grouped" (cut age' age_bins age_labels))
         "fare_grouped" (cut fare fare_bins fare_labels)).
Proof.
  intros Ha Hf. unfold load_and_prepare_data, getitem.
  rewrite lookup_drop_other by reflexivity. rewrite Ha. simpl bind.
  rewrite lookup_drop_other by reflexivity.
  rewrite lookup_setitem_eq. simpl bind.
  rewrite lookup_setitem_ne by discriminate.
  rewrite lookup_drop_other by reflexivity.
  rewrite lookup_setitem_ne by discriminate.
  rewrite lookup_drop_other by reflexivity.
  rewrite Hf. reflexivity.
Qed.

Lemma load_and_prepare_data_schema raw d :
  load_and_prepare_data raw = inr d ->
  exists age fare, lookup raw "age" = Some age /\ lookup raw "fare" = Some fare.
Proof.
  unfold load_and_prepare_data, getitem.
  rewrite lookup_drop_other by reflexivity.
  destruct (lookup raw "age") as [age|] eqn:Ha; [|discriminate].
  simpl bind.
  rewrite lookup_drop_other by reflexivity.
  rewrite lookup_setitem_eq. simpl bind.
  rewrite lookup_setitem_ne by discriminate.
  rewrite lookup_drop_other by reflexivity.
  rewrite lookup_setitem_ne by discriminate.
  rewrite lookup_drop_other by reflexivity.
  destruct (lookup raw "fare") as [fare|] eqn:Hf; [|discriminate].
  intros _. eauto.
Qed.

Ltac frame_lookup :=
  repeat first
    [ rewrite lookup_setitem_eq
    | rewrite lookup_setitem_ne by discriminate
    | rewrite lookup_drop_other by reflexivity
    | rewrite lookup_drop_in by reflexivity ].

Ltac dropped_name m H :=
  simpl in H; rewrite ?orb_false_r in H;
  repeat match type of H with
         | (_ || _)%bool = true => apply orb_true_iff in H as [H|H]
         end;
  apply String.eqb_eq in H; subst m.

(** A prepared frame is a fixed point of the preparation. *)
Lemma load_and_prepare_data_fixed raw d :
  load_and_prepare_data raw = inr d -> load_and_prepare_data d = inr d.
Proof.
  intros H.
  destruct (load_and_prepare_data_schema _ _ H) as (age & fare & Ha & Hf).
  rewrite (load_and_prepare_data_eq _ _ _ Ha Hf) in H.
  injection H as H.
  set (age' := fillna age (mean age)) in *.
  assert (Ha' : lookup d "age" = Some age') by (subst d; now frame_lookup).
  assert (Hf' : lookup d "fare" = Some fare) by (subst d; now frame_lookup).
  assert (Hag : lookup d "age_grouped" = Some (cut age' age_bins age_labels))
    by (subst d; now frame_lookup).
  assert (Hfg : lookup d "fare_grouped" = Some (cut fare fare_bins fare_labels))
    by (subst d; now frame_lookup).
  assert (Hdeck : drop ["deck"] d = d).
  { apply drop_absent. intros m Hm. dropped_name m Hm.
    subst d. now frame_lookup. }
  assert (Hemb : drop ["embark_town"; "embarked"] d = d).
  { apply drop_absent. intros m Hm. dropped_name m Hm;
      subst d; now frame_lookup. }
  rewrite (load_and_prepare_data_eq _ _ _ Ha' Hf').
  cbv zeta. subst age'. rewrite fillna_mean_idem.
  rewrite Hdeck, (setitem_same _ _ _ Ha'), Hemb.
  rewrite (setitem_same _ _ _ Hag), (setitem_same _ _ _ Hfg).
  reflexivity.
Qed.

(** C6. Feature derivation is idempotent: for every input dataset,
    preparing the prepared frame again returns it unchanged, column for
    column: no value is imputed a second time and no bucket label moves.
    Running the pass twice is running it once, and on a dataset that has
    an age and a fare column the pass succeeds. *)
Theorem load_and_prepare_data_idempotent (raw : DataFrame) :
  (d <- load_and_prepare_data raw ;; load_and_prepare_data d) =
    load_and_prepare_data raw /\
  (lookup raw "age" <> None -> lookup raw "fare" <> None ->
   exists d, load_and_prepare_data raw = inr d /\
             load_and_prepare_data d = inr d).
Proof.
  split.
  - destruct (load_and_prepare_data raw) as [e|d] eqn:E; [reflexivity|].
    simpl. now apply (load_and_prepare_data_fixed raw).
  - intros Ha Hf.
    destruct (lookup raw "age") as [age|] eqn:Ea; [|contradiction].
    destruct (lookup raw "fare") as [fare|] eqn:Ef; [|contradiction].
    eexists. split.
    + apply (load_and_prepare_data_eq _ _ _ Ea Ef).
    + eapply load_and_prepare_data_fixed.
      apply (load_and_prepare_data_eq _ _ _ Ea Ef).
Qed.

Lemma load_and_prepare_data_idempotent_witness :
  exists d, load_and_prepare_data scenario_missing_age = inr d /\
            load_and_prepare_data d = inr d.
Proof.
  apply (load_and_prepare_data_idempotent scenario_missing_age);
    vm_compute; discriminate.
Defined.

(** C3 (as amended). Data preparation imputes the age column only: every
    missing age becomes the arithmetic mean of the known ages, every known
    age is kept, and the age groups are cut from the imputed column; the
    fare column is kept as loaded, so a missing fare stays missing, and
    its fare group is missing too. *)
Theorem load_and_prepare_data_imputes_age_only (raw d : DataFrame) :
  load_and_prepare_data raw = inr d ->
  exists age age' fare,
    lookup raw "age" = Some age /\ lookup raw "fare" = Some fare /\
    lookup d "age" = Some age' /\
    (forall i v,
        nth_error (s_values age) i = Some v ->
        nth_error (s_values age') i =
          Some (match v, mean_of (numeric (s_values age)) with
                | NA, Fin m => VFloat m
                | _, _ => v
                end)) /\
    lookup d "age_grouped" = Some (cut age' age_bins age_labels) /\
    lookup d "fare" = Some fare /\
    lookup d "fare_grouped" = Some (cut fare fare_bins fare_labels).
Proof.
  intros H.
  destruct (load_and_prepare_data_schema _ _ H) as (age & fare & Ha & Hf).
  rewrite (load_and_prepare_data_eq _ _ _ Ha Hf) in H.
  injection H as H.
  exists age, (fillna age (mean age)), fare. subst d.
  split; [assumption|]. split; [assumption|].
  split; [now frame_lookup|].
  split; [intros i v Hv; now apply fillna_cell|].
  split; [now frame_lookup|]. split; now frame_lookup.
Qed.

Lemma load_and_prepare_data_imputes_age_only_witness :
  exists age age' fare,
    lookup scenario_missing_age "age" = Some age /\
    lookup scenario_missing_age "fare" = Some fare /\
    lookup (prepared scenario_missing_age) "age" = Some age' /\
    (forall i v,
        nth_error (s_values age) i = Some v ->
        nth_error (s_values age') i =
          Some (match v, mean_of (numeric (s_values age)) with
                | NA, Fin m => VFloat m
                | _, _ => v
                end)) /\
    lookup (prepared scenario_missing_age) "age_grouped" =
      Some (cut age' age_bins age_labels) /\
    lookup (prepared scenario_missing_age) "fare" = Some fare /\
    lookup (prepared scenario_missing_age) "fare_grouped" =
      Some (cut fare fare_bins fare_labels).
Proof.
  apply (load_and_prepare_data_imputes_age_only scenario_missing_age).
  reflexivity.
Defined.

(** C3, the claim as stated, fails on the scenario of the design document:
    the mean of the two known fares is 30, yet the third fare is still
    missing after preparation. *)
Lemma scenario_fare_stays_missing :
  mean_of [10; 50]%Q = Fin 30 /\
  (d <- load_and_prepare_data scenario ;;
   fare <- getitem d "fare" ;;
   ret (s_values fare)) = inr [VFloat 10; VFloat 50; NA].
Proof.
  split; reflexivity.
Qed.

Example scenario_missing_age_imputed :
  (d <- load_and_prepare_data scenario_missing_age ;;
   age <- getitem d "age" ;;
   ret (s_values age)) = inr [VFloat 30; VFloat 35; VFloat 40].
Proof. reflexivity. Qed.

(** ** Bucketing *)

Lemma Qltb_lt a b : Qltb a b = true <-> (a < b)%Q.
Proof.
  unfold Qltb. rewrite Qlt_alt. destruct (a ?= b)%Q; split; congruence.
Qed.

Lemma Qltb_ge a b : Qltb a b = false <-> (b <= a)%Q.
Proof.
  unfold Qltb. rewrite Qle_alt.
  rewrite <- (Qcompare_antisym a b).
  destruct (a ?= b)%Q; simpl; split; congruence.
Qed.

Lemma searchsorted_left_all_ge bins x :
  Forall (fun b => (x <= b)%Q) bins -> searchsorted_left bins x = 0.
Proof.
  unfold searchsorted_left. induction 1 as [|b bins Hb _ IH]; simpl; auto.
  apply Qltb_ge in Hb. now rewrite Hb.
Qed.

Lemma searchsorted_left_all_lt bins x :
  Forall (fun b => (b < x)%Q) bins -> searchsorted_left bins x = length bins.
Proof.
  unfold searchsorted_left. induction 1 as [|b bins Hb _ IH]; simpl; auto.
  apply Qltb_lt in Hb. rewrite Hb. simpl. now rewrite IH.
Qed.

(** On increasing boundaries, a value in (b_i, b_i+1] has exactly the
    boundaries b_0 .. b_i below it. *)
Lemma searchsorted_left_interval bins x :
  StronglySorted Qlt bins ->
  forall i lo hi,
    nth_error bins i = Some lo -> nth_error bins (S i) = Some hi ->
    (lo < x <= hi)%Q -> searchsorted_left bins x = S i.
Proof.
  induction 1 as [|b bins Hs IH Hb]; intros i lo hi Hlo Hhi [Hx1 Hx2].
  - destruct i; discriminate.
  - destruct i as [|i]; simpl in Hlo, Hhi.
    + injection Hlo as ->.
      unfold searchsorted_left. simpl.
      apply Qltb_lt in Hx1. rewrite Hx1. simpl. f_equal.
      apply searchsorted_left_all_ge.
      destruct bins as [|h bins]; [discriminate|].
      simpl in Hhi. injection Hhi as ->.
      constructor; [assumption|].
      apply StronglySorted_inv in Hs as [_ Hh].
      eapply Forall_impl; [|exact Hh]. intros c Hc. simpl in Hc. lra.
    + assert (Hbx : (b < x)%Q).
      { apply nth_error_In in Hlo.
        rewrite Forall_forall in Hb. specialize (Hb _ Hlo). lra. }
      unfold searchsorted_left. simpl.
      apply Qltb_lt in Hbx. rewrite Hbx. simpl. f_equal.
      now apply (IH i lo hi).
Qed.

Lemma cut_value_interval bins labels x i lo hi l :
  StronglySorted Qlt bins ->
  nth_error bins i = Some lo -> nth_error bins (S i) = Some hi ->
  nth_error labels i = Some l ->
  (lo < x <= hi)%Q -> cut_value bins labels (VFloat x) = VStr l.
Proof.
  intros Hs Hlo Hhi Hl Hx. unfold cut_value. cbn [to_Q].
  rewrite (searchsorted_left_interval bins x Hs i lo hi Hlo Hhi Hx).
  assert (Hlen : S i < length bins)
    by (apply nth_error_Some; congruence).
  cbv zeta. rewrite (proj2 (Nat.eqb_neq (S i) (length bins))) by lia.
  change (Nat.eqb (S i) 0) with false. cbn [orb].
  replace (S i - 1) with i by lia. now rewrite Hl.
Qed.

Lemma cut_value_below bins labels x :
  Forall (fun b => (x <= b)%Q) bins -> cut_value bins labels (VFloat x) = NA.
Proof.
  intros H. unfold cut_value. simpl.
  now rewrite (searchsorted_left_all_ge bins x H).
Qed.

Lemma cut_value_above bins labels x :
  Forall (fun b => (b < x)%Q) bins -> cut_value bins labels (VFloat x) = NA.
Proof.
  intros H. unfold cut_value. simpl.
  rewrite (searchsorted_left_all_lt bins x H), Nat.eqb_refl.
  now rewrite orb_true_r.
Qed.

Lemma age_bins_sorted : StronglySorted Qlt age_bins.
Proof.
  unfold age_bins.
  repeat (constructor; [|repeat constructor; reflexivity]). constructor.
Qed.

Lemma fare_bins_sorted : StronglySorted Qlt fare_bins.
Proof.
  unfold fare_bins.
  repeat (constructor; [|repeat constructor; reflexivity]). constructor.
Qed.

Lemma cut_value_bucket bins labels x l :
  StronglySorted Qlt bins -> bucket bins labels x l ->
  cut_value bins labels (VFloat x) = VStr l.
Proof.
  intros Hs (i & lo & hi & Hl & Hlo & Hhi & Hx).
  now apply (cut_value_interval bins labels x i lo hi l).
Qed.

(** C4 (as amended). The derived group columns use right-closed intervals:
    an age in (0, 80] (a fare in (0, 500]) lies in exactly one bucket
    (b_i, b_i+1] and receives that bucket's label; the lowest boundary 0
    itself and every value outside the outermost boundaries receive the
    missing value, the same marker a missing input gets, and never an
    error. *)
Theorem cut_assigns_right_closed_buckets (x : Q) :
  ((0 < x <= 80)%Q ->
   exists l, bucket age_bins age_labels x l /\
             cut_value age_bins age_labels (VFloat x) = VStr l /\
             forall l', bucket age_bins age_labels x l' -> l' = l) /\
  ((x <= 0 \/ 80 < x)%Q -> cut_value age_bins age_labels (VFloat x) = NA) /\
  ((0 < x <= 500)%Q ->
   exists l, bucket fare_bins fare_labels x l /\
             cut_value fare_bins fare_labels (VFloat x) = VStr l /\
             forall l', bucket fare_bins fare_labels x l' -> l' = l) /\
  ((x <= 0 \/ 500 < x)%Q -> cut_value fare_bins fare_labels (VFloat x) = NA).
Proof.
  assert (Hage := age_bins_sorted). assert (Hfare := fare_bins_sorted).
  assert (Huniq : forall bins labels l l',
             StronglySorted Qlt bins ->
             bucket bins labels x l -> bucket bins labels x l' -> l' = l).
  { intros bins labels l l' Hs Hl Hl'.
    apply (cut_value_bucket _ _ _ _ Hs) in Hl, Hl'. congruence. }
  assert (Hin : forall bins labels l,
             StronglySorted Qlt bins -> bucket bins labels x l ->
             bucket bins labels x l /\
             cut_value bins labels (VFloat x) = VStr l /\
             forall l', bucket bins labels x l' -> l' = l).
  { intros bins labels l Hs Hl. repeat split; auto.
    - now apply cut_value_bucket.
    - intros l' Hl'. now apply (Huniq bins labels). }
  assert (Hb : forall bins labels i lo hi l,
             nth_error labels i = Some l -> nth_error bins i = Some lo ->
             nth_error bins (S i) = Some hi -> (lo < x <= hi)%Q ->
             bucket bins labels x l).
  { intros bins labels i lo hi l ? ? ? ?. exists i, lo, hi. auto. }
  repeat split.
  - intros [H0 H80].
    destruct (Qlt_le_dec 12 x); [|eexists; apply Hin; auto;
      apply (Hb _ _ 0 0%Q 12%Q); try reflexivity; lra].
    destruct (Qlt_le_dec 20 x); [|eexists; apply Hin; auto;
      apply (Hb _ _ 1 12%Q 20%Q); try reflexivity; lra].
    destruct (Qlt_le_dec 40 x); [|eexists; apply Hin; auto;
      apply (Hb _ _ 2 20%Q 40%Q); try reflexivity; lra].
    destruct (Qlt_le_dec 60 x); [|eexists; apply Hin; auto;
      apply (Hb _ _ 3 40%Q 60%Q); try reflexivity; lra].
    eexists; apply Hin; auto.
    apply (Hb _ _ 4 60%Q 80%Q); try reflexivity; lra.
  - intros [H|H].
    + apply cut_value_below. unfold age_bins.
      repeat (constructor; [lra|]). constructor.
    + apply cut_value_above. unfold age_bins.
      repeat (constructor; [lra|]). constructor.
  - intros [H0 H500].
    destruct (Qlt_le_dec 10 x); [|eexists; apply Hin; auto;
      apply (Hb _ _ 0 0%Q 10%Q); try reflexivity; lra].
    destruct (Qlt_le_dec 30 x); [|eexists; apply Hin; auto;
      apply (Hb _ _ 1 10%Q 30%Q); try reflexivity; lra].
    destruct (Qlt_le_dec 50 x); [|eexists; apply Hin; auto;
      apply (Hb _ _ 2 30%Q 50%Q); try reflexivity; lra].
    destruct (Qlt_le_dec 100 x); [|eexists; apply Hin; auto;
      apply (Hb _ _ 3 50%Q 100%Q); try reflexivity; lra].
    destruct (Qlt_le_dec 200 x); [|eexists; apply Hin; auto;
      apply (Hb _ _ 4 100%Q 200%Q); try reflexivity; lra].
    eexists; apply Hin; auto.
    apply (Hb _ _ 5 200%Q 500%Q); try reflexivity; lra.
  - intros [H|H].
    + apply cut_value_below. unfold fare_bins.
      repeat (constructor; [lra|]). constructor.
    + apply cut_value_above. unfold fare_bins.
      repeat (constructor; [lra|]). constructor.
Qed.

Lemma cut_assigns_right_closed_buckets_witness :
  (exists l, bucket age_bins age_labels 12 l /\
             cut_value age_bins age_labels (VFloat 12) = VStr l /\
             forall l', bucket age_bins age_labels 12 l' -> l' = l) /\
  cut_value age_bins age_labels (VFloat 81) = NA /\
  (exists l, bucket fare_bins fare_labels 500 l /\
             cut_value fare_bins fare_labels (VFloat 500) = VStr l /\
             forall l', bucket fare_bins fare_labels 500 l' -> l' = l) /\
  cut_value fare_bins fare_labels (VFloat (5123292 # 10000)) = NA.
Proof.
  split; [|split; [|split]].
  - apply (cut_assigns_right_closed_buckets 12).
    split; [reflexivity|discriminate].
  - apply (cut_assigns_right_closed_buckets 81). right. reflexivity.
  - apply (cut_assigns_right_closed_buckets 500).
    split; [reflexivity|discriminate].
  - apply (cut_assigns_right_closed_buckets (5123292 # 10000)).
    right. reflexivity.
Defined.

(** C4, the claim as stated, fails at the lowest boundary: a fare of 0 and
    an age of 0 get no label. *)
Lemma lowest_boundary_gets_no_label :
  cut_value fare_bins fare_labels (VFloat 0) = NA /\
  cut_value age_bins age_labels (VFloat 0) = NA.
Proof. split; reflexivity. Qed.

(** ** The callback monad *)

Lemma mbind_run {A B} (m : M A) (k : A -> M B) g a g' :
  m g = (inr a, g') -> mbind m k g = k a g'.
Proof. unfold mbind. now intros ->. Qed.

Lemma mbind_raise {A B} (m : M A) (k : A -> M B) g e g' :
  m g = (inl e, g') -> mbind m k g = (inl e, g').
Proof. unfold mbind. now intros ->. Qed.

Lemma mbind_inr {A B} (m : M A) (k : A -> M B) g b g2 :
  mbind m k g = (inr b, g2) ->
  exists a g1, m g = (inr a, g1) /\ k a g1 = (inr b, g2).
Proof.
  unfold mbind. destruct (m g) as [[e|a] g1]; [discriminate|]. eauto.
Qed.

Lemma bind_inr {A B} (m : result A) (k : A -> result B) (b : B) :
  bind m k = inr b -> exists a, m = inr a /\ k a = inr b.
Proof.
  destruct m as [e|a]; simpl; [discriminate|]. eauto.
Qed.

(** *** Computations that only read *)

Lemma read_only_mret {A} (a : A) : read_only (mret a).
Proof. now intros g. Qed.

Lemma read_only_lift {A} (r : result A) : read_only (lift r).
Proof. now intros g. Qed.

Lemma read_only_global_df : read_only global_df.
Proof. now intros g. Qed.

Lemma read_only_mbind {A B} (m : M A) (k : A -> M B) :
  read_only m -> (forall a, read_only (k a)) -> read_only (mbind m k).
Proof.
  intros Hm Hk g. unfold mbind. specialize (Hm g).
  destruct (m g) as [[e|a] g']; simpl in *; subst g'; [reflexivity|].
  apply Hk.
Qed.

Lemma read_only_mapM {A B} (f : A -> M B) (l : list A) :
  (forall a, read_only (f a)) -> read_only (mapM f l).
Proof.
  intros Hf. induction l as [|a l IH]; simpl.
  - apply read_only_mret.
  - apply read_only_mbind; [apply Hf|]. intros b.
    apply read_only_mbind; [exact IH|]. intros bs. apply read_only_mret.
Qed.

Create HintDb read_only.
#[local] Hint Resolve read_only_mret read_only_lift read_only_global_df
  : read_only.

(** Goes through a computation statement by statement: a bind is read-only
    when its two parts are. *)
Ltac prove_read_only :=
  repeat first
    [ solve [auto with read_only]
    | apply read_only_mbind; [|intros]
    | apply read_only_mapM; intros
    | progress cbv zeta
    | match goal with
      | |- read_only (match ?x with _ => _ end) => destruct x
      | |- read_only (let '(_, _) := ?x in _) => destruct x
      end ].

Lemma read_only_df_col name : read_only (df_col name).
Proof. unfold df_col. prove_read_only. Qed.

Lemma read_only_len_df : read_only len_df.
Proof. unfold len_df. prove_read_only. Qed.

Lemma read_only_df_where m : read_only (df_where m).
Proof. unfold df_where. prove_read_only. Qed.

#[local] Hint Resolve read_only_df_col read_only_len_df read_only_df_where
  : read_only.

Lemma read_only_df_where_col m name : read_only (df_where_col m name).
Proof. unfold df_where_col. prove_read_only. Qed.

Lemma read_only_len_where m : read_only (len_where m).
Proof. unfold len_where. prove_read_only. Qed.

Lemma read_only_df_groupby {V} (f : list value -> V) by_ target :
  read_only (df_groupby f by_ target).
Proof. unfold df_groupby. prove_read_only. Qed.

Lemma read_only_df_groupby_size by_ : read_only (df_groupby_size by_).
Proof. unfold df_groupby_size. prove_read_only. Qed.

#[local] Hint Resolve read_only_df_where_col read_only_len_where
  read_only_df_groupby read_only_df_groupby_size : read_only.

Lemma read_only_mean_where m name : read_only (mean_where m name).
Proof. unfold mean_where. prove_read_only. Qed.

#[local] Hint Resolve read_only_mean_where : read_only.

Lemma read_only_share name test : read_only (share name test).
Proof. unfold share. prove_read_only. Qed.

Lemma read_only_survival_of name v : read_only (survival_of name v).
Proof. unfold survival_of. prove_read_only. Qed.

Lemma read_only_survival_range by_ : read_only (survival_range by_).
Proof. unfold survival_range. prove_read_only. Qed.

Lemma read_only_multi_factor_plot1 : read_only multi_factor_plot1.
Proof. unfold multi_factor_plot1. prove_read_only. Qed.

Lemma read_only_multi_factor_plot2 : read_only multi_factor_plot2.
Proof. unfold multi_factor_plot2. prove_read_only. Qed.

Lemma read_only_multi_factor_plot3 : read_only multi_factor_plot3.
Proof. unfold multi_factor_plot3. prove_read_only. Qed.

Lemma read_only_multi_factor_plot4 : read_only multi_factor_plot4.
Proof. unfold multi_factor_plot4. prove_read_only. Qed.

#[local] Hint Resolve read_only_share read_only_survival_of
  read_only_survival_range read_only_multi_factor_plot1
  read_only_multi_factor_plot2 read_only_multi_factor_plot3
  read_only_multi_factor_plot4 : read_only.

(** Every branch of the callback, and the fall-through, only reads. *)
Lemma read_only_update_visualization (key : option string) :
  read_only (update_visualization key).
Proof.
  unfold update_visualization.
  repeat match goal with
         | |- read_only (if ?b then _ else _) => destruct b
         end.
  - unfold survival_counts_insight. prove_read_only.
  - unfold age_distribution_insight. prove_read_only.
  - unfold fare_by_class_insight. prove_read_only.
  - unfold age_vs_fare_insight. prove_read_only.
  - unfold survival_by_class_insight. prove_read_only.
  - unfold age_by_class_insight. prove_read_only.
  - unfold age_class_heatmap_insight. prove_read_only.
  - unfold gender_survival_insight. prove_read_only.
  - unfold multi_factor_insight. prove_read_only.
  - unfold data_overview_insight. prove_read_only.
  - prove_read_only.
Qed.

Lemma serve_globals (requests : list (option string)) (g : Globals) :
  snd (serve requests g) = g.
Proof.
  induction requests as [|key requests IH]; simpl; [reflexivity|].
  pose proof (read_only_update_visualization key g) as Hk.
  destruct (update_visualization key g) as [r g'] eqn:E. simpl in Hk. subst g'.
  destruct (serve requests g) as [rs g''] eqn:E'. simpl in *. exact IH.
Qed.

Lemma serve_responses (requests : list (option string)) (g : Globals) :
  fst (serve requests g) =
  map (fun key => fst (update_visualization key g)) requests.
Proof.
  induction requests as [|key requests IH]; simpl; [reflexivity|].
  pose proof (read_only_update_visualization key g) as Hk.
  destruct (update_visualization key g) as [r g'] eqn:E. simpl in Hk. subst g'.
  destruct (serve requests g) as [rs g''] eqn:E'. simpl in *. now rewrite IH.
Qed.

(** The statement that runs at import is the one that writes the global:
    it leaves the prepared frame in it. *)
Example startup_scenario :
  startup scenario (mkGlobals []) = (inr tt, mkGlobals (prepared scenario)).
Proof. reflexivity. Qed.

(** ** The callback *)

(** C1. What the callback does with a key that is not registered: no
    branch of the chain is taken and the final [return] reads the unbound
    local [fig]; the callback raises instead of answering with a message.
    The dataset is not touched. *)
Theorem unregistered_key_raises_unbound_local
    (key : option string) (g : Globals) :
  ~ In key (map Some registered_keys) ->
  update_visualization key g = (inl (UnboundLocalError "fig"), g).
Proof.
  intros Hkey. unfold update_visualization.
  destruct key as [k|]; [|reflexivity].
  unfold pyeq.
  repeat match goal with
         | |- (if String.eqb k ?s then _ else _) _ = _ =>
             destruct (String.eqb_spec k s) as [->|_];
             [exfalso; apply Hkey; simpl; tauto|]
         end.
  reflexivity.
Qed.

Lemma unregistered_key_raises_unbound_local_witness :
  update_visualization None (mkGlobals (prepared scenario)) =
    (inl (UnboundLocalError "fig"), mkGlobals (prepared scenario)) /\
  update_visualization (Some "passenger_list") (mkGlobals (prepared scenario)) =
    (inl (UnboundLocalError "fig"), mkGlobals (prepared scenario)).
Proof.
  split; apply unregistered_key_raises_unbound_local; simpl;
    intuition discriminate.
Defined.

(** C9. No insight computation mutates the dataset: after a call of the
    callback, whatever the key and whether it returns or raises, and after
    any sequence of calls, the global frame is the frame it was before:
    same row count, same columns, same cells. *)
Theorem update_visualization_preserves_dataset
    (key : option string) (g : Globals) :
  g_df (snd (update_visualization key g)) = g_df g /\
  len (g_df (snd (update_visualization key g))) = len (g_df g) /\
  map fst (g_df (snd (update_visualization key g))) = map fst (g_df g) /\
  forall requests, g_df (snd (serve requests g)) = g_df g.
Proof.
  rewrite (read_only_update_visualization key g).
  repeat split. intros requests. now rewrite serve_globals.
Qed.

(** C8. The callback is deterministic and carries no state between
    requests: calling it twice in a row with the same key gives the same
    outcome twice, and the outcome for a key does not depend on the
    requests served before it. *)
Theorem update_visualization_deterministic (key : option string) (g : Globals) :
  fst (serve [key; key] g) =
    [fst (update_visualization key g); fst (update_visualization key g)] /\
  forall history,
    fst (update_visualization key (snd (serve history g))) =
    fst (update_visualization key g).
Proof.
  split.
  - apply (serve_responses [key; key]).
  - intros history. now rewrite serve_globals.
Qed.

(** ** The age group by class pivot *)

(** One step of a computation whose reads are known. *)
Tactic Notation "step" :=
  cbn [mbind global_df lift mret df_col len_df df_where df_where_col
       mean_where len_where df_groupby df_groupby_size g_df fst snd].
Tactic Notation "step" "in" hyp(H) :=
  cbn [mbind global_df lift mret df_col len_df df_where df_where_col
       mean_where len_where df_groupby df_groupby_size g_df fst snd] in H.

Lemma filter_filter {A} (f g : A -> bool) (l : list A) :
  filter f (filter g l) = filter (fun x => g x && f x) l.
Proof.
  induction l as [|x l IH]; simpl; [reflexivity|].
  destruct (g x); simpl; [destruct (f x)|]; now rewrite IH.
Qed.

Lemma filter_all {A} (l : list A) : l = filter (fun _ => true) l.
Proof.
  induction l as [|x l IH]; simpl; congruence.
Qed.

(** Whatever the [observed] setting, the labels of a categorical grouping
    column come out in category order: they are the categories, with some
    of them possibly left out. *)
Lemma pivot_mean_obs_order (observed : bool) (r c t : Series) rcats ccats :
  s_dtype r = category rcats -> s_dtype c = category ccats ->
  exists keep_r keep_c,
    p_index (pivot_mean_obs observed r c t) = filter keep_r rcats /\
    p_columns (pivot_mean_obs observed r c t) = filter keep_c ccats.
Proof.
  intros Hr Hc. unfold pivot_mean_obs, group_keys. rewrite Hr, Hc.
  destruct observed; simpl.
  - rewrite !filter_filter. eauto.
  - exists (fun _ => true), (fun _ => true). split; apply filter_all.
Qed.

Lemma pivot_mean_obs_default (r c t : Series) rcats ccats :
  s_dtype r = category rcats -> s_dtype c = category ccats ->
  p_index (pivot_mean_obs observed_default r c t) = rcats /\
  p_columns (pivot_mean_obs observed_default r c t) = ccats.
Proof.
  intros Hr Hc. unfold pivot_mean_obs, group_keys, observed_default.
  rewrite Hr, Hc. split; reflexivity.
Qed.

(** C7. In the age group by class heatmap the rows of the pivot are the
    age groups in their declared order (Child, Teen, Adult, Middle-Aged,
    Senior) and its columns the classes in the order of the class
    categories (First, Second, Third), for every prepared dataset; the
    figure of the response shows this pivot.  With [observed=True] the
    labels would still follow these orders, absent groups left out. *)
Theorem age_class_pivot_keeps_declared_order
    (raw df : DataFrame) (cls survived : Series) :
  load_and_prepare_data raw = inr df ->
  lookup raw "class" = Some cls -> s_dtype cls = class_dtype ->
  lookup raw "survived" = Some survived ->
  exists p,
    pivot_mean df "age_grouped" "class" "survived" = inr p /\
    p_index p = ["Child"; "Teen"; "Adult"; "Middle-Aged"; "Senior"] /\
    p_columns p = ["First"; "Second"; "Third"] /\
    (forall fig description stats,
        run (update_visualization (Some "age_class_heatmap")) df =
          inr (fig, description, stats) ->
        data fig = [(PxImshow p ".2f", None)]) /\
    (forall observed age_grouped,
        lookup df "age_grouped" = Some age_grouped ->
        exists keep_r keep_c,
          p_index (pivot_mean_obs observed age_grouped cls survived) =
            filter keep_r ["Child"; "Teen"; "Adult"; "Middle-Aged"; "Senior"] /\
          p_columns (pivot_mean_obs observed age_grouped cls survived) =
            filter keep_c ["First"; "Second"; "Third"]).
Proof.
  intros Hload Hcls Hdt Hsurv.
  destruct (load_and_prepare_data_schema _ _ Hload) as (age & fare & Ha & Hf).
  rewrite (load_and_prepare_data_eq _ _ _ Ha Hf) in Hload.
  injection Hload as Hdf.
  set (age' := fillna age (mean age)) in *.
  set (ag := cut age' age_bins age_labels).
  assert (Hag : lookup df "age_grouped" = Some ag)
    by (subst df; now frame_lookup).
  assert (Hc : lookup df "class" = Some cls)
    by (subst df; now frame_lookup).
  assert (Hs : lookup df "survived" = Some survived)
    by (subst df; now frame_lookup).
  assert (Hp : pivot_mean df "age_grouped" "class" "survived" =
               inr (pivot_mean_obs observed_default ag cls survived)).
  { unfold pivot_mean, getitem. now rewrite Hag, Hc, Hs. }
  destruct (pivot_mean_obs_default ag cls survived age_labels
              ["First"; "Second"; "Third"] eq_refl Hdt) as [Hi Hcol].
  exists (pivot_mean_obs observed_default ag cls survived).
  split; [exact Hp|]. split; [exact Hi|]. split; [exact Hcol|]. split.
  - intros fig description stats H.
    change (update_visualization (Some "age_class_heatmap"))
      with age_class_heatmap_insight in H.
    unfold run, age_class_heatmap_insight in H. step in H.
    rewrite Hp in H. step in H.
    destruct (idxmax _) as [e|best]; [discriminate H|]. step in H.
    destruct (idxmin _) as [e|worst]; [discriminate H|]. step in H.
    injection H as <- _ _. reflexivity.
  - intros observed age_grouped Hag'.
    rewrite Hag in Hag'. injection Hag' as <-.
    now apply pivot_mean_obs_order.
Qed.

Lemma age_class_pivot_keeps_declared_order_witness :
  exists p,
    pivot_mean (prepared scenario) "age_grouped" "class" "survived" = inr p /\
    p_index p = ["Child"; "Teen"; "Adult"; "Middle-Aged"; "Senior"] /\
    p_columns p = ["First"; "Second"; "Third"] /\
    (forall fig description stats,
        run (update_visualization (Some "age_class_heatmap"))
            (prepared scenario) = inr (fig, description, stats) ->
        data fig = [(PxImshow p ".2f", None)]) /\
    (forall observed age_grouped,
        lookup (prepared scenario) "age_grouped" = Some age_grouped ->
        exists keep_r keep_c,
          p_index (pivot_mean_obs observed age_grouped
                     (mkSeries class_dtype [VStr "Third"; VStr "First"; VStr "Second"])
                     (mkSeries int64 [VInt 0; VInt 1; VInt 0])) =
            filter keep_r ["Child"; "Teen"; "Adult"; "Middle-Aged"; "Senior"] /\
          p_columns (pivot_mean_obs observed age_grouped
                       (mkSeries class_dtype [VStr "Third"; VStr "First"; VStr "Second"])
                       (mkSeries int64 [VInt 0; VInt 1; VInt 0])) =
            filter keep_c ["First"; "Second"; "Third"]).
Proof.
  apply (age_class_pivot_keeps_declared_order scenario); reflexivity.
Defined.

Example scenario_heatmap :
  (t <- run (update_visualization (Some "age_class_heatmap"))
            (prepared scenario) ;;
   ret (data (fst (fst t)))) =
  inr [(PxImshow
          (mkPivot ["Child"; "Teen"; "Adult"; "Middle-Aged"; "Senior"]
                   ["First"; "Second"; "Third"]
                   [ [Fin 1; NaN; NaN];
                     [NaN; NaN; NaN];
                     [NaN; Fin 0; Fin 0];
                     [NaN; NaN; NaN];
                     [NaN; NaN; NaN] ]) ".2f", None)].
Proof. reflexivity. Qed.

(** ** The gender ratio *)

Lemma loc_map_keys {V W} (f : string -> V) (g : string -> W)
    (keys : list string) (k : string) (v : V) :
  loc (map (fun k => (k, f k)) keys) k = inr v ->
  v = f k /\ loc (map (fun k => (k, g k)) keys) k = inr (g k).
Proof.
  induction keys as [|k' keys IH]; simpl; [discriminate|].
  destruct (String.eqb_spec k' k) as [->|_].
  - unfold ret. intros [= <-]. auto.
  - exact IH.
Qed.

(** C2 (as amended). The gender ratio is not guarded: when the survival
    rate of men is zero, the statistics of the 'gender_survival' insight
    display the float quotient of the two rates as it is, an infinity when
    the rate of women is not zero and NaN when it is; no 'not applicable'
    text takes its place. *)
Theorem gender_ratio_is_unguarded
    (df : DataFrame) (gender_survival : list (string * float)) (women : float) :
  groupby_mean df "sex" "survived" = inr gender_survival ->
  loc gender_survival "female" = inr women ->
  loc gender_survival "male" = inr (Fin 0) ->
  exists fig description stats,
    run (update_visualization (Some "gender_survival")) df =
      inr (fig, description, stats) /\
    html_floats stats =
      [women; Fin 0; np_div women (Fin 0); np_sub women (Fin 0)] /\
    (np_div women (Fin 0) = PInf \/ np_div women (Fin 0) = NInf \/
     np_div women (Fin 0) = NaN).
Proof.
  intros Hgs Hf Hm.
  change (update_visualization (Some "gender_survival"))
    with gender_survival_insight.
  unfold run, gender_survival_insight. step.
  change (groupby_apply agg_mean df "sex" "survived")
    with (groupby_mean df "sex" "survived").
  rewrite Hgs. step.
  unfold groupby_mean, groupby_apply in Hgs.
  apply bind_inr in Hgs as (b & Hb & Hgs).
  apply bind_inr in Hgs as (t & Ht & Hgs).
  injection Hgs as Hgs.
  unfold groupby_size, groupby_apply.
  rewrite Hb, Ht. cbn [bind ret]. step.
  rewrite <- Hgs in Hf, Hm |- *.
  pose (size := fun k => length (filter id (eq b (VStr k)))).
  pose (total := fun k => agg_sum (group b k t)).
  destruct (loc_map_keys _ size _ _ _ Hf) as [_ Hsf].
  destruct (loc_map_keys _ total _ _ _ Hf) as [_ Htf].
  destruct (loc_map_keys _ size _ _ _ Hm) as [_ Hsm].
  destruct (loc_map_keys _ total _ _ _ Hm) as [_ Htm].
  subst size total. cbv beta zeta.
  rewrite Htf, Hsf, Hf. cbn [bind ret]. step.
  rewrite Htm, Hsm, Hm. cbn [bind ret]. step.
  do 3 eexists. split; [reflexivity|]. split; [reflexivity|].
  destruct women as [p| | |]; simpl; auto.
  destruct (p ?= 0)%Q; auto.
Qed.

Lemma gender_ratio_is_unguarded_witness :
  exists fig description stats,
    run (update_visualization (Some "gender_survival")) (prepared scenario) =
      inr (fig, description, stats) /\
    html_floats stats =
      [Fin 1; Fin 0; np_div (Fin 1) (Fin 0); np_sub (Fin 1) (Fin 0)] /\
    (np_div (Fin 1) (Fin 0) = PInf \/ np_div (Fin 1) (Fin 0) = NInf \/
     np_div (Fin 1) (Fin 0) = NaN).
Proof.
  apply (gender_ratio_is_unguarded (prepared scenario)
           [("female", Fin 1); ("male", Fin 0)]); reflexivity.
Defined.

(** C2, the claim as stated, fails on the scenario of the design document,
    where no man survived: the ratio line of the statistics shows an
    infinity. *)
Lemma scenario_gender_ratio_is_infinite :
  (t <- run (update_visualization (Some "gender_survival"))
            (prepared scenario) ;;
   ret (nth_error (map text_floats (html_texts (snd t))) 4)) =
  inr (Some [PInf]).
Proof. reflexivity. Qed.

(** ** The multi-factor composite *)

Lemma In_insert_sorted {A} (leb : A -> A -> bool) (x y : A) (l : list A) :
  In y (insert_sorted leb x l) -> y = x \/ In y l.
Proof.
  induction l as [|z l IH]; simpl.
  - intuition.
  - destruct (leb x z); simpl; intuition.
Qed.

Lemma In_sort_by {A} (leb : A -> A -> bool) (y : A) (l : list A) :
  In y (sort_by leb l) -> In y l.
Proof.
  unfold sort_by. induction l as [|x l IH]; simpl; [auto|].
  intros H. apply In_insert_sorted in H as [->|H]; auto.
Qed.

Lemma In_uniques (y : value) (vs : list value) : In y (uniques vs) -> In y vs.
Proof.
  induction vs as [|v vs IH]; simpl; [auto|].
  destruct (isna v); [auto|]. simpl. intros [->|H]; [auto|].
  apply filter_In in H as [H _]. auto.
Qed.

Lemma ct_cell_absent (cols : list value) (d : list float) (col : Z)
    (name : string) :
  (forall c, In c cols -> value_eqb c (VInt col) = false) ->
  ct_cell cols d col name = inl (KeyError name).
Proof.
  revert d. induction cols as [|c cols IH]; intros d H; [reflexivity|].
  destruct d as [|x d]; [reflexivity|]. simpl.
  rewrite (H c (or_introl eq_refl)). apply IH.
  intros c' Hc'. apply H. now right.
Qed.

(** Without a record whose [survived] is 1 the cross-tabulation has no
    column 1, and the first bar of the first plot fails on it. *)
Lemma multi_factor_plot1_no_survivor
    (df : DataFrame) (sex cls survived : Series) :
  lookup df "sex" = Some sex -> lookup df "class" = Some cls ->
  lookup df "survived" = Some survived ->
  ct_index (crosstab_norm_index sex cls survived) <> [] ->
  (forall v, In v (s_values survived) -> value_eqb v (VInt 1) = false) ->
  run multi_factor_plot1 df = inl (KeyError "1").
Proof.
  intros Hsex Hcls Hsurv Hidx Hnone.
  unfold run, multi_factor_plot1. step. unfold getitem.
  rewrite Hsex, Hcls, Hsurv. cbn [ret]. step.
  assert (Hcols : forall c, In c (ct_columns (crosstab_norm_index sex cls survived)) ->
                            value_eqb c (VInt 1) = false).
  { intros c Hc. apply Hnone. simpl in Hc.
    now apply In_uniques, (In_sort_by value_leb). }
  destruct (crosstab_norm_index sex cls survived) as [idx cols data] eqn:E.
  assert (Hdata : length data = length idx).
  { unfold crosstab_norm_index in E. injection E as <- _ <-.
    now rewrite length_map. }
  simpl in *. destruct idx as [|[g c] idx]; [congruence|].
  destruct data as [|d data]; [discriminate|].
  cbn [mapM]. step.
  unfold ct_loc. simpl. rewrite !String.eqb_refl. simpl.
  now rewrite (ct_cell_absent cols d 1 "1" Hcols).
Qed.

(** Solves [m g = (r, g')] for the read-only [m]: [g'] is [g]. *)
Lemma read_only_run {A} (m : M A) (g : Globals) :
  read_only m -> m g = (fst (m g), g).
Proof.
  intros H. specialize (H g). destruct (m g) as [r g']. simpl in *. now subst.
Qed.

(** C5 (as amended). The composite has no per-panel failure handling:
    the four sub-plots are built in sequence, and the first one that
    raises aborts the callback with its exception, so that no panel is
    returned and none is marked.  In particular, on a dataset with records
    but without a survivor the first plot fails on the missing column 1 of
    the cross-tabulation and the callback raises [KeyError]. *)
Theorem multi_factor_aborts_at_first_failure (df : DataFrame) (e : exn) :
  (run multi_factor_plot1 df = inl e ->
   run (update_visualization (Some "multi_factor")) df = inl e) /\
  (forall p1,
      run multi_factor_plot1 df = inr p1 ->
      run multi_factor_plot2 df = inl e ->
      run (update_visualization (Some "multi_factor")) df = inl e) /\
  (forall p1 p2,
      run multi_factor_plot1 df = inr p1 ->
      run multi_factor_plot2 df = inr p2 ->
      run multi_factor_plot3 df = inl e ->
      run (update_visualization (Some "multi_factor")) df = inl e) /\
  (forall p1 p2 p3,
      run multi_factor_plot1 df = inr p1 ->
      run multi_factor_plot2 df = inr p2 ->
      run multi_factor_plot3 df = inr p3 ->
      run multi_factor_plot4 df = inl e ->
      run (update_visualization (Some "multi_factor")) df = inl e) /\
  (forall sex cls survived,
      lookup df "sex" = Some sex -> lookup df "class" = Some cls ->
      lookup df "survived" = Some survived ->
      ct_index (crosstab_norm_index sex cls survived) <> [] ->
      (forall v, In v (s_values survived) -> value_eqb v (VInt 1) = false) ->
      run (update_visualization (Some "multi_factor")) df =
        inl (KeyError "1")).
Proof.
  change (update_visualization (Some "multi_factor")) with multi_factor_insight.
  unfold run. set (g := mkGlobals df).
  pose proof (read_only_run _ g read_only_multi_factor_plot1) as E1.
  pose proof (read_only_run _ g read_only_multi_factor_plot2) as E2.
  pose proof (read_only_run _ g read_only_multi_factor_plot3) as E3.
  pose proof (read_only_run _ g read_only_multi_factor_plot4) as E4.
  split; [|split; [|split; [|split]]].
  - intros H1. rewrite H1 in E1. unfold multi_factor_insight.
    now rewrite (mbind_raise _ _ _ _ _ E1).
  - intros p1 H1 H2. rewrite H1 in E1. rewrite H2 in E2.
    unfold multi_factor_insight.
    rewrite (mbind_run _ _ _ _ _ E1).
    now rewrite (mbind_raise _ _ _ _ _ E2).
  - intros p1 p2 H1 H2 H3. rewrite H1 in E1. rewrite H2 in E2.
    rewrite H3 in E3. unfold multi_factor_insight.
    rewrite (mbind_run _ _ _ _ _ E1), (mbind_run _ _ _ _ _ E2).
    now rewrite (mbind_raise _ _ _ _ _ E3).
  - intros p1 p2 p3 H1 H2 H3 H4. rewrite H1 in E1. rewrite H2 in E2.
    rewrite H3 in E3. rewrite H4 in E4. unfold multi_factor_insight.
    rewrite (mbind_run _ _ _ _ _ E1), (mbind_run _ _ _ _ _ E2).
    rewrite (mbind_run _ _ _ _ _ E3).
    now rewrite (mbind_raise _ _ _ _ _ E4).
  - intros sex cls survived Hsex Hcls Hsurv Hidx Hnone.
    pose proof (multi_factor_plot1_no_survivor df sex cls survived
                  Hsex Hcls Hsurv Hidx Hnone) as H.
    unfold run in H. fold g in H. rewrite H in E1.
    unfold multi_factor_insight. now rewrite (mbind_raise _ _ _ _ _ E1).
Qed.

Lemma multi_factor_aborts_at_first_failure_witness :
  run (update_visualization (Some "multi_factor")) no_survivors =
    inl (KeyError "1") /\
  run (update_visualization (Some "multi_factor"))
      (drop ["sex"] mostly_survived) = inl (KeyError "sex") /\
  run (update_visualization (Some "multi_factor"))
      (drop ["age"] mostly_survived) = inl (KeyError "age") /\
  run (update_visualization (Some "multi_factor"))
      (drop ["fare"] mostly_survived) = inl (KeyError "fare").
Proof.
  split; [|split; [|split]].
  - apply (proj2 (proj2 (proj2 (proj2
             (multi_factor_aborts_at_first_failure no_survivors
                (KeyError "1"))))))
      with (sex := mkSeries object [VStr "male"; VStr "female"])
           (cls := mkSeries class_dtype [VStr "Third"; VStr "First"])
           (survived := mkSeries int64 [VInt 0; VInt 0]);
      try reflexivity.
    + vm_compute. discriminate.
    + simpl. intros v [<-|[<-|[]]]; reflexivity.
  - apply (proj1 (multi_factor_aborts_at_first_failure
                    (drop ["sex"] mostly_survived) (KeyError "sex"))).
    reflexivity.
  - apply (proj1 (proj2 (multi_factor_aborts_at_first_failure
                           (drop ["age"] mostly_survived) (KeyError "age")))
             [ (Bar (Some "Female First") ["Female First"] [Fin (1 # 2)] [] [],
                Some (1, 1));
               (Bar (Some "Male Third") ["Male Third"] [Fin 1] [] [],
                Some (1, 1)) ]);
      reflexivity.
  - apply (proj1 (proj2 (proj2 (multi_factor_aborts_at_first_failure
                                  (drop ["fare"] mostly_survived)
                                  (KeyError "fare"))))
             [ (Bar (Some "Female First") ["Female First"] [Fin (1 # 2)] [] [],
                Some (1, 1));
               (Bar (Some "Male Third") ["Male Third"] [Fin 1] [] [],
                Some (1, 1)) ]
             [ (Histogram (mkSeries float64 [VFloat 30; VFloat 61])
                          "Survived" "green", Some (1, 2));
               (Histogram (mkSeries float64 [VFloat 25]) "Died" "red",
                Some (1, 2)) ]);
      reflexivity.
Defined.

(** C5, the claim as stated, fails on a dataset without survivors: the
    first of the four sub-aggregations is undefined (the cross-tabulation
    has no column 1), the ages and the fares of the second and third plot
    and the class counts of the fourth are well defined, and the callback
    raises instead of rendering three panels and a marker. *)
Lemma no_survivors_aborts_composite :
  run multi_factor_plot1 no_survivors = inl (KeyError "1") /\
  (exists p2 p3,
      run multi_factor_plot2 no_survivors = inr p2 /\
      run multi_factor_plot3 no_survivors = inr p3) /\
  (exists cls,
      lookup no_survivors "class" = Some cls /\
      value_counts cls = [(VStr "First", 1); (VStr "Third", 1);
                          (VStr "Second", 0)]) /\
  run (update_visualization (Some "multi_factor")) no_survivors =
    inl (KeyError "1").
Proof.
  split; [reflexivity|]. split; [|split; [|reflexivity]].
  - do 2 eexists. split; reflexivity.
  - eexists. split; reflexivity.
Qed.

(** ** The survival counts *)

(** The distinct values of a column of survival flags, against the two
    counts. *)
Lemma uniques_flags (vs : list value) :
  Forall survival_flag vs ->
  let died := count_of (VInt 0) vs in
  let lived := count_of (VInt 1) vs in
  (died = 0 /\ lived = 0 /\ uniques vs = []) \/
  (0 < died /\ lived = 0 /\ uniques vs = [VInt 0]) \/
  (died = 0 /\ 0 < lived /\ uniques vs = [VInt 1]) \/
  (0 < died /\ 0 < lived /\
   (uniques vs = [VInt 0; VInt 1] \/ uniques vs = [VInt 1; VInt 0])).
Proof.
  unfold count_of.
  induction 1 as [|v vs Hv _ IH]; simpl; [auto|].
  destruct Hv as [-> | ->]; simpl;
    destruct IH as [(Hd & Hl & ->) | [(Hd & Hl & ->) | [(Hd & Hl & ->)
                   | (Hd & Hl & [-> | ->])]]];
    simpl; rewrite ?Hd, ?Hl; intuition lia.
Qed.

Lemma survival_value_counts (survived : Series) :
  s_dtype survived = int64 -> Forall survival_flag (s_values survived) ->
  let died := count_of (VInt 0) (s_values survived) in
  let lived := count_of (VInt 1) (s_values survived) in
  0 < died -> 0 < lived ->
  values (value_counts survived) =
    (if (died <? lived)%nat then [lived; died] else [died; lived]) /\
  iloc (value_counts survived) 0 "0" = inr died /\
  iloc (value_counts survived) 1 "1" = inr lived.
Proof.
  intros Hdt Hflags died lived Hd Hl.
  unfold value_counts. rewrite Hdt.
  destruct (uniques_flags _ Hflags)
    as [(H & _) | [(_ & H & _) | [(H & _) | (_ & _ & [-> | ->])]]];
    try (fold died in H; lia); try (fold lived in H; lia);
    simpl; fold died; fold lived.
  - destruct (Nat.leb_spec lived died), (Nat.ltb_spec died lived);
      try lia; simpl; auto.
  - destruct (Nat.leb_spec died lived), (Nat.ltb_spec died lived);
      try lia; simpl; auto.
    assert (died = lived) by lia. repeat split; congruence.
Qed.

(** C10 (as amended). In the 'survival_counts' insight the labels of the
    two bars are fixed while their heights come in order of decreasing
    frequency: on a dataset in which both outcomes occur, the bar labelled
    'Died' shows the larger of the two counts and the bar labelled
    'Survived' the smaller, so 'Died' shows the number of deaths exactly
    when the deaths are at least as many as the survivors.  The narrative
    and the statistics look the counts up by outcome and display the
    total, the deaths and the survivors in this order. *)
Theorem survival_counts_bars_follow_frequency
    (df : DataFrame) (survived : Series) :
  lookup df "survived" = Some survived -> s_dtype survived = int64 ->
  Forall survival_flag (s_values survived) ->
  let died := count_of (VInt 0) (s_values survived) in
  let lived := count_of (VInt 1) (s_values survived) in
  0 < died -> 0 < lived ->
  exists fig description stats,
    run (update_visualization (Some "survival_counts")) df =
      inr (fig, description, stats) /\
    bars fig = [ ("Died", of_nat (Nat.max died lived));
                 ("Survived", of_nat (Nat.min died lived)) ] /\
    (Nat.max died lived = died <-> lived <= died) /\
    html_ints description =
      [Z.of_nat (len df); Z.of_nat died; Z.of_nat lived] /\
    html_ints stats = [Z.of_nat (len df); Z.of_nat died; Z.of_nat lived].
Proof.
  intros Hs Hdt Hflags died lived Hd Hl.
  destruct (survival_value_counts survived Hdt Hflags Hd Hl)
    as (Hvalues & H0 & H1).
  fold died lived in Hvalues, H0, H1.
  change (update_visualization (Some "survival_counts"))
    with survival_counts_insight.
  unfold run, survival_counts_insight. step. unfold getitem.
  rewrite Hs. cbn [ret]. step.
  rewrite H0. step. rewrite H1. step.
  do 3 eexists. split; [reflexivity|].
  split; [|split; [lia|split; reflexivity]].
  unfold bars. cbn [data map fst concat]. rewrite Hvalues.
  destruct (Nat.ltb_spec died lived).
  - rewrite Nat.max_r, Nat.min_l by lia. reflexivity.
  - rewrite Nat.max_l, Nat.min_r by lia. reflexivity.
Qed.

Lemma survival_counts_bars_follow_frequency_witness :
  exists fig description stats,
    run (update_visualization (Some "survival_counts")) mostly_survived =
      inr (fig, description, stats) /\
    bars fig = [ ("Died", of_nat (Nat.max 1 2));
                 ("Survived", of_nat (Nat.min 1 2)) ] /\
    (Nat.max 1 2 = 1 <-> 2 <= 1) /\
    html_ints description = [3; 1; 2]%Z /\
    html_ints stats = [3; 1; 2]%Z.
Proof.
  apply (survival_counts_bars_follow_frequency mostly_survived
           (mkSeries int64 [VInt 1; VInt 0; VInt 1])).
  - reflexivity.
  - reflexivity.
  - repeat (apply Forall_cons; [unfold survival_flag; auto|]).
    apply Forall_nil.
  - vm_compute. lia.
  - vm_compute. lia.
Defined.

(** C10, the claim as stated, fails on a dataset in which everybody
    survived: there are more survivors than deaths, yet the callback
    raises on the lookup of the deaths and returns no chart, narrative or
    statistics. *)
Lemma all_survived_has_no_response :
  (count_of (VInt 0) [VInt 1; VInt 1] < count_of (VInt 1) [VInt 1; VInt 1]) /\
  run (update_visualization (Some "survival_counts")) all_survived =
    inl (KeyError "0").
Proof.
  split; [vm_compute; lia|reflexivity].
Qed.

(** * Further properties of the callback *)

(** ** Dispatch *)

Section DataErrors.

Lemma fails_on_data_ret {A} (a : A) : fails_on_data (ret a).
Proof. intros e H. discriminate H. Qed.

Lemma fails_on_data_bind {A B} (r : result A) (k : A -> result B) :
  fails_on_data r -> (forall a, fails_on_data (k a)) ->
  fails_on_data (bind r k).
Proof.
  intros Hr Hk e. destruct r as [e'|a]; simpl.
  - intros [= <-]. now apply Hr.
  - apply Hk.
Qed.

Lemma fails_on_data_getitem df name : fails_on_data (getitem df name).
Proof.
  unfold getitem. intros e. destruct (lookup df name); [discriminate|].
  now intros [= <-].
Qed.

Lemma fails_on_data_px_col df name : fails_on_data (px_col df name).
Proof.
  unfold px_col. intros e. destruct (lookup df name); [discriminate|].
  now intros [= <-].
Qed.

Lemma fails_on_data_loc {V} (s : list (string * V)) k : fails_on_data (loc s k).
Proof.
  induction s as [|[k' v] s IH]; simpl.
  - now intros e [= <-].
  - destruct (String.eqb k' k); [apply fails_on_data_ret|exact IH].
Qed.

Lemma fails_on_data_iloc {V} (s : list (value * V)) k name :
  fails_on_data (iloc s k name).
Proof.
  induction s as [|[k' v] s IH]; simpl.
  - now intros e [= <-].
  - destruct (value_eqb k' (VInt k)); [apply fails_on_data_ret|exact IH].
Qed.

Lemma fails_on_data_percent_of x n : fails_on_data (percent_of x n).
Proof.
  unfold percent_of, py_div. intros e.
  destruct (Z.eqb (Z.of_nat n) 0); simpl; [now intros [= <-]|discriminate].
Qed.

Lemma fails_on_data_idx_first {K} better (s : list (K * Q)) msg :
  fails_on_data (idx_first better s msg).
Proof.
  unfold idx_first. intros e. destruct s; [now intros [= <-]|discriminate].
Qed.

Lemma fails_on_data_ct_loc t k col name : fails_on_data (ct_loc t k col name).
Proof.
  unfold ct_loc. apply fails_on_data_bind.
  - generalize (ct_data t). induction (ct_index t) as [|k' idx IH];
      intros data; simpl; [now intros e [= <-]|].
    destruct data as [|d data]; [now intros e [= <-]|].
    destruct (_ && _); [apply fails_on_data_ret|apply IH].
  - intros d. revert d. induction (ct_columns t) as [|c cols IH];
      intros d; simpl; [now intros e [= <-]|].
    destruct d as [|x d]; [now intros e [= <-]|].
    destruct (value_eqb c (VInt col)); [apply fails_on_data_ret|apply IH].
Qed.

Lemma fails_on_data_add_trace specs t row col :
  fails_on_data (add_trace specs t row col).
Proof.
  unfold add_trace. intros e.
  destruct row as [|r]; [now intros [= <-]|].
  destruct col as [|c]; [now intros [= <-]|].
  destruct (nth_error specs r) as [cells|]; [|now intros [= <-]].
  destruct (nth_error cells c) as [cell|]; [|now intros [= <-]].
  destruct (forallb _ _); [discriminate|now intros [= <-]].
Qed.

Lemma fails_on_data_groupby_apply {V} (f : list value -> V) df by_ target :
  fails_on_data (groupby_apply f df by_ target).
Proof.
  unfold groupby_apply.
  apply fails_on_data_bind; [apply fails_on_data_getitem|]. intros b.
  apply fails_on_data_bind; [apply fails_on_data_getitem|]. intros t.
  apply fails_on_data_ret.
Qed.

Lemma fails_on_data_groupby_size df by_ :
  fails_on_data (groupby_size df by_).
Proof.
  unfold groupby_size.
  apply fails_on_data_bind; [apply fails_on_data_getitem|]. intros b.
  apply fails_on_data_ret.
Qed.

Lemma fails_on_data_pivot_mean df r c t : fails_on_data (pivot_mean df r c t).
Proof.
  unfold pivot_mean.
  repeat (apply fails_on_data_bind; [apply fails_on_data_getitem|]; intros ?).
  apply fails_on_data_ret.
Qed.

Lemma raises_on_data_mret {A} (a : A) : raises_on_data (mret a).
Proof. intros g e H. discriminate H. Qed.

Lemma raises_on_data_lift {A} (r : result A) :
  fails_on_data r -> raises_on_data (lift r).
Proof. intros H g. exact H. Qed.

Lemma raises_on_data_global_df : raises_on_data global_df.
Proof. intros g e H. discriminate H. Qed.

Lemma raises_on_data_mbind {A B} (m : M A) (k : A -> M B) :
  raises_on_data m -> (forall a, raises_on_data (k a)) ->
  raises_on_data (mbind m k).
Proof.
  intros Hm Hk g e. unfold mbind. specialize (Hm g).
  destruct (m g) as [[e'|a] g']; simpl in *.
  - intros [= <-]. now apply Hm.
  - apply Hk.
Qed.

Lemma raises_on_data_mapM {A B} (f : A -> M B) (l : list A) :
  (forall a, raises_on_data (f a)) -> raises_on_data (mapM f l).
Proof.
  intros Hf. induction l as [|a l IH]; simpl.
  - apply raises_on_data_mret.
  - apply raises_on_data_mbind; [apply Hf|]. intros b.
    apply raises_on_data_mbind; [exact IH|]. intros bs.
    apply raises_on_data_mret.
Qed.

End DataErrors.

Create HintDb data_errors.
#[local] Hint Resolve fails_on_data_ret fails_on_data_getitem
  fails_on_data_px_col fails_on_data_loc fails_on_data_iloc
  fails_on_data_percent_of fails_on_data_idx_first fails_on_data_ct_loc
  fails_on_data_add_trace
  fails_on_data_groupby_apply fails_on_data_groupby_size
  fails_on_data_pivot_mean raises_on_data_mret raises_on_data_global_df
  : data_errors.

Ltac prove_data_errors :=
  repeat first
    [ solve [auto with data_errors]
    | apply raises_on_data_mbind; [|intros]
    | apply raises_on_data_mapM; intros
    | apply raises_on_data_lift
    | apply fails_on_data_bind; [|intros]
    | progress cbv zeta
    | progress unfold idxmax, idxmin, df_col, len_df, df_where, df_where_col,
        mean_where, len_where, df_groupby, df_groupby_size, share,
        survival_of, survival_range, multi_factor_plot1, multi_factor_plot2,
        multi_factor_plot3, multi_factor_plot4
    | match goal with
      | |- raises_on_data (match ?x with _ => _ end) => destruct x
      | |- raises_on_data (let '(_, _) := ?x in _) => destruct x
      end ].

(** A registered key reaches its branch, and a branch fails on the data
    only. *)
Lemma registered_key_raises_on_data (key : string) :
  In key registered_keys -> raises_on_data (update_visualization (Some key)).
Proof.
  intros Hkey. simpl in Hkey.
  repeat destruct Hkey as [<-|Hkey]; try contradiction.
  - change (raises_on_data survival_counts_insight).
    unfold survival_counts_insight. prove_data_errors.
  - change (raises_on_data age_distribution_insight).
    unfold age_distribution_insight. prove_data_errors.
  - change (raises_on_data fare_by_class_insight).
    unfold fare_by_class_insight. prove_data_errors.
  - change (raises_on_data age_vs_fare_insight).
    unfold age_vs_fare_insight. prove_data_errors.
  - change (raises_on_data survival_by_class_insight).
    unfold survival_by_class_insight. prove_data_errors.
  - change (raises_on_data age_by_class_insight).
    unfold age_by_class_insight. prove_data_errors.
  - change (raises_on_data age_class_heatmap_insight).
    unfold age_class_heatmap_insight. prove_data_errors.
  - change (raises_on_data gender_survival_insight).
    unfold gender_survival_insight. prove_data_errors.
  - change (raises_on_data multi_factor_insight).
    unfold multi_factor_insight. prove_data_errors.
  - change (raises_on_data data_overview_insight).
    unfold data_overview_insight. prove_data_errors.
Qed.

(** X1. The callback raises [UnboundLocalError] exactly on the keys that
    are not among the ten options of the dropdown: a registered key always
    reaches its branch, whose failures, if any, come from the data. *)
Theorem unbound_local_iff_unregistered (key : option string) (g : Globals) :
  (exists name, fst (update_visualization key g) = inl (UnboundLocalError name))
  <-> ~ In key (map Some registered_keys).
Proof.
  split.
  - intros [name H] Hin. apply in_map_iff in Hin as (k & <- & Hk).
    exact (registered_key_raises_on_data k Hk g _ H).
  - intros Hkey. exists "fig". unfold update_visualization.
    destruct key as [k|]; [|reflexivity].
    unfold pyeq.
    repeat match goal with
           | |- fst ((if String.eqb k ?s then _ else _) _) = _ =>
               destruct (String.eqb_spec k s) as [->|_];
               [exfalso; apply Hkey; simpl; tauto|]
           end.
    reflexivity.
Qed.

Lemma unbound_local_iff_unregistered_witness :
  (exists name,
      fst (update_visualization (Some "passenger_list")
             (mkGlobals (prepared scenario))) =
        inl (UnboundLocalError name)) /\
  ~ (exists name,
      fst (update_visualization (Some "multi_factor")
             (mkGlobals no_survivors)) =
        inl (UnboundLocalError name)).
Proof.
  split.
  - apply (proj2 (unbound_local_iff_unregistered (Some "passenger_list")
                    (mkGlobals (prepared scenario)))).
    simpl. intuition discriminate.
  - intros H.
    apply (proj1 (unbound_local_iff_unregistered (Some "multi_factor")
                    (mkGlobals no_survivors))) in H.
    apply H. simpl. tauto.
Defined.

(** ** Data preparation *)

Lemma existsb_eqb_false (m : string) (names : list string) :
  ~ In m names -> existsb (String.eqb m) names = false.
Proof.
  induction names as [|n names IH]; simpl; [reflexivity|]. intros H.
  destruct (String.eqb_spec m n) as [->|_]; [exfalso; auto|]. simpl. auto.
Qed.

(** X2. The schema after preparation: the three dropped columns are gone,
    the two group columns exist and are categoricals over their labels,
    and every column other than [age] that was loaded and not dropped is
    the column that was loaded. *)
Theorem prepared_frame_schema (raw d : DataFrame) :
  load_and_prepare_data raw = inr d ->
  lookup d "deck" = None /\ lookup d "embark_town" = None /\
  lookup d "embarked" = None /\
  (exists ag fg,
      lookup d "age_grouped" = Some ag /\ s_dtype ag = category age_labels /\
      lookup d "fare_grouped" = Some fg /\ s_dtype fg = category fare_labels) /\
  (forall name,
      ~ In name ["age"; "deck"; "embark_town"; "embarked";
                 "age_grouped"; "fare_grouped"] ->
      lookup d name = lookup raw name).
Proof.
  intros H.
  destruct (load_and_prepare_data_schema _ _ H) as (age & fare & Ha & Hf).
  rewrite (load_and_prepare_data_eq _ _ _ Ha Hf) in H.
  injection H as H. subst d.
  split; [now frame_lookup|]. split; [now frame_lookup|].
  split; [now frame_lookup|]. split.
  - do 2 eexists. split; [now frame_lookup|]. split; [reflexivity|].
    split; [now frame_lookup|reflexivity].
  - intros name Hn. simpl in Hn.
    rewrite !lookup_setitem_ne by (intros <-; tauto).
    rewrite lookup_drop_other
      by (apply existsb_eqb_false; simpl; intuition (subst; tauto)).
    rewrite lookup_setitem_ne by (intros <-; tauto).
    apply lookup_drop_other.
    apply existsb_eqb_false; simpl; intuition (subst; tauto).
Qed.

Lemma prepared_frame_schema_witness :
  lookup (prepared scenario) "deck" = None /\
  lookup (prepared scenario) "embark_town" = None /\
  lookup (prepared scenario) "embarked" = None /\
  (exists ag fg,
      lookup (prepared scenario) "age_grouped" = Some ag /\
      s_dtype ag = category age_labels /\
      lookup (prepared scenario) "fare_grouped" = Some fg /\
      s_dtype fg = category fare_labels) /\
  (forall name,
      ~ In name ["age"; "deck"; "embark_town"; "embarked";
                 "age_grouped"; "fare_grouped"] ->
      lookup (prepared scenario) name = lookup scenario name).
Proof.
  apply (prepared_frame_schema scenario). reflexivity.
Defined.

Lemma rectangular_setitem n df name s :
  rectangular n df -> length (s_values s) = n ->
  rectangular n (setitem df name s).
Proof.
  unfold rectangular. intros Hdf Hs.
  induction Hdf as [|[k v] df Hc Hdf IH]; simpl.
  - constructor; [exact Hs|constructor].
  - destruct (String.eqb k name); constructor; auto.
Qed.

Lemma rectangular_drop n names df :
  rectangular n df -> rectangular n (drop names df).
Proof.
  unfold rectangular, drop. intros H.
  apply Forall_forall. intros c Hc. apply filter_In in Hc as [Hc _].
  rewrite Forall_forall in H. auto.
Qed.

Lemma rectangular_lookup n df name s :
  rectangular n df -> lookup df name = Some s -> length (s_values s) = n.
Proof.
  unfold rectangular. induction 1 as [|[k v] df Hc _ IH]; simpl; [discriminate|].
  destruct (String.eqb k name); [intros [= <-]; exact Hc|exact IH].
Qed.

Lemma rectangular_len n df name s :
  rectangular n df -> lookup df name = Some s -> len df = n.
Proof.
  unfold rectangular. intros H Hs. destruct H as [|[k v] df Hc _]; simpl.
  - discriminate.
  - exact Hc.
Qed.

Lemma length_fillna s x : length (s_values (fillna s x)) = length (s_values s).
Proof.
  destruct x; simpl; try reflexivity. apply length_map.
Qed.

Lemma length_cut s bins labels :
  length (s_values (cut s bins labels)) = length (s_values s).
Proof. apply length_map. Qed.

(** X3. Preparation keeps the rows: on a dataset of [n] records, every
    column of the prepared frame, the two new ones included, has [n]
    cells; nothing is dropped or added row-wise. *)
Theorem load_and_prepare_data_keeps_rows (n : nat) (raw d : DataFrame) :
  rectangular n raw -> load_and_prepare_data raw = inr d ->
  rectangular n d /\ len d = n.
Proof.
  intros Hraw H.
  destruct (load_and_prepare_data_schema _ _ H) as (age & fare & Ha & Hf).
  rewrite (load_and_prepare_data_eq _ _ _ Ha Hf) in H.
  injection H as H.
  pose proof (rectangular_lookup _ _ _ _ Hraw Ha) as Hla.
  pose proof (rectangular_lookup _ _ _ _ Hraw Hf) as Hlf.
  assert (Hd : rectangular n d).
  { subst d.
    repeat first [ apply rectangular_setitem | apply rectangular_drop
                 | assumption
                 | rewrite length_cut | rewrite length_fillna ]. }
  split; [exact Hd|].
  apply (rectangular_len n d "age" (fillna age (mean age)) Hd).
  subst d. now frame_lookup.
Qed.

Lemma load_and_prepare_data_keeps_rows_witness :
  rectangular 3 (prepared scenario) /\ len (prepared scenario) = 3.
Proof.
  apply (load_and_prepare_data_keeps_rows 3 scenario).
  - repeat constructor.
  - reflexivity.
Defined.

Lemma numeric_nil_no_known (vs : list value) :
  numeric vs = [] -> forall v, In v vs -> to_Q v = None.
Proof.
  induction vs as [|w vs IH]; simpl; [contradiction|].
  destruct (to_Q w) eqn:E; [discriminate|].
  intros H v [<-|Hv]; auto.
Qed.

(** X4. Imputation closes every gap of the age column as soon as one age
    is known; when no age is known the mean is NaN, the column is left as
    it is, and no age group is assigned. *)
Theorem prepared_age_has_no_gap (raw d : DataFrame) (age : Series) :
  load_and_prepare_data raw = inr d -> lookup raw "age" = Some age ->
  ((exists v, In v (s_values age) /\ to_Q v <> None) ->
   exists age', lookup d "age" = Some age' /\
                forall v, In v (s_values age') -> v <> NA) /\
  ((forall v, In v (s_values age) -> to_Q v = None) ->
   lookup d "age" = Some age /\
   exists ag, lookup d "age_grouped" = Some ag /\
              forall v, In v (s_values ag) -> v = NA).
Proof.
  intros H Ha.
  destruct (load_and_prepare_data_schema _ _ H) as (age0 & fare & Ha0 & Hf).
  rewrite Ha in Ha0. injection Ha0 as <-.
  rewrite (load_and_prepare_data_eq _ _ _ Ha Hf) in H.
  injection H as H. subst d. split.
  - intros (v & Hv & Hq).
    exists (fillna age (mean age)). split; [now frame_lookup|].
    assert (Hm : exists m, mean age = Fin m).
    { unfold mean, mean_of. destruct (numeric (s_values age)) eqn:E; [|eauto].
      exfalso. apply Hq. now apply (numeric_nil_no_known _ E). }
    destruct Hm as [m ->].
    pose proof (fillna_fin_no_na age m) as Hno.
    rewrite forallb_forall in Hno. intros w Hw ->.
    specialize (Hno _ Hw). discriminate Hno.
  - intros Hnone.
    assert (Hm : mean age = NaN).
    { unfold mean, mean_of. destruct (numeric (s_values age)) as [|q qs] eqn:E;
        [reflexivity|].
      exfalso. clear - Hnone E.
      induction (s_values age) as [|w vs IH]; simpl in E; [discriminate|].
      destruct (to_Q w) eqn:Ew.
      - rewrite (Hnone w (or_introl eq_refl)) in Ew. discriminate.
      - apply IH; auto. intros v Hv. apply Hnone. now right. }
    rewrite Hm. simpl fillna. split; [now frame_lookup|].
    eexists. split; [now frame_lookup|].
    intros v Hv. simpl in Hv. apply in_map_iff in Hv as (w & <- & Hw).
    unfold cut_value. now rewrite (Hnone w Hw).
Qed.

Lemma prepared_age_has_no_gap_witness :
  (exists age', lookup (prepared scenario_missing_age) "age" = Some age' /\
                forall v, In v (s_values age') -> v <> NA) /\
  (lookup (prepared (setitem scenario "age" (mkSeries float64 [NA; NA; NA])))
          "age" = Some (mkSeries float64 [NA; NA; NA]) /\
   exists ag,
     lookup (prepared (setitem scenario "age" (mkSeries float64 [NA; NA; NA])))
            "age_grouped" = Some ag /\
     forall v, In v (s_values ag) -> v = NA).
Proof.
  split.
  - apply (prepared_age_has_no_gap scenario_missing_age _
             (mkSeries float64 [VFloat 30; NA; VFloat 40]));
      [reflexivity|reflexivity|].
    exists (VFloat 30). split; [now left|discriminate].
  - apply (prepared_age_has_no_gap
             (setitem scenario "age" (mkSeries float64 [NA; NA; NA])) _
             (mkSeries float64 [NA; NA; NA])); [reflexivity|reflexivity|].
    simpl. intros v [<-|[<-|[<-|[]]]]; reflexivity.
Defined.

Lemma searchsorted_left_mono (bins : list Q) (x y : Q) :
  (x <= y)%Q -> searchsorted_left bins x <= searchsorted_left bins y.
Proof.
  intros Hxy. unfold searchsorted_left.
  induction bins as [|b bins IH]; simpl; [lia|].
  destruct (Qltb b x) eqn:Ex.
  - apply Qltb_lt in Ex. assert (Ey : Qltb b y = true) by (apply Qltb_lt; lra).
    rewrite Ey. simpl. lia.
  - destruct (Qltb b y); simpl; lia.
Qed.

Lemma position_nth_error (labels : list string) (i : nat) (l : string) :
  NoDup labels -> nth_error labels i = Some l -> position labels l = Some i.
Proof.
  intros Hnd. revert i. induction Hnd as [|l' labels Hnotin _ IH]; intros i.
  - destruct i; discriminate.
  - destruct i as [|i]; simpl.
    + intros [= ->]. now rewrite String.eqb_refl.
    + intros Hi. destruct (String.eqb_spec l' l) as [->|_].
      * exfalso. apply Hnotin. eapply nth_error_In; eauto.
      * now rewrite (IH i Hi).
Qed.

Lemma cut_value_label (bins : list Q) (labels : list string) (x : Q) (l : string) :
  cut_value bins labels (VFloat x) = VStr l ->
  nth_error labels (searchsorted_left bins x - 1) = Some l /\
  0 < searchsorted_left bins x.
Proof.
  unfold cut_value. simpl.
  destruct (Nat.eqb_spec (searchsorted_left bins x) 0) as [E|E];
    [discriminate|].
  destruct (Nat.eqb (searchsorted_left bins x) (length bins));
    [discriminate|]. simpl.
  destruct (nth_error labels (searchsorted_left bins x - 1));
    [|discriminate].
  intros [= ->]. split; [reflexivity|lia].
Qed.

Lemma cut_value_mono (bins : list Q) (labels : list string) (x y : Q) lx ly :
  NoDup labels -> (x <= y)%Q ->
  cut_value bins labels (VFloat x) = VStr lx ->
  cut_value bins labels (VFloat y) = VStr ly ->
  exists i j, position labels lx = Some i /\ position labels ly = Some j /\
              i <= j.
Proof.
  intros Hnd Hxy Hx Hy.
  apply cut_value_label in Hx as [Hx Hx0], Hy as [Hy Hy0].
  pose proof (searchsorted_left_mono bins x y Hxy).
  exists (searchsorted_left bins x - 1), (searchsorted_left bins y - 1).
  repeat split; try (now apply position_nth_error). lia.
Qed.

(** X5. The derived groups are ordinal: of two passengers that both get an
    age group, the older one never gets an earlier group, and likewise a
    higher fare never gets an earlier fare group. *)
Theorem groups_follow_the_order_of_values (x y : Q) (lx ly : string) :
  (x <= y)%Q ->
  (cut_value age_bins age_labels (VFloat x) = VStr lx ->
   cut_value age_bins age_labels (VFloat y) = VStr ly ->
   exists i j, position age_labels lx = Some i /\
               position age_labels ly = Some j /\ i <= j) /\
  (cut_value fare_bins fare_labels (VFloat x) = VStr lx ->
   cut_value fare_bins fare_labels (VFloat y) = VStr ly ->
   exists i j, position fare_labels lx = Some i /\
               position fare_labels ly = Some j /\ i <= j).
Proof.
  intros Hxy. split; intros Hx Hy.
  - apply (cut_value_mono age_bins age_labels x y lx ly); auto.
    repeat (constructor; [simpl; intuition discriminate|]). constructor.
  - apply (cut_value_mono fare_bins fare_labels x y lx ly); auto.
    repeat (constructor; [simpl; intuition discriminate|]). constructor.
Qed.

Lemma groups_follow_the_order_of_values_witness :
  (exists i j, position age_labels "Teen" = Some i /\
               position age_labels "Senior" = Some j /\ i <= j) /\
  (exists i j, position fare_labels "Low" = Some i /\
               position fare_labels "Low" = Some j /\ i <= j).
Proof.
  split.
  - apply (groups_follow_the_order_of_values 15 70 "Teen" "Senior");
      [discriminate|reflexivity|reflexivity].
  - apply (groups_follow_the_order_of_values 15 29 "Low" "Low");
      [discriminate|reflexivity|reflexivity].
Defined.

(** ** The survival counts, continued *)

Lemma count_flags (vs : list value) :
  Forall survival_flag vs ->
  count_of (VInt 0) vs + count_of (VInt 1) vs = length vs.
Proof.
  unfold count_of. induction 1 as [|v vs Hv _ IH]; simpl; [reflexivity|].
  destruct Hv as [-> | ->]; simpl; lia.
Qed.

(** X6. An outcome that does not occur makes the 'survival_counts' insight
    raise: without a death (an empty dataset included) the lookup of the
    deaths raises [KeyError] 0, and with deaths but no survivor the lookup
    of the survivors raises [KeyError] 1. *)
Theorem survival_counts_needs_both_outcomes
    (df : DataFrame) (survived : Series) :
  lookup df "survived" = Some survived -> s_dtype survived = int64 ->
  Forall survival_flag (s_values survived) ->
  let died := count_of (VInt 0) (s_values survived) in
  let lived := count_of (VInt 1) (s_values survived) in
  (died = 0 ->
   run (update_visualization (Some "survival_counts")) df =
     inl (KeyError "0")) /\
  (0 < died -> lived = 0 ->
   run (update_visualization (Some "survival_counts")) df =
     inl (KeyError "1")).
Proof.
  intros Hs Hdt Hflags died lived.
  change (update_visualization (Some "survival_counts"))
    with survival_counts_insight.
  unfold run, survival_counts_insight. step. unfold getitem.
  rewrite Hs. cbn [ret]. step.
  unfold value_counts. rewrite Hdt.
  destruct (uniques_flags _ Hflags)
    as [(Hd & Hl & ->) | [(Hd & Hl & ->) | [(Hd & Hl & ->)
       | (Hd & Hl & _)]]];
    fold died in Hd; fold lived in Hl; split; intros; try lia;
    reflexivity.
Qed.

Lemma survival_counts_needs_both_outcomes_witness :
  run (update_visualization (Some "survival_counts")) all_survived =
    inl (KeyError "0") /\
  run (update_visualization (Some "survival_counts")) no_survivors =
    inl (KeyError "1").
Proof.
  split.
  - apply (survival_counts_needs_both_outcomes all_survived
             (mkSeries int64 [VInt 1; VInt 1])); try reflexivity.
    repeat (apply Forall_cons; [unfold survival_flag; auto|]).
    apply Forall_nil.
  - apply (survival_counts_needs_both_outcomes no_survivors
             (mkSeries int64 [VInt 0; VInt 0])); try reflexivity.
    + repeat (apply Forall_cons; [unfold survival_flag; auto|]).
      apply Forall_nil.
    + vm_compute. lia.
Defined.

Lemma of_nat_positive (n : nat) :
  0 < n -> Qeqb (inject_Z (Z.of_nat n)) 0 = false.
Proof.
  intros H. unfold Qeqb.
  destruct (Qcompare_spec (inject_Z (Z.of_nat n)) 0) as [E|E|E];
    try reflexivity.
  exfalso. unfold Qeq in E. simpl in E. lia.
Qed.

(** A share of a total, as a percentage, lies between 0 and 100. *)
Lemma rate_of_nat (k n : nat) :
  0 < n -> k <= n ->
  exists q, np_mul (np_div (of_nat k) (of_nat n)) (Fin 100) = Fin q /\
            (0 <= q <= 100)%Q.
Proof.
  intros Hn Hk. unfold of_nat, np_div. rewrite (of_nat_positive n Hn).
  eexists. split; [reflexivity|].
  rewrite !Qred_correct.
  assert (Hn' : (0 < inject_Z (Z.of_nat n))%Q)
    by (rewrite <- (Zlt_Qlt 0); lia).
  assert (Hk0 : (0 <= inject_Z (Z.of_nat k))%Q)
    by (rewrite <- (Zle_Qle 0); lia).
  assert (Hkn : (inject_Z (Z.of_nat k) <= inject_Z (Z.of_nat n))%Q)
    by (rewrite <- Zle_Qle; lia).
  assert (H0 : (0 <= inject_Z (Z.of_nat k) / inject_Z (Z.of_nat n))%Q)
    by (apply Qle_shift_div_l; [exact Hn'|lra]).
  assert (H1 : (inject_Z (Z.of_nat k) / inject_Z (Z.of_nat n) <= 1)%Q)
    by (apply Qle_shift_div_r; [exact Hn'|lra]).
  split; lra.
Qed.

(** X7. When both outcomes occur in a dataset of [n] records, the counts
    of the 'survival_counts' insight reconcile: the heights of the two
    bars add up to [n], the deaths and the survivors of the statistics add
    up to the total displayed with them, and the mortality and survival
    rates are percentages between 0 and 100. *)
Theorem survival_counts_reconcile
    (n : nat) (df : DataFrame) (survived : Series) :
  rectangular n df ->
  lookup df "survived" = Some survived -> s_dtype survived = int64 ->
  Forall survival_flag (s_values survived) ->
  0 < count_of (VInt 0) (s_values survived) ->
  0 < count_of (VInt 1) (s_values survived) ->
  exists fig description stats a b died lived qm qs odds,
    run (update_visualization (Some "survival_counts")) df =
      inr (fig, description, stats) /\
    map snd (bars fig) = [of_nat a; of_nat b] /\ a + b = n /\
    html_ints stats = [Z.of_nat n; Z.of_nat died; Z.of_nat lived] /\
    died + lived = n /\
    html_floats stats = [Fin qm; Fin qs; odds] /\
    (0 <= qm <= 100)%Q /\ (0 <= qs <= 100)%Q.
Proof.
  intros Hrect Hs Hdt Hflags Hd Hl.
  destruct (survival_value_counts survived Hdt Hflags Hd Hl)
    as (Hvalues & H0 & H1).
  pose proof (count_flags _ Hflags) as Hsum.
  pose proof (rectangular_lookup _ _ _ _ Hrect Hs) as Hlen.
  pose proof (rectangular_len _ _ _ _ Hrect Hs) as Hn.
  set (died := count_of (VInt 0) (s_values survived)) in *.
  set (lived := count_of (VInt 1) (s_values survived)) in *.
  assert (Hpos : 0 < n) by lia.
  destruct (rate_of_nat died n Hpos) as (qm & Hqm & Eqm); [lia|].
  destruct (rate_of_nat lived n Hpos) as (qs & Hqs & Eqs); [lia|].
  change (update_visualization (Some "survival_counts"))
    with survival_counts_insight.
  unfold run, survival_counts_insight. step. unfold getitem.
  rewrite Hs. cbn [ret]. step.
  rewrite H0. step. rewrite H1. step. rewrite Hn.
  exists
    (mkFigure
       [(Bar None ["Died"; "Survived"]
             (map of_nat (values (value_counts survived)))
             (map (fun k => [FInt "" (Z.of_nat k)])
                  (values (value_counts survived)))
             ["#e74c3c"; "#27ae60"], None)]
       "Overall Survival Counts" (Some "Outcome")
       (Some "Number of Passengers") None []).
  do 2 eexists.
  exists (if (died <? lived)%nat then lived else died),
         (if (died <? lived)%nat then died else lived),
         died, lived, qm, qs, (np_div (of_nat n) (of_nat lived)).
  split; [reflexivity|].
  split; [|split; [|split; [|split; [|split; [|split]]]]].
  - unfold bars. cbn [data map fst concat]. rewrite Hvalues.
    now destruct (died <? lived)%nat.
  - destruct (died <? lived)%nat; lia.
  - reflexivity.
  - lia.
  - rewrite Hqm, Hqs. reflexivity.
  - exact Eqm.
  - exact Eqs.
Qed.

Lemma survival_counts_reconcile_witness :
  exists fig description stats a b died lived qm qs odds,
    run (update_visualization (Some "survival_counts")) mostly_survived =
      inr (fig, description, stats) /\
    map snd (bars fig) = [of_nat a; of_nat b] /\ a + b = 3 /\
    html_ints stats = [Z.of_nat 3; Z.of_nat died; Z.of_nat lived] /\
    died + lived = 3 /\
    html_floats stats = [Fin qm; Fin qs; odds] /\
    (0 <= qm <= 100)%Q /\ (0 <= qs <= 100)%Q.
Proof.
  apply (survival_counts_reconcile 3 mostly_survived
           (mkSeries int64 [VInt 1; VInt 0; VInt 1])).
  - repeat constructor.
  - reflexivity.
  - reflexivity.
  - repeat (apply Forall_cons; [unfold survival_flag; auto|]).
    apply Forall_nil.
  - vm_compute. lia.
  - vm_compute. lia.
Defined.

(** ** Masks and the rows they select *)

Lemma length_select {A} (m : mask) (l : list A) :
  length m = length l -> length (select m l) = count_true m.
Proof.
  unfold count_true. revert l.
  induction m as [|b m IH]; intros [|x l]; simpl; try discriminate; auto.
  intros [= H]. destruct b; simpl; auto.
Qed.

Lemma length_cmp test s : length (cmp test s) = length (s_values s).
Proof. apply length_map. Qed.

Lemma length_eq_mask s c : length (eq s c) = length (s_values s).
Proof. apply length_map. Qed.

Lemma length_mand (a b : mask) :
  length a = length b -> length (mand a b) = length a.
Proof.
  revert b. induction a as [|x a IH]; intros [|y b]; simpl;
    try discriminate; auto.
Qed.

Lemma mand_cmp (t1 t2 : Q -> bool) (s : Series) :
  mand (cmp t1 s) (cmp t2 s) = cmp (fun x => t1 x && t2 x) s.
Proof.
  unfold cmp. induction (s_values s) as [|v vs IH]; simpl; [reflexivity|].
  rewrite IH. now destruct (to_Q v).
Qed.

(** [len(df[mask])] on a frame of [n] rows is the number of rows the mask
    selects. *)
Lemma len_rows (n : nat) (df : DataFrame) (m : mask) :
  rectangular n df -> df <> [] -> length m = n ->
  len (rows df m) = count_true m.
Proof.
  intros Hrect Hne Hm. destruct df as [|[k s] df]; [congruence|].
  inversion Hrect as [|? ? Hs _]; subst. simpl in *.
  apply length_select. congruence.
Qed.

Lemma count_true_le (m : mask) : count_true m <= length m.
Proof. apply filter_length_le. Qed.

(** Two tests that never hold together select disjoint rows. *)
Lemma count_true_disjoint (t1 t2 : Q -> bool) (s : Series) :
  (forall x, t1 x && t2 x = false) ->
  count_true (cmp t1 s) + count_true (cmp t2 s) <= length (s_values s).
Proof.
  intros H. unfold count_true, cmp.
  induction (s_values s) as [|v vs IH]; simpl; [lia|].
  destruct (to_Q v) as [x|]; simpl; [|lia].
  specialize (H x). destruct (t1 x), (t2 x); simpl in *; try discriminate; lia.
Qed.

(** ** The age distribution *)

Lemma percent_of_zero (k : nat) : percent_of k 0 = inl ZeroDivisionError.
Proof. reflexivity. Qed.

Lemma percent_of_positive (k n : nat) :
  0 < n -> exists p, percent_of k n = inr p.
Proof.
  intros H. unfold percent_of, py_div.
  destruct (Z.eqb_spec (Z.of_nat n) 0); [lia|]. simpl. eauto.
Qed.

(** X8. The 'age_distribution' insight divides the two counts by the
    number of records as Python integers: on a dataset without records it
    raises [ZeroDivisionError]; on any other dataset with an [age] column
    it answers, and the children (under 18) and the young adults (20 to
    40) it counts are disjoint groups, together at most all records. *)
Theorem age_distribution_needs_a_record
    (n : nat) (df : DataFrame) (age : Series) :
  rectangular n df -> lookup df "age" = Some age ->
  (n = 0 ->
   run (update_visualization (Some "age_distribution")) df =
     inl ZeroDivisionError) /\
  (0 < n ->
   exists fig description stats children young_adults,
     run (update_visualization (Some "age_distribution")) df =
       inr (fig, description, stats) /\
     html_ints stats = [Z.of_nat children; Z.of_nat young_adults] /\
     children = count_true (lt age 18) /\
     young_adults = count_true (mand (ge age 20) (lt age 40)) /\
     children + young_adults <= n).
Proof.
  intros Hrect Ha.
  pose proof (rectangular_len _ _ _ _ Hrect Ha) as Hn.
  pose proof (rectangular_lookup _ _ _ _ Hrect Ha) as Hlen.
  assert (Hne : df <> []) by (intros ->; discriminate Ha).
  change (update_visualization (Some "age_distribution"))
    with age_distribution_insight.
  unfold run, age_distribution_insight. step. unfold px_col, getitem.
  rewrite Ha. cbn [ret]. step.
  rewrite !(len_rows n df) by
    (auto; unfold lt, ge; rewrite ?length_mand, ?length_cmp;
     rewrite ?length_cmp; auto).
  rewrite Hn. split.
  - intros ->. reflexivity.
  - intros Hpos.
    destruct (percent_of_positive (count_true (lt age 18)) n Hpos)
      as [pc Hpc].
    destruct (percent_of_positive
                (count_true (mand (ge age 20) (lt age 40))) n Hpos)
      as [py Hpy].
    rewrite Hpc. step. rewrite Hpy. step.
    do 3 eexists.
    exists (count_true (lt age 18)), (count_true (mand (ge age 20) (lt age 40))).
    split; [reflexivity|]. split; [reflexivity|].
    split; [reflexivity|]. split; [reflexivity|].
    unfold lt, ge. rewrite mand_cmp. rewrite <- Hlen.
    apply count_true_disjoint. intros x.
    destruct (Qltb x 18) eqn:E1; [|reflexivity].
    destruct (Qleb 20 x) eqn:E2; [|reflexivity]. exfalso.
    apply Qltb_lt in E1. unfold Qleb in E2.
    destruct (Qcompare_spec 20 x) as [E|E|E]; try discriminate; lra.
Qed.

Lemma age_distribution_needs_a_record_witness :
  run (update_visualization (Some "age_distribution"))
      [("age", mkSeries float64 [])] = inl ZeroDivisionError /\
  exists fig description stats children young_adults,
    run (update_visualization (Some "age_distribution")) (prepared scenario) =
      inr (fig, description, stats) /\
    html_ints stats = [Z.of_nat children; Z.of_nat young_adults] /\
    children = count_true (lt (mkSeries float64 [VFloat 30; VFloat 8; VFloat 40]) 18) /\
    young_adults =
      count_true (mand (ge (mkSeries float64 [VFloat 30; VFloat 8; VFloat 40]) 20)
                       (lt (mkSeries float64 [VFloat 30; VFloat 8; VFloat 40]) 40)) /\
    children + young_adults <= 3.
Proof.
  split.
  - apply (age_distribution_needs_a_record 0 [("age", mkSeries float64 [])]
             (mkSeries float64 [])); try reflexivity.
    repeat constructor.
  - apply (age_distribution_needs_a_record 3 (prepared scenario)
             (mkSeries float64 [VFloat 30; VFloat 8; VFloat 40]));
      try reflexivity; [|lia].
    vm_compute. repeat constructor.
Defined.

(** ** The gender insight *)

Lemma uniques_genders (vs : list value) :
  Forall gender_value vs ->
  let women := count_of (VStr "female") vs in
  let men := count_of (VStr "male") vs in
  (women = 0 /\ men = 0 /\ uniques vs = []) \/
  (0 < women /\ men = 0 /\ uniques vs = [VStr "female"]) \/
  (women = 0 /\ 0 < men /\ uniques vs = [VStr "male"]) \/
  (0 < women /\ 0 < men /\
   (uniques vs = [VStr "female"; VStr "male"] \/
    uniques vs = [VStr "male"; VStr "female"])).
Proof.
  unfold count_of.
  induction 1 as [|v vs Hv _ IH]; simpl; [auto|].
  destruct Hv as [-> | ->]; simpl;
    destruct IH as [(Hd & Hl & ->) | [(Hd & Hl & ->) | [(Hd & Hl & ->)
                   | (Hd & Hl & [-> | ->])]]];
    simpl; rewrite ?Hd, ?Hl; intuition lia.
Qed.

(** The group keys of the [sex] column: the genders that occur, women
    first. *)
Lemma gender_group_keys (sex : Series) :
  s_dtype sex = object -> Forall gender_value (s_values sex) ->
  let women := count_of (VStr "female") (s_values sex) in
  let men := count_of (VStr "male") (s_values sex) in
  group_keys observed_default sex =
    (if (0 <? women)%nat then ["female"] else []) ++
    (if (0 <? men)%nat then ["male"] else []).
Proof.
  intros Hdt Hg women men. unfold group_keys. rewrite Hdt.
  destruct (uniques_genders _ Hg)
    as [(Hw & Hm & ->) | [(Hw & Hm & ->) | [(Hw & Hm & ->)
       | (Hw & Hm & [-> | ->])]]];
    fold women in Hw; fold men in Hm;
    destruct (Nat.ltb_spec 0 women), (Nat.ltb_spec 0 men); try lia;
    reflexivity.
Qed.

(** X9. In the 'gender_survival' insight the fixed labels of the bars
    agree with the data: on a dataset with women and men the bar labelled
    'Female' shows the survival rate of the women and the bar labelled
    'Male' that of the men. *)
Theorem gender_bars_match_their_labels
    (df : DataFrame) (sex survived : Series) :
  lookup df "sex" = Some sex -> s_dtype sex = object ->
  Forall gender_value (s_values sex) ->
  0 < count_of (VStr "female") (s_values sex) ->
  0 < count_of (VStr "male") (s_values sex) ->
  lookup df "survived" = Some survived ->
  exists fig description stats,
    run (update_visualization (Some "gender_survival")) df =
      inr (fig, description, stats) /\
    bars fig = [ ("Female", agg_mean (group sex "female" survived));
                 ("Male", agg_mean (group sex "male" survived)) ].
Proof.
  intros Hsex Hdt Hg Hw Hm Hs.
  pose proof (gender_group_keys sex Hdt Hg) as Hkeys. cbv zeta in Hkeys.
  destruct (Nat.ltb_spec 0 (count_of (VStr "female") (s_values sex)));
    [|lia].
  destruct (Nat.ltb_spec 0 (count_of (VStr "male") (s_values sex))); [|lia].
  simpl in Hkeys.
  change (update_visualization (Some "gender_survival"))
    with gender_survival_insight.
  unfold run, gender_survival_insight. step.
  unfold groupby_apply, groupby_size, getitem. rewrite Hsex, Hs.
  cbn [bind ret]. rewrite Hkeys. cbn [map]. step.
  cbn [loc String.eqb Ascii.eqb Bool.eqb bind ret]. step.
  do 3 eexists. split; reflexivity.
Qed.

Lemma gender_bars_match_their_labels_witness :
  exists fig description stats,
    run (update_visualization (Some "gender_survival")) mostly_survived =
      inr (fig, description, stats) /\
    bars fig =
      [ ("Female",
         agg_mean (group (mkSeries object [VStr "male"; VStr "female"; VStr "female"])
                         "female" (mkSeries int64 [VInt 1; VInt 0; VInt 1])));
        ("Male",
         agg_mean (group (mkSeries object [VStr "male"; VStr "female"; VStr "female"])
                         "male" (mkSeries int64 [VInt 1; VInt 0; VInt 1]))) ].
Proof.
  apply (gender_bars_match_their_labels mostly_survived); try reflexivity.
  - repeat (apply Forall_cons; [unfold gender_value; auto|]). apply Forall_nil.
  - vm_compute. lia.
  - vm_compute. lia.
Defined.

(** X10. A gender that does not occur makes the 'gender_survival' insight
    raise: without a woman in the dataset (an empty dataset included) the
    lookup of the women raises [KeyError], and with women but no man so
    does the lookup of the men. *)
Theorem gender_survival_needs_both_genders
    (df : DataFrame) (sex survived : Series) :
  lookup df "sex" = Some sex -> s_dtype sex = object ->
  Forall gender_value (s_values sex) ->
  lookup df "survived" = Some survived ->
  (count_of (VStr "female") (s_values sex) = 0 ->
   run (update_visualization (Some "gender_survival")) df =
     inl (KeyError "female")) /\
  (0 < count_of (VStr "female") (s_values sex) ->
   count_of (VStr "male") (s_values sex) = 0 ->
   run (update_visualization (Some "gender_survival")) df =
     inl (KeyError "male")).
Proof.
  intros Hsex Hdt Hg Hs.
  pose proof (gender_group_keys sex Hdt Hg) as Hkeys. cbv zeta in Hkeys.
  change (update_visualization (Some "gender_survival"))
    with gender_survival_insight.
  unfold run, gender_survival_insight. step.
  unfold groupby_apply, groupby_size, getitem. rewrite Hsex, Hs.
  cbn [bind ret]. rewrite Hkeys.
  split.
  - intros ->. cbn [Nat.ltb Nat.leb app].
    destruct (count_of (VStr "male") (s_values sex)); reflexivity.
  - intros Hw ->. destruct (Nat.ltb_spec 0 (count_of (VStr "female") (s_values sex)));
      [|lia].
    reflexivity.
Qed.

Lemma gender_survival_needs_both_genders_witness :
  run (update_visualization (Some "gender_survival"))
      [ ("survived", mkSeries int64 [VInt 1]);
        ("sex", mkSeries object [VStr "male"]) ] = inl (KeyError "female") /\
  run (update_visualization (Some "gender_survival"))
      [ ("survived", mkSeries int64 [VInt 1]);
        ("sex", mkSeries object [VStr "female"]) ] = inl (KeyError "male").
Proof.
  split.
  - apply (gender_survival_needs_both_genders _ (mkSeries object [VStr "male"])
             (mkSeries int64 [VInt 1])); try reflexivity.
    repeat (apply Forall_cons; [unfold gender_value; auto|]). apply Forall_nil.
  - apply (gender_survival_needs_both_genders _ (mkSeries object [VStr "female"])
             (mkSeries int64 [VInt 1])); try reflexivity.
    + repeat (apply Forall_cons; [unfold gender_value; auto|]). apply Forall_nil.
    + vm_compute. lia.
Defined.

(** ** The class insights *)

Lemma count_true_classes (vs : list value) (dt : dtype) :
  Forall class_value vs ->
  count_true (eq (mkSeries dt vs) (VStr "First")) +
  count_true (eq (mkSeries dt vs) (VStr "Second")) +
  count_true (eq (mkSeries dt vs) (VStr "Third")) = length vs.
Proof.
  unfold count_true, eq. simpl.
  induction 1 as [|v vs Hv _ IH]; simpl; [reflexivity|].
  destruct Hv as [-> | [-> | ->]]; simpl;
    rewrite ?Nat.add_succ_r, ?Nat.add_succ_l; f_equal; exact IH.
Qed.

(** The survivors of a group are at most its members. *)
Lemma agg_sum_select_flags (m : mask) (vs : list value) :
  Forall survival_flag vs -> length m = length vs ->
  (0 <= agg_sum (select m vs) <= Z.of_nat (count_true m))%Z.
Proof.
  unfold agg_sum, count_true. intros Hf. revert m.
  induction Hf as [|v vs Hv _ IH]; intros [|b m]; try discriminate.
  - simpl. lia.
  - intros [= Hlen]. specialize (IH m Hlen).
    remember (length (filter id m)) as k eqn:Ek.
    remember (fold_right Z.add 0%Z (map to_Z (select m vs))) as t eqn:Et.
    destruct b; cbn [select filter id map fold_right length];
      rewrite <- ?Ek, <- ?Et; [|exact IH].
    rewrite Nat2Z.inj_succ.
    destruct Hv as [-> | ->]; cbn [to_Z]; lia.
Qed.

(** X11. The 'survival_by_class' insight answers on every dataset whose
    [class] column is the categorical over First, Second and Third, an
    empty dataset included; its bars are the three classes in this order,
    the class sizes it displays add up to the number of records, and the
    survivors it displays for a class are between zero and the size of
    the class. *)
Theorem survival_by_class_reconciles
    (n : nat) (df : DataFrame) (cls survived : Series) :
  rectangular n df ->
  lookup df "class" = Some cls -> s_dtype cls = class_dtype ->
  Forall class_value (s_values cls) ->
  lookup df "survived" = Some survived ->
  Forall survival_flag (s_values survived) ->
  exists fig description stats s1 c1 s2 c2 s3 c3,
    run (update_visualization (Some "survival_by_class")) df =
      inr (fig, description, stats) /\
    map fst (bars fig) = ["First"; "Second"; "Third"] /\
    html_ints stats = [s1; Z.of_nat c1; s2; Z.of_nat c2; s3; Z.of_nat c3] /\
    c1 + c2 + c3 = n /\
    (0 <= s1 <= Z.of_nat c1)%Z /\ (0 <= s2 <= Z.of_nat c2)%Z /\
    (0 <= s3 <= Z.of_nat c3)%Z.
Proof.
  intros Hrect Hc Hdt Hcv Hs Hflags.
  pose proof (rectangular_lookup _ _ _ _ Hrect Hc) as Hlc.
  pose proof (rectangular_lookup _ _ _ _ Hrect Hs) as Hls.
  change (update_visualization (Some "survival_by_class"))
    with survival_by_class_insight.
  unfold run, survival_by_class_insight. step.
  unfold groupby_apply, groupby_size, getitem. rewrite Hc, Hs.
  cbn [bind ret]. unfold group_keys, observed_default. rewrite Hdt.
  cbn [class_dtype map]. step.
  cbn [loc String.eqb Ascii.eqb Bool.eqb bind ret]. step.
  do 3 eexists.
  exists (agg_sum (group cls "First" survived)),
         (length (filter id (eq cls (VStr "First")))),
         (agg_sum (group cls "Second" survived)),
         (length (filter id (eq cls (VStr "Second")))),
         (agg_sum (group cls "Third" survived)),
         (length (filter id (eq cls (VStr "Third")))).
  split; [reflexivity|]. split; [reflexivity|]. split; [reflexivity|].
  split.
  - destruct cls as [dt vs]. simpl in *.
    rewrite <- Hlc. apply (count_true_classes vs dt Hcv).
  - unfold group.
    repeat split;
      apply (agg_sum_select_flags _ _ Hflags);
      rewrite length_eq_mask; congruence.
Qed.

Lemma survival_by_class_reconciles_witness :
  exists fig description stats s1 c1 s2 c2 s3 c3,
    run (update_visualization (Some "survival_by_class")) no_first_class =
      inr (fig, description, stats) /\
    map fst (bars fig) = ["First"; "Second"; "Third"] /\
    html_ints stats = [s1; Z.of_nat c1; s2; Z.of_nat c2; s3; Z.of_nat c3] /\
    c1 + c2 + c3 = 3 /\
    (0 <= s1 <= Z.of_nat c1)%Z /\ (0 <= s2 <= Z.of_nat c2)%Z /\
    (0 <= s3 <= Z.of_nat c3)%Z.
Proof.
  apply (survival_by_class_reconciles 3 no_first_class
           (mkSeries class_dtype [VStr "Third"; VStr "Second"; VStr "Second"])
           (mkSeries int64 [VInt 1; VInt 0; VInt 1])); try reflexivity.
  - repeat constructor.
  - repeat (apply Forall_cons; [unfold class_value; auto|]). apply Forall_nil.
  - repeat (apply Forall_cons; [unfold survival_flag; auto|]). apply Forall_nil.
Defined.

(** ** The heatmap *)

Lemma Qleb_le a b : Qleb a b = true <-> (a <= b)%Q.
Proof.
  unfold Qleb. rewrite Qle_alt. destruct (a ?= b)%Q; split; congruence.
Qed.

Lemma fold_left_max (xs : list Q) (acc : Q) :
  let r := fold_left (fun m y => if Qltb m y then y else m) xs acc in
  (r = acc \/ In r xs) /\ (acc <= r)%Q /\ forall x, In x xs -> (x <= r)%Q.
Proof.
  revert acc. induction xs as [|y xs IH]; intros acc; simpl.
  - repeat split; auto; try lra. contradiction.
  - destruct (Qltb acc y) eqn:E.
    + destruct (IH y) as (Hin & Hle & Hall). apply Qltb_lt in E.
      repeat split.
      * destruct Hin as [->|Hin]; auto.
      * lra.
      * intros x [<-|Hx]; auto.
    + destruct (IH acc) as (Hin & Hle & Hall). apply Qltb_ge in E.
      repeat split.
      * destruct Hin as [->|Hin]; auto.
      * exact Hle.
      * intros x [<-|Hx]; auto. lra.
Qed.

Lemma fold_left_min (xs : list Q) (acc : Q) :
  let r := fold_left (fun m y => if Qltb y m then y else m) xs acc in
  (r = acc \/ In r xs) /\ (r <= acc)%Q /\ forall x, In x xs -> (r <= x)%Q.
Proof.
  revert acc. induction xs as [|y xs IH]; intros acc; simpl.
  - repeat split; auto; try lra. contradiction.
  - destruct (Qltb y acc) eqn:E.
    + destruct (IH y) as (Hin & Hle & Hall). apply Qltb_lt in E.
      repeat split.
      * destruct Hin as [->|Hin]; auto.
      * lra.
      * intros x [<-|Hx]; auto.
    + destruct (IH acc) as (Hin & Hle & Hall). apply Qltb_ge in E.
      repeat split.
      * destruct Hin as [->|Hin]; auto.
      * exact Hle.
      * intros x [<-|Hx]; auto. lra.
Qed.

Lemma max_of_spec (xs : list Q) :
  xs <> [] ->
  exists m, max_of xs = Fin m /\ In m xs /\ forall x, In x xs -> (x <= m)%Q.
Proof.
  destruct xs as [|x xs]; [congruence|]. intros _. simpl.
  destruct (fold_left_max xs x) as (Hin & Hle & Hall).
  eexists. split; [reflexivity|]. split.
  - destruct Hin as [->|Hin]; auto.
  - intros y [<-|Hy]; auto.
Qed.

Lemma min_of_spec (xs : list Q) :
  xs <> [] ->
  exists m, min_of xs = Fin m /\ In m xs /\ forall x, In x xs -> (m <= x)%Q.
Proof.
  destruct xs as [|x xs]; [congruence|]. intros _. simpl.
  destruct (fold_left_min xs x) as (Hin & Hle & Hall).
  eexists. split; [reflexivity|]. split.
  - destruct Hin as [->|Hin]; auto.
  - intros y [<-|Hy]; auto.
Qed.

Lemma fold_left_argmax {K} (s : list (K * Q)) (acc : K * Q) :
  let r := fold_left (fun m y => if Qltb (snd m) (snd y) then y else m) s acc in
  (r = acc \/ In r s) /\ (snd acc <= snd r)%Q /\
  forall y, In y s -> (snd y <= snd r)%Q.
Proof.
  revert acc. induction s as [|y s IH]; intros acc; simpl.
  - repeat split; auto; try lra. contradiction.
  - destruct (Qltb (snd acc) (snd y)) eqn:E.
    + destruct (IH y) as (Hin & Hle & Hall). apply Qltb_lt in E.
      repeat split.
      * destruct Hin as [->|Hin]; auto.
      * lra.
      * intros x [<-|Hx]; auto.
    + destruct (IH acc) as (Hin & Hle & Hall). apply Qltb_ge in E.
      repeat split.
      * destruct Hin as [->|Hin]; auto.
      * exact Hle.
      * intros x [<-|Hx]; auto. lra.
Qed.

Lemma fold_left_argmin {K} (s : list (K * Q)) (acc : K * Q) :
  let r := fold_left (fun m y => if Qltb (snd y) (snd m) then y else m) s acc in
  (r = acc \/ In r s) /\ (snd r <= snd acc)%Q /\
  forall y, In y s -> (snd r <= snd y)%Q.
Proof.
  revert acc. induction s as [|y s IH]; intros acc; simpl.
  - repeat split; auto; try lra. contradiction.
  - destruct (Qltb (snd y) (snd acc)) eqn:E.
    + destruct (IH y) as (Hin & Hle & Hall). apply Qltb_lt in E.
      repeat split.
      * destruct Hin as [->|Hin]; auto.
      * lra.
      * intros x [<-|Hx]; auto.
    + destruct (IH acc) as (Hin & Hle & Hall). apply Qltb_ge in E.
      repeat split.
      * destruct Hin as [->|Hin]; auto.
      * exact Hle.
      * intros x [<-|Hx]; auto. lra.
Qed.

(** [idxmax] names an entry whose value no other entry exceeds. *)
Lemma idxmax_spec {K} (s : list (K * Q)) :
  s <> [] ->
  exists k q, idxmax s = inr k /\ In (k, q) s /\
              forall y, In y s -> (snd y <= q)%Q.
Proof.
  destruct s as [|x s]; [congruence|]. intros _. unfold idxmax, idx_first.
  destruct (fold_left_argmax s x) as (Hin & Hle & Hall).
  set (r := fold_left _ s x) in *.
  exists (fst r), (snd r). split; [reflexivity|]. split.
  - rewrite <- surjective_pairing. destruct Hin as [->|Hin]; simpl; auto.
  - intros y [<-|Hy]; auto.
Qed.

Lemma idxmin_spec {K} (s : list (K * Q)) :
  s <> [] ->
  exists k q, idxmin s = inr k /\ In (k, q) s /\
              forall y, In y s -> (q <= snd y)%Q.
Proof.
  destruct s as [|x s]; [congruence|]. intros _. unfold idxmin, idx_first.
  destruct (fold_left_argmin s x) as (Hin & Hle & Hall).
  set (r := fold_left _ s x) in *.
  exists (fst r), (snd r). split; [reflexivity|]. split.
  - rewrite <- surjective_pairing. destruct Hin as [->|Hin]; simpl; auto.
  - intros y [<-|Hy]; auto.
Qed.

(** The stacked pivot holds the finite cells of the grid. *)
Lemma stack_row_values (cols : list string) (a : string) (row : list float) :
  length row = length cols ->
  map snd
    (concat
       (map (fun cd : string * float =>
               match snd cd with
               | Fin q => [((a, fst cd), q)]
               | _ => []
               end) (combine cols row))) = finite row.
Proof.
  revert row. induction cols as [|c cols IH]; intros [|x row]; simpl;
    try discriminate; auto.
  intros [= H]. rewrite map_app, (IH row H). now destruct x.
Qed.

Lemma stack_values (p : Pivot) :
  length (p_data p) = length (p_index p) ->
  Forall (fun row => length row = length (p_columns p)) (p_data p) ->
  map snd (stack p) = finite (concat (p_data p)).
Proof.
  unfold stack. destruct p as [idx cols data]. simpl. revert idx.
  induction data as [|row data IH]; intros [|a idx]; simpl;
    try discriminate; auto.
  intros [= Hlen] Hrows. inversion Hrows as [|? ? Hrow Hdata]; subst.
  rewrite map_app, (IH idx Hlen Hdata), (stack_row_values cols a row Hrow).
  clear. induction row as [|x row IH]; simpl; [reflexivity|].
  destruct x; simpl; now rewrite ?IH.
Qed.

Lemma pivot_mean_obs_shape (observed : bool) (r c t : Series) :
  let p := pivot_mean_obs observed r c t in
  length (p_data p) = length (p_index p) /\
  Forall (fun row => length row = length (p_columns p)) (p_data p).
Proof.
  unfold pivot_mean_obs. simpl. split.
  - apply length_map.
  - apply Forall_forall. intros row Hrow.
    apply in_map_iff in Hrow as (a & <- & _). apply length_map.
Qed.

(** X12. The 'age_class_heatmap' insight answers exactly when some age
    group and class have a record in common: with no such cell it raises
    [ValueError] on the empty stacked pivot; otherwise the combination it
    names as best is a cell whose rate is the best rate it displays, the
    one it names as worst a cell with the worst rate, every cell lies
    between the two, and the gap it displays is their difference. *)
Theorem heatmap_names_the_extreme_cells (df : DataFrame) (p : Pivot) :
  pivot_mean df "age_grouped" "class" "survived" = inr p ->
  (stack p = [] ->
   run (update_visualization (Some "age_class_heatmap")) df =
     inl (ValueError "attempt to get argmax of an empty sequence")) /\
  (stack p <> [] ->
   exists fig description stats best worst qb qw,
     run (update_visualization (Some "age_class_heatmap")) df =
       inr (fig, description, stats) /\
     html_strs stats = [fst best; snd best; fst worst; snd worst] /\
     html_floats stats = [Fin qb; Fin qw; Fin (Qred (qb - qw))] /\
     (exists q, In (best, q) (stack p) /\ (q == qb)%Q) /\
     (exists q, In (worst, q) (stack p) /\ (q == qw)%Q) /\
     (forall cell, In cell (stack p) -> (qw <= snd cell <= qb)%Q)).
Proof.
  intros Hp.
  change (update_visualization (Some "age_class_heatmap"))
    with age_class_heatmap_insight.
  unfold run, age_class_heatmap_insight. step. rewrite Hp. step.
  split.
  - intros ->. reflexivity.
  - intros Hne.
    assert (Hvals : map snd (stack p) = finite (concat (p_data p))).
    { unfold pivot_mean in Hp.
      apply bind_inr in Hp as (rs & _ & Hp).
      apply bind_inr in Hp as (cs & _ & Hp).
      apply bind_inr in Hp as (ts & _ & Hp).
      injection Hp as <-.
      destruct (pivot_mean_obs_shape observed_default rs cs ts) as [H1 H2].
      now apply stack_values. }
    assert (Hfin : finite (concat (p_data p)) <> []).
    { rewrite <- Hvals. destruct (stack p); [congruence|discriminate]. }
    destruct (max_of_spec _ Hfin) as (qb & Hmax & Hinb & Hallb).
    destruct (min_of_spec _ Hfin) as (qw & Hmin & Hinw & Hallw).
    destruct (idxmax_spec (stack p) Hne) as (best & q1 & Hbest & Hin1 & Hall1).
    destruct (idxmin_spec (stack p) Hne) as (worst & q2 & Hworst & Hin2 & Hall2).
    rewrite Hbest. step. rewrite Hworst. step.
    unfold pivot_max, pivot_min. rewrite Hmax, Hmin.
    exists
      (mkFigure [(PxImshow p ".2f", None)]
         "Survival Rate Heatmap: Age Group vs Class" None None None []).
    eexists. eexists. exists best, worst, qb, qw.
    split; [reflexivity|]. split; [reflexivity|]. split; [reflexivity|].
    assert (Hcell : forall cell, In cell (stack p) ->
                                 In (snd cell) (finite (concat (p_data p)))).
    { intros cell Hc. rewrite <- Hvals. now apply in_map. }
    assert (Hback : forall q, In q (finite (concat (p_data p))) ->
                              exists cell, In cell (stack p) /\ snd cell = q).
    { intros q Hq. rewrite <- Hvals in Hq.
      apply in_map_iff in Hq as (cell & <- & Hc). eauto. }
    split; [|split].
    + exists q1. split; [exact Hin1|].
      apply Qle_antisym.
      * apply (Hallb q1). exact (Hcell _ Hin1).
      * destruct (Hback qb Hinb) as (cell & Hc & <-). exact (Hall1 _ Hc).
    + exists q2. split; [exact Hin2|].
      apply Qle_antisym.
      * destruct (Hback qw Hinw) as (cell & Hc & <-). exact (Hall2 _ Hc).
      * apply (Hallw q2). exact (Hcell _ Hin2).
    + intros cell Hc. split; [apply Hallw|apply Hallb]; auto.
Qed.

Lemma heatmap_names_the_extreme_cells_witness :
  run (update_visualization (Some "age_class_heatmap"))
      [ ("age_grouped", mkSeries (category age_labels) []);
        ("class", mkSeries class_dtype []);
        ("survived", mkSeries int64 []) ] =
    inl (ValueError "attempt to get argmax of an empty sequence") /\
  exists fig description stats best worst qb qw,
    run (update_visualization (Some "age_class_heatmap")) (prepared scenario) =
      inr (fig, description, stats) /\
    html_strs stats = [fst best; snd best; fst worst; snd worst] /\
    html_floats stats = [Fin qb; Fin qw; Fin (Qred (qb - qw))] /\
    (exists q,
        In (best, q)
           (stack (pivot_mean_obs observed_default
                     (mkSeries (category age_labels)
                               [VStr "Adult"; VStr "Child"; VStr "Adult"])
                     (mkSeries class_dtype
                               [VStr "Third"; VStr "First"; VStr "Second"])
                     (mkSeries int64 [VInt 0; VInt 1; VInt 0]))) /\
        (q == qb)%Q) /\
    (exists q,
        In (worst, q)
           (stack (pivot_mean_obs observed_default
                     (mkSeries (category age_labels)
                               [VStr "Adult"; VStr "Child"; VStr "Adult"])
                     (mkSeries class_dtype
                               [VStr "Third"; VStr "First"; VStr "Second"])
                     (mkSeries int64 [VInt 0; VInt 1; VInt 0]))) /\
        (q == qw)%Q) /\
    (forall cell,
        In cell
           (stack (pivot_mean_obs observed_default
                     (mkSeries (category age_labels)
                               [VStr "Adult"; VStr "Child"; VStr "Adult"])
                     (mkSeries class_dtype
                               [VStr "Third"; VStr "First"; VStr "Second"])
                     (mkSeries int64 [VInt 0; VInt 1; VInt 0]))) ->
        (qw <= snd cell <= qb)%Q).
Proof.
  split.
  - apply (heatmap_names_the_extreme_cells
             [ ("age_grouped", mkSeries (category age_labels) []);
               ("class", mkSeries class_dtype []);
               ("survived", mkSeries int64 []) ]
             (pivot_mean_obs observed_default
                (mkSeries (category age_labels) [])
                (mkSeries class_dtype []) (mkSeries int64 [])));
      reflexivity.
  - apply (heatmap_names_the_extreme_cells (prepared scenario));
      [reflexivity|]. vm_compute. discriminate.
Defined.

(** ** calculate_survival_metrics *)

Lemma count_true_genders (vs : list value) (dt : dtype) :
  Forall gender_value vs ->
  count_true (eq (mkSeries dt vs) (VStr "female")) =
    count_of (VStr "female") vs /\
  count_true (eq (mkSeries dt vs) (VStr "male")) = count_of (VStr "male") vs /\
  count_of (VStr "female") vs + count_of (VStr "male") vs = length vs.
Proof.
  unfold count_true, count_of, eq. simpl.
  induction 1 as [|v vs Hv _ (IH1 & IH2 & IH3)]; simpl; [auto|].
  destruct Hv as [-> | ->]; simpl; rewrite ?IH1, ?IH2;
    rewrite ?Nat.add_succ_r, ?Nat.add_succ_l; rewrite ?IH3; auto.
Qed.

Lemma numeric_flags (vs : list value) :
  Forall survival_flag vs ->
  length (numeric vs) = length vs /\
  Qsum (numeric vs) = inject_Z (agg_sum vs) /\
  (0 <= agg_sum vs <= Z.of_nat (length vs))%Z.
Proof.
  unfold agg_sum. induction 1 as [|v vs Hv _ (IH1 & IH2 & IH3)].
  - simpl. repeat split; try reflexivity; lia.
  - rewrite length_cons, Nat2Z.inj_succ.
    remember (fold_right Z.add 0%Z (map to_Z vs)) as t eqn:Et.
    destruct Hv as [-> | ->];
      cbn [to_Q numeric length to_Z Qsum fold_right map];
      rewrite <- Et; fold (Qsum (numeric vs)); rewrite IH1, IH2.
    + split; [reflexivity|]. split; [|lia].
      unfold Qplus, inject_Z. cbn [Qnum Qden]. f_equal. lia.
    + split; [reflexivity|]. split; [|lia].
      unfold Qplus, inject_Z. cbn [Qnum Qden]. f_equal. lia.
Qed.

(** X13. The metrics reconcile on a dataset of [n] records with survival
    flags, the three classes and the two genders: the function answers,
    the survivors are at most the passengers, the class sizes and the
    gender sizes each add up to the passengers, and the survival rate is
    a number between 0 and 1 (it is NaN when there is no passenger). *)
Theorem calculate_survival_metrics_reconcile
    (n : nat) (df : DataFrame) (survived cls sex age : Series) :
  rectangular n df ->
  lookup df "survived" = Some survived ->
  Forall survival_flag (s_values survived) ->
  lookup df "class" = Some cls -> s_dtype cls = class_dtype ->
  Forall class_value (s_values cls) ->
  lookup df "sex" = Some sex -> s_dtype sex = object ->
  Forall gender_value (s_values sex) ->
  lookup df "age" = Some age ->
  exists m,
    calculate_survival_metrics df = inr m /\
    m_total_passengers m = n /\
    (0 <= m_total_survivors m <= Z.of_nat n)%Z /\
    total (m_class_counts m) = n /\
    total (m_gender_counts m) = n /\
    (n = 0 -> m_survival_rate m = NaN) /\
    (0 < n -> exists q, m_survival_rate m = Fin q /\ (0 <= q <= 1)%Q).
Proof.
  intros Hrect Hs Hflags Hc Hcdt Hcv Hg Hgdt Hgv Ha.
  pose proof (rectangular_len _ _ _ _ Hrect Hs) as Hn.
  pose proof (rectangular_lookup _ _ _ _ Hrect Hs) as Hls.
  pose proof (rectangular_lookup _ _ _ _ Hrect Hc) as Hlc.
  pose proof (rectangular_lookup _ _ _ _ Hrect Hg) as Hlg.
  destruct (numeric_flags _ Hflags) as (Hnum & Hsum & Hbound).
  unfold calculate_survival_metrics, groupby_mean, groupby_apply,
    groupby_size, getitem.
  rewrite Hs, Hc, Hg, Ha. cbn [bind ret].
  eexists. split; [reflexivity|]. cbn [m_total_passengers m_total_survivors
    m_class_counts m_gender_counts m_survival_rate].
  split; [exact Hn|]. split; [now rewrite <- Hls|]. split; [|split; [|split]].
  - unfold group_keys, observed_default, total, values. rewrite Hcdt.
    cbn [class_dtype map snd fold_right]. rewrite Nat.add_0_r, Nat.add_assoc.
    destruct cls as [dt vs]. simpl in *. rewrite <- Hlc.
    apply (count_true_classes vs dt Hcv).
  - rewrite (gender_group_keys sex Hgdt Hgv). unfold total, values.
    destruct sex as [dt vs]. simpl in *.
    destruct (count_true_genders vs dt Hgv) as (Ef & Em & Esum).
    unfold count_true in Ef, Em.
    destruct (Nat.ltb_spec 0 (count_of (VStr "female") vs)),
             (Nat.ltb_spec 0 (count_of (VStr "male") vs));
      cbn [app map snd fold_right]; rewrite ?Ef, ?Em; lia.
  - intros ->. unfold mean, mean_of.
    destruct (numeric (s_values survived)) eqn:E; [reflexivity|].
    simpl in Hnum. lia.
  - intros Hpos. unfold mean, mean_of.
    destruct (numeric (s_values survived)) as [|x xs] eqn:E.
    { simpl in Hnum. lia. }
    eexists. split; [reflexivity|].
    rewrite Qred_correct, Hsum, Hnum, Hls.
    rewrite Hls in Hbound.
    assert (Hn' : (0 < inject_Z (Z.of_nat n))%Q)
      by (rewrite <- (Zlt_Qlt 0); lia).
    assert (H0 : (0 <= inject_Z (agg_sum (s_values survived)))%Q)
      by (rewrite <- (Zle_Qle 0); lia).
    assert (H1 : (inject_Z (agg_sum (s_values survived)) <=
                  inject_Z (Z.of_nat n))%Q)
      by (rewrite <- Zle_Qle; lia).
    split.
    + apply Qle_shift_div_l; [exact Hn'|lra].
    + apply Qle_shift_div_r; [exact Hn'|lra].
Qed.

Lemma calculate_survival_metrics_reconcile_witness :
  exists m,
    calculate_survival_metrics mostly_survived = inr m /\
    m_total_passengers m = 3 /\
    (0 <= m_total_survivors m <= Z.of_nat 3)%Z /\
    total (m_class_counts m) = 3 /\
    total (m_gender_counts m) = 3 /\
    (3 = 0 -> m_survival_rate m = NaN) /\
    (0 < 3 -> exists q, m_survival_rate m = Fin q /\ (0 <= q <= 1)%Q).
Proof.
  apply (calculate_survival_metrics_reconcile 3 mostly_survived
           (mkSeries int64 [VInt 1; VInt 0; VInt 1])
           (mkSeries class_dtype [VStr "Third"; VStr "First"; VStr "First"])
           (mkSeries object [VStr "male"; VStr "female"; VStr "female"])
           (mkSeries float64 [VFloat 30; VFloat 25; VFloat 61]));
    try reflexivity.
  - repeat constructor.
  - repeat (apply Forall_cons; [unfold survival_flag; auto|]). apply Forall_nil.
  - repeat (apply Forall_cons; [unfold class_value; auto|]). apply Forall_nil.
  - repeat (apply Forall_cons; [unfold gender_value; auto|]). apply Forall_nil.
Defined.

Lemma metrics_age_bins_sorted : StronglySorted Qlt metrics_age_bins.
Proof.
  unfold metrics_age_bins.
  repeat (constructor; [|repeat constructor; reflexivity]). constructor.
Qed.

(** X14. The age groups of [calculate_survival_metrics] are not those of
    the dashboard: an age in (12, 18] is a Teen for the dashboard and a
    Child for the metrics, an age in (50, 60] is Middle-Aged for the
    dashboard and a Senior for the metrics, and an age in (80, 100] has
    no group in the dashboard and is a Senior for the metrics. *)
Theorem metrics_age_groups_differ_from_dashboard (x : Q) :
  ((12 < x <= 18)%Q ->
   cut_value age_bins age_labels (VFloat x) = VStr "Teen" /\
   cut_value metrics_age_bins metrics_age_labels (VFloat x) = VStr "Child") /\
  ((50 < x <= 60)%Q ->
   cut_value age_bins age_labels (VFloat x) = VStr "Middle-Aged" /\
   cut_value metrics_age_bins metrics_age_labels (VFloat x) = VStr "Senior") /\
  ((80 < x <= 100)%Q ->
   cut_value age_bins age_labels (VFloat x) = NA /\
   cut_value metrics_age_bins metrics_age_labels (VFloat x) = VStr "Senior").
Proof.
  pose proof age_bins_sorted as Ha. pose proof metrics_age_bins_sorted as Hm.
  split; [|split]; intros [H1 H2]; split.
  - apply (cut_value_interval age_bins age_labels x 1 12 20); auto;
      try reflexivity; lra.
  - apply (cut_value_interval metrics_age_bins metrics_age_labels x 0 0 18);
      auto; try reflexivity; lra.
  - apply (cut_value_interval age_bins age_labels x 3 40 60); auto;
      try reflexivity; lra.
  - apply (cut_value_interval metrics_age_bins metrics_age_labels x 3 50 100);
      auto; try reflexivity; lra.
  - apply cut_value_above. unfold age_bins.
    repeat (constructor; [lra|]). constructor.
  - apply (cut_value_interval metrics_age_bins metrics_age_labels x 3 50 100);
      auto; try reflexivity; lra.
Qed.

Lemma metrics_age_groups_differ_from_dashboard_witness :
  (cut_value age_bins age_labels (VFloat 15) = VStr "Teen" /\
   cut_value metrics_age_bins metrics_age_labels (VFloat 15) = VStr "Child") /\
  (cut_value age_bins age_labels (VFloat 55) = VStr "Middle-Aged" /\
   cut_value metrics_age_bins metrics_age_labels (VFloat 55) = VStr "Senior") /\
  (cut_value age_bins age_labels (VFloat 90) = NA /\
   cut_value metrics_age_bins metrics_age_labels (VFloat 90) = VStr "Senior").
Proof.
  split; [|split].
  - apply (metrics_age_groups_differ_from_dashboard 15).
    split; [reflexivity|discriminate].
  - apply (metrics_age_groups_differ_from_dashboard 55).
    split; [reflexivity|discriminate].
  - apply (metrics_age_groups_differ_from_dashboard 90).
    split; [reflexivity|discriminate].
Defined.

(** ** The panels of the composite *)

Lemma lookup_rows (df : DataFrame) (m : mask) (name : string) :
  lookup (rows df m) name = option_map (sselect m) (lookup df name).
Proof.
  unfold rows. induction df as [|[k s] df IH]; simpl; [reflexivity|].
  destruct (String.eqb k name); [reflexivity|exact IH].
Qed.

Lemma count_true_flags (vs : list value) (dt : dtype) :
  Forall survival_flag vs ->
  count_true (eq (mkSeries dt vs) (VInt 1)) +
  count_true (eq (mkSeries dt vs) (VInt 0)) = length vs.
Proof.
  unfold count_true, eq. simpl.
  induction 1 as [|v vs Hv _ IH]; simpl; [reflexivity|].
  destruct Hv as [-> | ->]; simpl;
    rewrite ?Nat.add_succ_r, ?Nat.add_succ_l; f_equal; exact IH.
Qed.

Lemma count_of_classes (vs : list value) :
  Forall class_value vs ->
  count_of (VStr "First") vs + count_of (VStr "Second") vs +
  count_of (VStr "Third") vs = length vs.
Proof.
  unfold count_of.
  induction 1 as [|v vs Hv _ IH]; simpl; [reflexivity|].
  destruct Hv as [-> | [-> | ->]]; simpl;
    rewrite ?Nat.add_succ_r, ?Nat.add_succ_l; f_equal; exact IH.
Qed.

Lemma total_insert_sorted {K} (leb : K * nat -> K * nat -> bool)
    (x : K * nat) (l : list (K * nat)) :
  total (insert_sorted leb x l) = snd x + total l.
Proof.
  unfold total, values. induction l as [|y l IH]; simpl; [reflexivity|].
  destruct (leb x y); simpl; [reflexivity|]. rewrite IH. lia.
Qed.

(** Sorting a series of counts does not change their sum. *)
Lemma total_sort_by {K} (leb : K * nat -> K * nat -> bool) (l : list (K * nat)) :
  total (sort_by leb l) = total l.
Proof.
  unfold sort_by. induction l as [|x l IH]; simpl; [reflexivity|].
  rewrite total_insert_sorted, IH. reflexivity.
Qed.

(** A trace with the two axes is accepted by every cell of the grid of
    the composite. *)
Lemma add_trace_with_axes (t : Trace) (row col : nat) :
  trace_has t "xaxis" = true -> trace_has t "yaxis" = true ->
  In (row, col) [(1, 1); (1, 2); (2, 1); (2, 2)] ->
  add_trace multi_factor_specs t row col = inr (t, Some (row, col)).
Proof.
  intros Hx Hy Hin. simpl in Hin.
  repeat destruct Hin as [[= <- <-]|Hin]; try contradiction;
    unfold add_trace; cbn [multi_factor_specs nth_error trace_kwargs forallb];
    now rewrite Hx, Hy.
Qed.

(** X15. The second and the third panel of the composite account for
    every record of a dataset of [n] records: the two histograms of plot 2
    split the ages into those of the survivors and those of the others,
    and the two scatters of plot 3 split the (age, fare) points the same
    way. *)
Theorem multi_factor_panels_account_for_every_record
    (n : nat) (df : DataFrame) (survived age fare : Series) :
  rectangular n df ->
  lookup df "survived" = Some survived ->
  Forall survival_flag (s_values survived) ->
  lookup df "age" = Some age -> lookup df "fare" = Some fare ->
  exists hs hd xs ys xd yd,
    run multi_factor_plot2 df =
      inr [ (Histogram hs "Survived" "green", Some (1, 2));
            (Histogram hd "Died" "red", Some (1, 2)) ] /\
    length (s_values hs) + length (s_values hd) = n /\
    run multi_factor_plot3 df =
      inr [ (Scatter xs ys "Survived" "green", Some (2, 1));
            (Scatter xd yd "Died" "red", Some (2, 1)) ] /\
    length (s_values xs) = length (s_values ys) /\
    length (s_values xd) = length (s_values yd) /\
    length (s_values xs) + length (s_values xd) = n.
Proof.
  intros Hrect Hs Hflags Ha Hf.
  pose proof (rectangular_lookup _ _ _ _ Hrect Hs) as Hls.
  pose proof (rectangular_lookup _ _ _ _ Hrect Ha) as Hla.
  pose proof (rectangular_lookup _ _ _ _ Hrect Hf) as Hlf.
  assert (Hsel : forall (v : value) (s : Series),
             length (s_values s) = n ->
             length (s_values (sselect (eq survived v) s)) =
             count_true (eq survived v)).
  { intros v s Hl. simpl. apply length_select.
    rewrite length_eq_mask. congruence. }
  assert (Hsplit : count_true (eq survived (VInt 1)) +
                   count_true (eq survived (VInt 0)) = n).
  { destruct survived as [dt vs]. simpl in *. rewrite <- Hls.
    now apply count_true_flags. }
  exists (sselect (eq survived (VInt 1)) age),
         (sselect (eq survived (VInt 0)) age),
         (sselect (eq survived (VInt 1)) age),
         (sselect (eq survived (VInt 1)) fare),
         (sselect (eq survived (VInt 0)) age),
         (sselect (eq survived (VInt 0)) fare).
  unfold run, multi_factor_plot2, multi_factor_plot3.
  step. unfold getitem.
  repeat (first [ rewrite Hs | rewrite lookup_rows | rewrite Ha | rewrite Hf
                | rewrite add_trace_with_axes
                    by (try reflexivity; simpl; tauto) ];
          cbn [option_map ret]; step).
  rewrite !Hsel by assumption.
  repeat split; try reflexivity; try assumption.
Qed.

Lemma multi_factor_panels_account_for_every_record_witness :
  exists hs hd xs ys xd yd,
    run multi_factor_plot2 no_first_class =
      inr [ (Histogram hs "Survived" "green", Some (1, 2));
            (Histogram hd "Died" "red", Some (1, 2)) ] /\
    length (s_values hs) + length (s_values hd) = 3 /\
    run multi_factor_plot3 no_first_class =
      inr [ (Scatter xs ys "Survived" "green", Some (2, 1));
            (Scatter xd yd "Died" "red", Some (2, 1)) ] /\
    length (s_values xs) = length (s_values ys) /\
    length (s_values xd) = length (s_values yd) /\
    length (s_values xs) + length (s_values xd) = 3.
Proof.
  apply (multi_factor_panels_account_for_every_record 3 no_first_class
           (mkSeries int64 [VInt 1; VInt 0; VInt 1])
           (mkSeries float64 [VFloat 30; VFloat 25; VFloat 61])
           (mkSeries float64 [VFloat 10; VFloat 50; VFloat 80]));
    try reflexivity.
  - repeat constructor.
  - repeat (apply Forall_cons; [unfold survival_flag; auto|]). apply Forall_nil.
Defined.

(** ** The insights that do not depend on the number of records *)

Ltac run_lookups :=
  repeat (unfold getitem, px_col, groupby_apply, groupby_size;
          first [ rewrite lookup_rows
                | match goal with
                  | H : lookup _ _ = Some _ |- _ => rewrite H
                  end ];
          cbn [option_map ret bind]; step).

Lemma mean_where_run (df : DataFrame) (m : mask) (name : string) (s : Series) :
  lookup df name = Some s ->
  mean_where m name (mkGlobals df) =
    (inr (mean (sselect m s)), mkGlobals df).
Proof.
  intros H. unfold mean_where, df_where_col, df_where, mbind, global_df.
  unfold lift, mret, getitem. cbn [g_df]. rewrite lookup_rows, H.
  reflexivity.
Qed.

Lemma df_col_run (df : DataFrame) (name : string) (s : Series) :
  lookup df name = Some s ->
  df_col name (mkGlobals df) = (inr s, mkGlobals df).
Proof.
  intros H. unfold df_col, mbind, global_df, lift, getitem. cbn [g_df].
  now rewrite H.
Qed.

Ltac run_means :=
  repeat (first [ erewrite mbind_run
                    by (first [apply mean_where_run | apply df_col_run];
                        eassumption)
                | progress run_lookups ]).

(** X16. The 'fare_by_class', 'age_by_class' and 'age_vs_fare' insights
    answer on every dataset that has their columns and the categorical
    class column, whatever its records and also without any record: a
    class without a record shows NaN, and the price ratio and the age gap
    of the classes are the unguarded quotient and difference of the class
    means. *)
Theorem class_and_fare_insights_always_answer
    (df : DataFrame) (cls fare age survived sex : Series) :
  lookup df "class" = Some cls -> s_dtype cls = class_dtype ->
  lookup df "fare" = Some fare -> lookup df "age" = Some age ->
  lookup df "survived" = Some survived -> lookup df "sex" = Some sex ->
  (exists fig description stats,
      run (update_visualization (Some "fare_by_class")) df =
        inr (fig, description, stats) /\
      let mean_of_class k := agg_mean (group cls k fare) in
      html_floats stats =
        [ mean_of_class "First"; max_of (numeric (group cls "First" fare));
          mean_of_class "Second"; mean_of_class "Third";
          np_div (mean_of_class "First") (mean_of_class "Third") ]) /\
  (exists fig description stats,
      run (update_visualization (Some "age_by_class")) df =
        inr (fig, description, stats) /\
      let mean_of_class k := agg_mean (group cls k age) in
      html_floats stats =
        [ mean_of_class "First"; mean_of_class "Second";
          mean_of_class "Third";
          np_sub (mean_of_class "First") (mean_of_class "Third") ]) /\
  (exists response,
      run (update_visualization (Some "age_vs_fare")) df = inr response).
Proof.
  intros Hc Hdt Hf Ha Hs Hg. split; [|split].
  - change (update_visualization (Some "fare_by_class"))
      with fare_by_class_insight.
    unfold run, fare_by_class_insight. step. run_lookups.
    unfold group_keys, observed_default. rewrite Hdt.
    cbn [class_dtype map loc String.eqb Ascii.eqb Bool.eqb ret]. step.
    do 3 eexists. split; reflexivity.
  - change (update_visualization (Some "age_by_class"))
      with age_by_class_insight.
    unfold run, age_by_class_insight. step. run_lookups.
    unfold group_keys, observed_default. rewrite Hdt.
    cbn [class_dtype map loc String.eqb Ascii.eqb Bool.eqb ret]. step.
    do 3 eexists. split; reflexivity.
  - change (update_visualization (Some "age_vs_fare"))
      with age_vs_fare_insight.
    unfold run, age_vs_fare_insight. step. run_means.
    eexists. reflexivity.
Qed.

Lemma class_and_fare_insights_always_answer_witness :
  (exists fig description stats,
      run (update_visualization (Some "fare_by_class")) no_first_class =
        inr (fig, description, stats) /\
      html_floats stats = [NaN; NaN; Fin 65; Fin 10; NaN]) /\
  (exists response,
      run (update_visualization (Some "age_vs_fare"))
          [ ("survived", mkSeries int64 []); ("sex", mkSeries object []);
            ("age", mkSeries float64 []); ("fare", mkSeries float64 []);
            ("class", mkSeries class_dtype []) ] = inr response).
Proof.
  split.
  - apply (class_and_fare_insights_always_answer no_first_class
             (mkSeries class_dtype [VStr "Third"; VStr "Second"; VStr "Second"])
             (mkSeries float64 [VFloat 10; VFloat 50; VFloat 80])
             (mkSeries float64 [VFloat 30; VFloat 25; VFloat 61])
             (mkSeries int64 [VInt 1; VInt 0; VInt 1])
             (mkSeries object [VStr "male"; VStr "female"; VStr "female"]));
      reflexivity.
  - apply (class_and_fare_insights_always_answer
             [ ("survived", mkSeries int64 []); ("sex", mkSeries object []);
               ("age", mkSeries float64 []); ("fare", mkSeries float64 []);
               ("class", mkSeries class_dtype []) ]
             (mkSeries class_dtype []) (mkSeries float64 [])
             (mkSeries float64 []) (mkSeries int64 []) (mkSeries object []));
      reflexivity.
Defined.

(** ** The data overview *)

Lemma len_df_run (df : DataFrame) :
  len_df (mkGlobals df) = (inr (len df), mkGlobals df).
Proof. reflexivity. Qed.

Lemma len_where_run (n : nat) (df : DataFrame) (m : mask) :
  rectangular n df -> df <> [] -> length m = n ->
  len_where m (mkGlobals df) = (inr (count_true m), mkGlobals df).
Proof.
  intros Hrect Hne Hm. unfold len_where, df_where, mbind, global_df, mret.
  cbn [g_df]. now rewrite (len_rows n).
Qed.

Lemma share_zero (df : DataFrame) (name : string) (test : Series -> mask)
    (s : Series) :
  lookup df name = Some s -> len df = 0 ->
  share name test (mkGlobals df) = (inl ZeroDivisionError, mkGlobals df).
Proof.
  intros Hs Hn.
  unfold share, df_col, len_where, df_where, len_df, mbind, global_df.
  unfold lift, mret, getitem. cbn [g_df]. rewrite Hs, Hn. reflexivity.
Qed.

Lemma share_positive (n : nat) (df : DataFrame) (name : string)
    (test : Series -> mask) (s : Series) :
  rectangular n df -> lookup df name = Some s -> length (test s) = n ->
  0 < n ->
  exists p,
    share name test (mkGlobals df) =
      (inr [FInt "," (Z.of_nat (count_true (test s))); Lit " (";
            FFloat ".1f" p; Lit "%)"], mkGlobals df).
Proof.
  intros Hrect Hs Hm Hpos.
  assert (Hne : df <> []) by (intros ->; discriminate Hs).
  destruct (percent_of_positive (count_true (test s)) n Hpos) as [p Hp].
  exists p. unfold share.
  rewrite (mbind_run _ _ _ _ _ (df_col_run _ _ _ Hs)).
  rewrite (mbind_run _ _ _ _ _ (len_where_run n _ _ Hrect Hne Hm)).
  rewrite (mbind_run _ _ _ _ _ (df_col_run _ _ _ Hs)).
  rewrite (mbind_run _ _ _ _ _ (len_where_run n _ _ Hrect Hne Hm)).
  rewrite (mbind_run _ _ _ _ _ (len_df_run df)).
  rewrite (rectangular_len _ _ _ _ Hrect Hs).
  unfold mbind, lift. rewrite Hp. reflexivity.
Qed.

Lemma survival_of_run (df : DataFrame) (name v : string) (s survived : Series) :
  lookup df name = Some s -> lookup df "survived" = Some survived ->
  survival_of name v (mkGlobals df) =
    (inr (mean (sselect (eq s (VStr v)) survived)), mkGlobals df).
Proof.
  intros Hs Hv. unfold survival_of.
  rewrite (mbind_run _ _ _ _ _ (df_col_run _ _ _ Hs)).
  now apply mean_where_run.
Qed.

Lemma survival_range_run (df : DataFrame) (by_ : string) (b survived : Series) :
  lookup df by_ = Some b -> lookup df "survived" = Some survived ->
  exists r, survival_range by_ (mkGlobals df) = (inr r, mkGlobals df).
Proof.
  intros Hb Hv. unfold survival_range, df_groupby, groupby_apply, getitem.
  unfold mbind, global_df, lift, mret. cbn [g_df]. rewrite Hb, Hv.
  cbn [bind ret]. eauto.
Qed.

(** The three age bands of the overview cover every known age once. *)
Lemma count_true_age_bands (s : Series) :
  count_true (lt s 18) + count_true (mand (ge s 18) (lt s 65)) +
  count_true (ge s 65) = length (numeric (s_values s)).
Proof.
  unfold lt, ge. rewrite mand_cmp. unfold count_true, cmp.
  induction (s_values s) as [|v vs IH]; simpl; [reflexivity|].
  destruct (to_Q v) as [x|]; [|exact IH]. simpl. rewrite <- IH.
  destruct (Qltb x 18) eqn:E1; destruct (Qleb 18 x) eqn:E2;
    destruct (Qltb x 65) eqn:E3; destruct (Qleb 65 x) eqn:E4; simpl;
    rewrite ?Nat.add_succ_r, ?Nat.add_succ_l; try reflexivity; exfalso;
    rewrite ?Qltb_lt, ?Qltb_ge in *;
    repeat match goal with
           | H : Qleb _ _ = true |- _ => apply Qleb_le in H
           | H : Qleb ?a ?b = false |- _ =>
               assert (b < a)%Q by
                 (unfold Qleb in H; destruct (Qcompare_spec a b);
                  try discriminate; assumption);
               clear H
           end; lra.
Qed.

(** X17. The 'data_overview' insight divides every count of its table by
    the number of records as Python integers: on a dataset without records
    it raises [ZeroDivisionError]; on any other dataset with its five
    columns it answers, and the counts of its table reconcile: the two
    genders and the three classes add up to the number of records when the
    columns hold no other value, and the three age bands add up to the
    number of known ages. *)
Theorem data_overview_needs_a_record
    (n : nat) (df : DataFrame) (survived sex cls age fare : Series) :
  rectangular n df ->
  lookup df "survived" = Some survived -> lookup df "sex" = Some sex ->
  lookup df "class" = Some cls -> lookup df "age" = Some age ->
  lookup df "fare" = Some fare ->
  (n = 0 ->
   run (update_visualization (Some "data_overview")) df =
     inl ZeroDivisionError) /\
  (0 < n ->
   exists fig description stats male female first second third
          children adults seniors,
     run (update_visualization (Some "data_overview")) df =
       inr (fig, description, stats) /\
     html_ints description =
       map Z.of_nat [n; male; female; first; second; third;
                     children; adults; seniors] /\
     (Forall gender_value (s_values sex) -> male + female = n) /\
     (Forall class_value (s_values cls) -> first + second + third = n) /\
     children + adults + seniors = length (numeric (s_values age)) /\
     children + adults + seniors <= n).
Proof.
  intros Hrect Hv Hg Hc Ha Hf.
  pose proof (rectangular_len _ _ _ _ Hrect Hv) as Hn.
  pose proof (rectangular_lookup _ _ _ _ Hrect Hg) as Hlg.
  pose proof (rectangular_lookup _ _ _ _ Hrect Hc) as Hlc.
  pose proof (rectangular_lookup _ _ _ _ Hrect Ha) as Hla.
  change (update_visualization (Some "data_overview"))
    with data_overview_insight.
  unfold run, data_overview_insight.
  rewrite (mbind_run _ _ _ _ _ (len_df_run df)).
  rewrite (mbind_run _ _ _ _ _ (df_col_run _ _ _ Hv)).
  rewrite (mbind_run _ _ _ _ _ (df_col_run _ _ _ Ha)).
  rewrite (mbind_run _ _ _ _ _ (df_col_run _ _ _ Hf)).
  split.
  - intros ->.
    rewrite (mbind_raise _ _ _ _ _
               (share_zero df "sex" (fun s => eq s (VStr "male")) sex Hg Hn)).
    reflexivity.
  - intros Hpos.
    assert (Hne : df <> []) by (intros ->; discriminate Hv).
    destruct (share_positive n df "sex" (fun s => eq s (VStr "male")) sex
                Hrect Hg) as [p1 H1];
      [now rewrite length_eq_mask|exact Hpos|].
    destruct (share_positive n df "sex" (fun s => eq s (VStr "female")) sex
                Hrect Hg) as [p2 H2];
      [now rewrite length_eq_mask|exact Hpos|].
    destruct (share_positive n df "class" (fun s => eq s (VStr "First")) cls
                Hrect Hc) as [p3 H3];
      [now rewrite length_eq_mask|exact Hpos|].
    destruct (share_positive n df "class" (fun s => eq s (VStr "Second")) cls
                Hrect Hc) as [p4 H4];
      [now rewrite length_eq_mask|exact Hpos|].
    destruct (share_positive n df "class" (fun s => eq s (VStr "Third")) cls
                Hrect Hc) as [p5 H5];
      [now rewrite length_eq_mask|exact Hpos|].
    destruct (share_positive n df "age" (fun s => lt s 18) age
                Hrect Ha) as [p6 H6];
      [unfold lt; now rewrite length_cmp|exact Hpos|].
    destruct (share_positive n df "age"
                (fun s => mand (ge s 18) (lt s 65)) age Hrect Ha) as [p7 H7];
      [unfold lt, ge; rewrite length_mand; rewrite ?length_cmp; congruence
      |exact Hpos|].
    destruct (share_positive n df "age" (fun s => ge s 65) age
                Hrect Ha) as [p8 H8];
      [unfold ge; now rewrite length_cmp|exact Hpos|].
    destruct (survival_range_run df "class" cls survived Hc Hv) as [rc Hrc].
    destruct (survival_range_run df "sex" sex survived Hg Hv) as [rg Hrg].
    rewrite (mbind_run _ _ _ _ _ H1), (mbind_run _ _ _ _ _ H2).
    rewrite (mbind_run _ _ _ _ _ H3), (mbind_run _ _ _ _ _ H4).
    rewrite (mbind_run _ _ _ _ _ H5), (mbind_run _ _ _ _ _ H6).
    rewrite (mbind_run _ _ _ _ _ H7), (mbind_run _ _ _ _ _ H8).
    cbv zeta.
    rewrite (mbind_run _ _ _ _ _ (df_col_run _ _ _ Hv)).
    rewrite (mbind_run _ _ _ _ _ (survival_of_run _ _ "male" _ _ Hg Hv)).
    rewrite (mbind_run _ _ _ _ _ (survival_of_run _ _ "female" _ _ Hg Hv)).
    rewrite (mbind_run _ _ _ _ _ (survival_of_run _ _ "First" _ _ Hc Hv)).
    rewrite (mbind_run _ _ _ _ _ (survival_of_run _ _ "Second" _ _ Hc Hv)).
    rewrite (mbind_run _ _ _ _ _ (survival_of_run _ _ "Third" _ _ Hc Hv)).
    rewrite (mbind_run _ _ _ _ _ (df_col_run _ _ _ Hf)).
    rewrite (mbind_run _ _ _ _ _ (df_col_run _ _ _ Ha)).
    rewrite (mbind_run _ _ _ _ _ Hrc), (mbind_run _ _ _ _ _ Hrg).
    unfold mbind at 1, global_df at 1. cbn [g_df].
    rewrite (mbind_run _ _ _ _ _ (df_col_run _ _ _ Ha)).
    rewrite (mbind_run _ _ _ _ _ (df_col_run _ _ _ Ha)).
    rewrite (mbind_run _ _ _ _ _ (df_col_run _ _ _ Hf)).
    rewrite (mbind_run _ _ _ _ _ (df_col_run _ _ _ Hf)).
    rewrite (mbind_run _ _ _ _ _
               (len_where_run n df (eq fare (VInt 0)) Hrect Hne
                  ltac:(now rewrite length_eq_mask;
                        apply (rectangular_lookup _ _ _ _ Hrect Hf)))).
    unfold mret. cbn [fst].
    do 3 eexists.
    exists (count_true (eq sex (VStr "male"))),
           (count_true (eq sex (VStr "female"))),
           (count_true (eq cls (VStr "First"))),
           (count_true (eq cls (VStr "Second"))),
           (count_true (eq cls (VStr "Third"))),
           (count_true (lt age 18)),
           (count_true (mand (ge age 18) (lt age 65))),
           (count_true (ge age 65)).
    split; [reflexivity|]. split; [now rewrite Hn|].
    split; [|split; [|split]].
    + intros Hgv. destruct sex as [dt vs]. simpl in Hgv, Hlg.
      destruct (count_true_genders vs dt Hgv) as (E1 & E2 & E3).
      rewrite E1, E2, <- Hlg, <- E3. apply Nat.add_comm.
    + intros Hcv. destruct cls as [dt vs]. simpl in Hcv, Hlc.
      rewrite <- Hlc. now apply count_true_classes.
    + apply count_true_age_bands.
    + rewrite count_true_age_bands, <- Hla.
      clear. induction (s_values age) as [|v vs IH]; simpl; [lia|].
      destruct (to_Q v); simpl; lia.
Qed.

Lemma data_overview_needs_a_record_witness :
  run (update_visualization (Some "data_overview"))
      [ ("survived", mkSeries int64 []); ("sex", mkSeries object []);
        ("age", mkSeries float64 []); ("fare", mkSeries float64 []);
        ("class", mkSeries class_dtype []) ] = inl ZeroDivisionError /\
  exists fig description stats male female first second third
         children adults seniors,
    run (update_visualization (Some "data_overview")) (prepared scenario) =
      inr (fig, description, stats) /\
    html_ints description =
      map Z.of_nat [3; male; female; first; second; third;
                    children; adults; seniors] /\
    (Forall gender_value [VStr "male"; VStr "female"; VStr "male"] ->
     male + female = 3) /\
    (Forall class_value [VStr "Third"; VStr "First"; VStr "Second"] ->
     first + second + third = 3) /\
    children + adults + seniors = 3 /\
    children + adults + seniors <= 3.
Proof.
  split.
  - apply (data_overview_needs_a_record 0
             [ ("survived", mkSeries int64 []); ("sex", mkSeries object []);
               ("age", mkSeries float64 []); ("fare", mkSeries float64 []);
               ("class", mkSeries class_dtype []) ]
             (mkSeries int64 []) (mkSeries object []) (mkSeries class_dtype [])
             (mkSeries float64 []) (mkSeries float64 []));
      try reflexivity.
    repeat constructor.
  - apply (data_overview_needs_a_record 3 (prepared scenario)
             (mkSeries int64 [VInt 0; VInt 1; VInt 0])
             (mkSeries object [VStr "male"; VStr "female"; VStr "male"])
             (mkSeries class_dtype [VStr "Third"; VStr "First"; VStr "Second"])
             (mkSeries float64 [VFloat 30; VFloat 8; VFloat 40])
             (mkSeries float64 [VFloat 10; VFloat 50; NA]));
      try reflexivity; [|lia].
    vm_compute. repeat constructor.
Defined.

(** ** The pie of the composite *)

Lemma df_col_inr (name : string) (g g' : Globals) (s : Series) :
  df_col name g = (inr s, g') -> lookup (g_df g) name = Some s /\ g' = g.
Proof.
  unfold df_col, mbind, global_df, lift, getitem. cbn [g_df].
  destruct (lookup (g_df g) name); [|discriminate].
  intros [= <- <-]. now split.
Qed.

(** The first plot reads the [class] column: when it is built, the column
    exists. *)
Lemma multi_factor_plot1_reads_class (df : DataFrame) (p1 : list subplot) :
  run multi_factor_plot1 df = inr p1 -> exists cls, lookup df "class" = Some cls.
Proof.
  unfold run, multi_factor_plot1. intros H.
  destruct (mbind _ _ (mkGlobals df)) as [r g'] eqn:E. simpl in H. subst r.
  apply mbind_inr in E as (sex & g1 & Hsex & E).
  apply df_col_inr in Hsex as [_ ->].
  apply mbind_inr in E as (cls & g2 & Hcls & _).
  apply df_col_inr in Hcls as [Hcls _]. eauto.
Qed.

(** The pie has no axes, and the cell (2, 2) is an 'xy' cell. *)
Lemma multi_factor_plot4_rejected (df : DataFrame) (cls : Series) :
  lookup df "class" = Some cls ->
  run multi_factor_plot4 df =
    inl (ValueError (incompatible_trace "pie" "xy" 2 2)).
Proof.
  intros Hcls. unfold run, multi_factor_plot4.
  rewrite (mbind_run _ _ _ _ _ (df_col_run _ _ _ Hcls)).
  reflexivity.
Qed.

(** X18. The 'multi_factor' insight answers on no dataset.  Every cell of
    the grid of its figure is an 'xy' cell and the pie of the fourth plot
    has no axes: whenever the first three plots are built, [add_trace]
    rejects the pie with [ValueError]; otherwise the callback has raised
    before. *)
Theorem multi_factor_pie_is_rejected (df : DataFrame) :
  (exists e, run (update_visualization (Some "multi_factor")) df = inl e) /\
  (forall p1 p2 p3,
      run multi_factor_plot1 df = inr p1 ->
      run multi_factor_plot2 df = inr p2 ->
      run multi_factor_plot3 df = inr p3 ->
      exists msg,
        run (update_visualization (Some "multi_factor")) df =
          inl (ValueError msg)).
Proof.
  change (update_visualization (Some "multi_factor")) with multi_factor_insight.
  assert (Hpie : forall p1 p2 p3,
             run multi_factor_plot1 df = inr p1 ->
             run multi_factor_plot2 df = inr p2 ->
             run multi_factor_plot3 df = inr p3 ->
             run multi_factor_insight df =
               inl (ValueError (incompatible_trace "pie" "xy" 2 2))).
  { intros p1 p2 p3 H1 H2 H3.
    destruct (multi_factor_plot1_reads_class df p1 H1) as [cls Hcls].
    pose proof (multi_factor_plot4_rejected df cls Hcls) as H4.
    unfold run in *. set (g := mkGlobals df) in *.
    pose proof (read_only_run _ g read_only_multi_factor_plot1) as E1.
    pose proof (read_only_run _ g read_only_multi_factor_plot2) as E2.
    pose proof (read_only_run _ g read_only_multi_factor_plot3) as E3.
    pose proof (read_only_run _ g read_only_multi_factor_plot4) as E4.
    rewrite H1 in E1. rewrite H2 in E2. rewrite H3 in E3. rewrite H4 in E4.
    unfold multi_factor_insight.
    rewrite (mbind_run _ _ _ _ _ E1), (mbind_run _ _ _ _ _ E2).
    rewrite (mbind_run _ _ _ _ _ E3).
    now rewrite (mbind_raise _ _ _ _ _ E4). }
  split.
  - destruct (run multi_factor_plot1 df) as [e1|p1] eqn:H1.
    { exists e1. unfold run in *.
      pose proof (read_only_run _ (mkGlobals df) read_only_multi_factor_plot1)
        as E1.
      rewrite H1 in E1. unfold multi_factor_insight.
      now rewrite (mbind_raise _ _ _ _ _ E1). }
    destruct (run multi_factor_plot2 df) as [e2|p2] eqn:H2.
    { exists e2. unfold run in *.
      pose proof (read_only_run _ (mkGlobals df) read_only_multi_factor_plot1)
        as E1.
      pose proof (read_only_run _ (mkGlobals df) read_only_multi_factor_plot2)
        as E2.
      rewrite H1 in E1. rewrite H2 in E2. unfold multi_factor_insight.
      rewrite (mbind_run _ _ _ _ _ E1).
      now rewrite (mbind_raise _ _ _ _ _ E2). }
    destruct (run multi_factor_plot3 df) as [e3|p3] eqn:H3.
    { exists e3. unfold run in *.
      pose proof (read_only_run _ (mkGlobals df) read_only_multi_factor_plot1)
        as E1.
      pose proof (read_only_run _ (mkGlobals df) read_only_multi_factor_plot2)
        as E2.
      pose proof (read_only_run _ (mkGlobals df) read_only_multi_factor_plot3)
        as E3.
      rewrite H1 in E1. rewrite H2 in E2. rewrite H3 in E3.
      unfold multi_factor_insight.
      rewrite (mbind_run _ _ _ _ _ E1), (mbind_run _ _ _ _ _ E2).
      now rewrite (mbind_raise _ _ _ _ _ E3). }
    eexists. exact (Hpie p1 p2 p3 eq_refl eq_refl eq_refl).
  - intros p1 p2 p3 H1 H2 H3. eexists. exact (Hpie p1 p2 p3 H1 H2 H3).
Qed.

Lemma multi_factor_pie_is_rejected_witness :
  exists msg,
    run (update_visualization (Some "multi_factor")) no_first_class =
      inl (ValueError msg).
Proof.
  eapply (proj2 (multi_factor_pie_is_rejected no_first_class));
    reflexivity.
Defined.
